(** * dr3d-inventory-art: the ticket-verification and grant relay (server.mjs)

    A shallow embedding of [src/server.mjs] and of the part of the JavaScript
    runtime it relies on:

    - strings are sequences of UTF-16 code units ([Str]);
    - Numbers are IEEE-754 binary64 values with round-to-nearest-even
      arithmetic ([Num]), converted from and to strings as ECMA-262
      prescribes ([StringToNumber], [NumberToString]);
    - JavaScript values, property access, truthiness, strict equality and
      [JSON.parse] ([jsval] and friends);
    - the program itself: [parseDropKeys], [pickRandom], [verifyTicket],
      [grantItem], the four routes and the startup log, written over an
      explicit world (upstream replies, the random draw) and an explicit
      trace of the outbound HTTP calls. *)

From Stdlib Require Import ZArith List Bool Lia String Ascii Permutation Sorted.
Import ListNotations.
Open Scope Z_scope.

(* ------------------------------------------------------------------------- *)
(** ** Strings as UTF-16 code units *)

Module Str.

(** A JavaScript string is a sequence of 16-bit code units. *)
Definition jsstring := list Z.

(** An ASCII literal as a JavaScript string. *)
Definition js (s : string) : jsstring :=
  map (fun a => Z.of_N (N_of_ascii a)) (list_ascii_of_string s).

Fixpoint eqb (s t : jsstring) : bool :=
  match s, t with
  | [], [] => true
  | c :: s', d :: t' => (c =? d) && eqb s' t'
  | _, _ => false
  end.

(** [\d] of a regular expression without the unicode flag, and DecimalDigit. *)
Definition isDigit (c : Z) : bool := (48 <=? c) && (c <=? 57).

(** WhiteSpace and LineTerminator of ECMA-262: what [String.prototype.trim],
    [\s] and StringToNumber skip. *)
Definition isWhiteSpace (c : Z) : bool :=
  (c =? 9) || (c =? 10) || (c =? 11) || (c =? 12) || (c =? 13) || (c =? 32)
  || (c =? 160) || (c =? 5760) || ((8192 <=? c) && (c <=? 8202))
  || (c =? 8232) || (c =? 8233) || (c =? 8239) || (c =? 8287)
  || (c =? 12288) || (c =? 65279).

Fixpoint dropWhile (p : Z -> bool) (s : jsstring) : jsstring :=
  match s with
  | [] => []
  | c :: s' => if p c then dropWhile p s' else s
  end.

Fixpoint takeWhile (p : Z -> bool) (s : jsstring) : jsstring :=
  match s with
  | [] => []
  | c :: s' => if p c then c :: takeWhile p s' else []
  end.

(** [s.trim()] *)
Definition trim (s : jsstring) : jsstring :=
  rev (dropWhile isWhiteSpace (rev (dropWhile isWhiteSpace s))).

(** [s.split(/[;,]/)]: the pieces between separators, empty pieces kept. *)
Fixpoint splitOn (sep : Z -> bool) (s : jsstring) : list jsstring :=
  match s with
  | [] => [[]]
  | c :: s' =>
      if sep c then [] :: splitOn sep s'
      else match splitOn sep s' with
           | h :: t => (c :: h) :: t
           | [] => [[c]]
           end
  end.

(** [parts.join(sep)] on strings. *)
Fixpoint join (sep : jsstring) (parts : list jsstring) : jsstring :=
  match parts with
  | [] => []
  | [p] => p
  | p :: rest => p ++ sep ++ join sep rest
  end.

(** The decimal digits of a non-negative integer, most significant first.
    The fuel is the bit length of the number, which bounds its digit count. *)
Fixpoint digitsAux (fuel : nat) (n : Z) (acc : jsstring) : jsstring :=
  match fuel with
  | O => (48 + n mod 10) :: acc
  | S f =>
      if n <? 10 then (48 + n) :: acc
      else digitsAux f (n / 10) ((48 + n mod 10) :: acc)
  end.

Definition digits (n : Z) : jsstring :=
  digitsAux (Z.to_nat (Z.log2 n)) n [].

(** The value of a character as a digit (digits, then letters a-z or A-Z);
    99, which is a digit of no radix, for any other character. *)
Definition digitVal (c : Z) : Z :=
  if isDigit c then c - 48
  else if (97 <=? c) && (c <=? 122) then c - 87
  else if (65 <=? c) && (c <=? 90) then c - 55
  else 99.

Definition isRadixDigit (radix : Z) (c : Z) : bool := digitVal c <? radix.

(** The number a string of digits denotes in a radix. *)
Definition valueOf (radix : Z) (s : jsstring) : Z :=
  fold_left (fun acc c => radix * acc + digitVal c) s 0.

End Str.

Import Str.

(* ------------------------------------------------------------------------- *)
(** ** Numbers: IEEE-754 binary64 *)

Module Num.

(** Every finite double is an integer multiple of [2^-1074], the smallest
    subnormal. [Fin k] is the double of value [k * 2^-1074]; it is a double
    when [k] has at most 53 significant bits and [|k| < 2^2098]. [Fin 0] is
    [+0]. *)
Inductive number : Type :=
  | NaN
  | PosInf
  | NegInf
  | NegZero
  | Fin (k : Z).

Definition SHIFT : Z := 1074.
Definition SCALE : Z := 2 ^ SHIFT.
(** [2^1024] in units of [2^-1074]: the first magnitude that overflows. *)
Definition OVERFLOW : Z := 2 ^ 2098.

(** The integer nearest to [p / q], ties to even ([0 <= p], [0 < q]). *)
Definition rnd_div (p q : Z) : Z :=
  let a := p / q in
  match 2 * (p mod q) ?= q with
  | Lt => a
  | Gt => a + 1
  | Eq => if Z.even a then a else a + 1
  end.

(** How many low bits a magnitude [v] (in units of [2^-1074]) loses when it is
    rounded to 53 significant bits: none up to [2^53], where all integers are
    doubles (subnormals included). *)
Definition shiftOf (v : Z) : Z := Z.max 0 (Z.log2 v - 52).

(** The magnitude nearest to [p / q] (units of [2^-1074]) among the doubles,
    ties to even; [None] on overflow. *)
Definition roundMag (p q : Z) : option Z :=
  let sh := shiftOf (p / q) in
  let k := rnd_div p (q * 2 ^ sh) * 2 ^ sh in
  if k <? OVERFLOW then Some k else None.

(** The double nearest to [(-1)^neg * p / q * 2^-1074]. *)
Definition round (neg : bool) (p q : Z) : number :=
  match roundMag p q with
  | None => if neg then NegInf else PosInf
  | Some 0 => if neg then NegZero else Fin 0
  | Some k => Fin (if neg then - k else k)
  end.

(** The double of a small integer. *)
Definition ofZ (n : Z) : number := round (n <? 0) (Z.abs n * SCALE) 1.

Definition zero : number := Fin 0.
Definition one : number := Fin SCALE.

Definition isNaN (x : number) : bool :=
  match x with NaN => true | _ => false end.

(** [Number.isFinite(x)] on a Number. *)
Definition isFinite (x : number) : bool :=
  match x with NegZero | Fin _ => true | _ => false end.

Definition isNeg (x : number) : bool :=
  match x with
  | NegInf | NegZero => true
  | Fin k => k <? 0
  | _ => false
  end.

(** The value of a finite double in units of [2^-1074]. *)
Definition toZ (x : number) : Z :=
  match x with Fin k => k | _ => 0 end.

Definition neg (x : number) : number :=
  match x with
  | NaN => NaN
  | PosInf => NegInf
  | NegInf => PosInf
  | NegZero => Fin 0
  | Fin 0 => NegZero
  | Fin k => Fin (- k)
  end.

(** [x + y] (Number::add). *)
Definition add (x y : number) : number :=
  match x, y with
  | NaN, _ | _, NaN => NaN
  | PosInf, NegInf | NegInf, PosInf => NaN
  | PosInf, _ | _, PosInf => PosInf
  | NegInf, _ | _, NegInf => NegInf
  | NegZero, NegZero => NegZero
  | _, _ =>
      let s := toZ x + toZ y in
      if s =? 0 then Fin 0 else round (s <? 0) (Z.abs s) 1
  end.

(** [x - y] (Number::subtract is [x + (-y)]). *)
Definition sub (x y : number) : number := add x (neg y).

(** [x * y] (Number::multiply). *)
Definition mul (x y : number) : number :=
  let s := xorb (isNeg x) (isNeg y) in
  match x, y with
  | NaN, _ | _, NaN => NaN
  | (PosInf | NegInf), (PosInf | NegInf) => if s then NegInf else PosInf
  | (PosInf | NegInf), f | f, (PosInf | NegInf) =>
      if toZ f =? 0 then NaN else if s then NegInf else PosInf
  | _, _ => round s (Z.abs (toZ x) * Z.abs (toZ y)) SCALE
  end.

(** [x < y] on Numbers: false as soon as one is NaN; [-0] equals [+0]. *)
Definition ltb (x y : number) : bool :=
  match x, y with
  | NaN, _ | _, NaN => false
  | PosInf, _ => false
  | _, PosInf => true
  | _, NegInf => false
  | NegInf, _ => true
  | _, _ => toZ x <? toZ y
  end.

(** [x <= y] *)
Definition leb (x y : number) : bool :=
  match x, y with
  | NaN, _ | _, NaN => false
  | _, PosInf => true
  | PosInf, _ => false
  | NegInf, _ => true
  | _, NegInf => false
  | _, _ => toZ x <=? toZ y
  end.

(** [x === y] on Numbers (Number::equal). *)
Definition eqb (x y : number) : bool :=
  match x, y with
  | NaN, _ | _, NaN => false
  | PosInf, PosInf | NegInf, NegInf => true
  | (PosInf | NegInf), _ | _, (PosInf | NegInf) => false
  | _, _ => toZ x =? toZ y
  end.

(** SameValueZero, the equality of [Set] and [Map] keys. *)
Definition sameValueZero (x y : number) : bool :=
  match x, y with
  | NaN, NaN => true
  | _, _ => eqb x y
  end.

(** [Math.floor(x)] *)
Definition floor (x : number) : number :=
  match x with
  | Fin k => Fin (k / SCALE * SCALE)
  | _ => x
  end.

(** The index a Number denotes as an array property key: [Some i] for the
    integers [i >= 0], [None] for everything else (no such element). *)
Definition toIndex (x : number) : option nat :=
  match x with
  | NegZero => Some O
  | Fin k =>
      if (0 <=? k) && (k mod SCALE =? 0) then Some (Z.to_nat (k / SCALE))
      else None
  | _ => None
  end.

(** A value of the type that is a double: rounding leaves it alone. *)
Definition isDouble (x : number) : bool :=
  match x with
  | Fin k =>
      match roundMag (Z.abs k) 1 with
      | Some k' => k' =? Z.abs k
      | None => false
      end
  | _ => true
  end.

End Num.

Import Num.

(* ------------------------------------------------------------------------- *)
(** ** Number <-> String conversions *)

(** The double nearest to [(-1)^neg * s * 10^e]. The mathematical value of a
    numeric literal is rounded exactly, as V8 does. *)
Definition decValue (neg : bool) (s e : Z) : number :=
  if 0 <=? e then round neg (s * 10 ^ e * SCALE) 1
  else round neg (s * SCALE) (10 ^ (- e)).

Definition nonEmpty (s : jsstring) : bool :=
  match s with [] => false | _ => true end.

(** ExponentPart_opt, up to the end of the string: the exponent it denotes. *)
Definition parseExponent (r : jsstring) : option Z :=
  match r with
  | [] => Some 0
  | c :: r1 =>
      if (c =? 101) || (c =? 69) then
        let '(sg, r2) :=
          match r1 with
          | d :: r' =>
              if d =? 43 then (false, r')
              else if d =? 45 then (true, r')
              else (false, r1)
          | [] => (false, r1)
          end in
        if nonEmpty r2 && forallb isDigit r2
        then Some (if sg then - valueOf 10 r2 else valueOf 10 r2)
        else None
      else None
  end.

(** StrUnsignedDecimalLiteral: [Infinity], or digits with an optional
    fraction and exponent; anything else is NaN. *)
Definition parseUnsignedDecimal (neg : bool) (t : jsstring) : number :=
  if Str.eqb t (js "Infinity") then (if neg then NegInf else PosInf)
  else
    let ip := takeWhile isDigit t in
    let r1 := dropWhile isDigit t in
    let '(fp, r2) :=
      match r1 with
      | c :: r => if c =? 46 then (takeWhile isDigit r, dropWhile isDigit r)
                  else ([], r1)
      | [] => ([], r1)
      end in
    if nonEmpty ip || nonEmpty fp then
      match parseExponent r2 with
      | Some e => decValue neg (valueOf 10 (ip ++ fp)) (e - Z.of_nat (List.length fp))
      | None => NaN
      end
    else NaN.

(** The radix and digits of a [0x], [0o] or [0b] literal. *)
Definition nonDecimalRadix (t : jsstring) : option (Z * jsstring) :=
  match t with
  | c0 :: c1 :: ds =>
      if c0 =? 48 then
        if (c1 =? 120) || (c1 =? 88) then Some (16, ds)
        else if (c1 =? 111) || (c1 =? 79) then Some (8, ds)
        else if (c1 =? 98) || (c1 =? 66) then Some (2, ds)
        else None
      else None
  | _ => None
  end.

(** StrNumericLiteral, on a string already trimmed; the empty string is
    [+0], a string that is no literal is NaN. A sign is for decimal literals
    only. *)
Definition parseNumericLiteral (t : jsstring) : number :=
  match t with
  | [] => Fin 0
  | c :: t1 =>
      if c =? 43 then parseUnsignedDecimal false t1
      else if c =? 45 then parseUnsignedDecimal true t1
      else match nonDecimalRadix t with
           | Some (radix, ds) =>
               if nonEmpty ds && forallb (isRadixDigit radix) ds
               then round false (valueOf radix ds * SCALE) 1
               else NaN
           | None => parseUnsignedDecimal false t
           end
  end.

(** StringToNumber of ECMA-262, which is [Number(s)] on a string. *)
Definition StringToNumber (s : jsstring) : number :=
  parseNumericLiteral (trim s).

(** [n] with [10^(n-1) <= k * 2^-1074 < 10^n], for [k > 0]. *)
Definition decExp (k : Z) : Z :=
  if SCALE <=? k then Z.of_nat (List.length (digits (k / SCALE)))
  else 1 - Z.of_nat (List.length (digits ((SCALE - 1) / k))).

(** [s * 10^t] with the trailing zeros of [s] moved into the exponent. *)
Fixpoint stripZeros (fuel : nat) (s t : Z) : Z * Z :=
  match fuel with
  | O => (s, t)
  | S f =>
      if (0 <? s) && (s mod 10 =? 0) then stripZeros f (s / 10) (t + 1)
      else (s, t)
  end.

(** [s * 10^t] is a decimal that reads back as the double [Fin k]. *)
Definition readsBack (k : Z) (c : Z * Z) : bool :=
  (0 <? fst c) &&
  match decValue false (fst c) (snd c) with
  | Fin k' => k' =? k
  | _ => false
  end.

(** The shortest decimal that reads back as [Fin k]: for 1, 2, ... digits, the
    two decimals of that many digits around the value, the nearer first. *)
Fixpoint searchDigits (fuel : nat) (kk k n0 : Z) : option (Z * Z) :=
  match fuel with
  | O => None
  | S f =>
      let t := n0 - kk in
      let p := if 0 <=? t then k else k * 10 ^ (- t) in
      let q := if 0 <=? t then SCALE * 10 ^ t else SCALE in
      let lo := p / q in
      let near := rnd_div p q in
      let other := if near =? lo then lo + 1 else lo in
      let c1 := stripZeros 20 near t in
      let c2 := stripZeros 20 other t in
      if readsBack k c1 then Some c1
      else if readsBack k c2 then Some c2
      else searchDigits f (kk + 1) k n0
  end.

(** The digits [s] and exponent [t] of Number::toString: [s * 10^t] reads
    back as the double and [s] has as few digits as possible. Seventeen
    significant digits identify every double, so the search succeeds; the
    exact decimal expansion [k * 5^1074 * 10^-1074] closes the definition. *)
Definition shortest (k : Z) : Z * Z :=
  match searchDigits 17 1 k (decExp k) with
  | Some c => c
  | None => stripZeros 2200 (k * 5 ^ SHIFT) (- SHIFT)
  end.

Definition zeros (n : Z) : jsstring := repeat 48 (Z.to_nat n).

(** Number::toString(x, 10) for a positive finite [x = Fin k], steps 5 to 10
    of ECMA-262 with [k] digits [ds] and [n = k + t]. *)
Definition formatDecimal (ds : jsstring) (t : Z) : jsstring :=
  let kd := Z.of_nat (List.length ds) in
  let n := kd + t in
  if (kd <=? n) && (n <=? 21) then ds ++ zeros (n - kd)
  else if (0 <? n) && (n <=? 21) then
    firstn (Z.to_nat n) ds ++ [46] ++ skipn (Z.to_nat n) ds
  else if (-6 <? n) && (n <=? 0) then [48; 46] ++ zeros (- n) ++ ds
  else
    let e := n - 1 in
    let ex := (if e <? 0 then 45 else 43) :: digits (Z.abs e) in
    match ds with
    | [d] => d :: 101 :: ex
    | d :: rest => d :: 46 :: rest ++ 101 :: ex
    | [] => []
    end.

Definition positiveToString (k : Z) : jsstring :=
  let '(s, t) := shortest k in formatDecimal (digits s) t.

(** [String(x)] on a Number. *)
Definition NumberToString (x : number) : jsstring :=
  match x with
  | NaN => js "NaN"
  | PosInf => js "Infinity"
  | NegInf => js "-Infinity"
  | NegZero => [48]
  | Fin k =>
      if k =? 0 then [48]
      else if k <? 0 then 45 :: positiveToString (- k)
      else positiveToString k
  end.

(* ------------------------------------------------------------------------- *)
(** ** JavaScript values *)

(** The values the program handles: request bodies, upstream replies and the
    objects it builds are JSON-like. An object is its list of own properties,
    looked up by the first match. [VError] is an instance of [Error] with its
    [name] and [message], and the [response] property axios adds to the
    errors it rejects with ([undefined] when there is none). *)
#[warnings="-register-all"]
Inductive jsval : Type :=
  | VUndefined
  | VNull
  | VBool (b : bool)
  | VNum (x : number)
  | VStr (s : jsstring)
  | VArr (items : list jsval)
  | VObj (fields : list (jsstring * jsval))
  | VError (name message : jsstring) (response : jsval).

(** What a computation that can throw ends in. *)
Inductive outcome (A : Type) : Type :=
  | Return (a : A)
  | Throw (e : jsval).
Arguments Return {A} a.
Arguments Throw {A} e.

(** ToBoolean: what [!v], [v || w] and [c ? a : b] test. *)
Definition truthy (v : jsval) : bool :=
  match v with
  | VUndefined | VNull => false
  | VBool b => b
  | VNum x => negb (isNaN x || (toZ x =? 0) && isFinite x)
  | VStr s => nonEmpty s
  | VArr _ | VObj _ | VError _ _ _ => true
  end.

(** [a || b] *)
Definition jsOr (a b : jsval) : jsval := if truthy a then a else b.

Fixpoint lookup (name : jsstring) (fields : list (jsstring * jsval)) : jsval :=
  match fields with
  | [] => VUndefined
  | (k, v) :: rest => if Str.eqb k name then v else lookup name rest
  end.

(** [v.name] on a value that is neither [undefined] nor [null], for the
    property names the program uses: an object's own property, the [length]
    of a string or array, [undefined] otherwise. *)
Definition getProp (v : jsval) (name : jsstring) : jsval :=
  match v with
  | VObj fields => lookup name fields
  | VStr s =>
      if Str.eqb name (js "length") then VNum (ofZ (Z.of_nat (List.length s)))
      else VUndefined
  | VArr l =>
      if Str.eqb name (js "length") then VNum (ofZ (Z.of_nat (List.length l)))
      else VUndefined
  | VError nm msg resp =>
      if Str.eqb name (js "message") then VStr msg
      else if Str.eqb name (js "name") then VStr nm
      else if Str.eqb name (js "response") then resp
      else VUndefined
  | _ => VUndefined
  end.

Definition TypeError (msg : jsstring) : jsval :=
  VError (js "TypeError") msg VUndefined.

(** [v.name]: a TypeError on [undefined] and [null]. *)
Definition getMember (v : jsval) (name : jsstring) : outcome jsval :=
  match v with
  | VUndefined | VNull =>
      Throw (TypeError (js "Cannot read properties of null or undefined"))
  | _ => Return (getProp v name)
  end.

(** [v?.name] *)
Definition optGet (v : jsval) (name : jsstring) : jsval :=
  match v with
  | VUndefined | VNull => VUndefined
  | _ => getProp v name
  end.

(** [a === b]. Two objects or arrays are equal when they are the same
    object; the values the program compares come from different sources (a
    request body, an upstream reply, a literal), so they never are. *)
Definition strictEq (a b : jsval) : bool :=
  match a, b with
  | VUndefined, VUndefined => true
  | VNull, VNull => true
  | VBool x, VBool y => Bool.eqb x y
  | VNum x, VNum y => Num.eqb x y
  | VStr x, VStr y => Str.eqb x y
  | _, _ => false
  end.

(** [typeof v === 'string'] *)
Definition isString (v : jsval) : bool :=
  match v with VStr _ => true | _ => false end.

(** ToString, which is [String(v)]; an array joins its elements with commas,
    [undefined] and [null] elements as empty strings; an error prints as
    Error.prototype.toString does. *)
Fixpoint ToString (v : jsval) : jsstring :=
  match v with
  | VUndefined => js "undefined"
  | VNull => js "null"
  | VBool b => if b then js "true" else js "false"
  | VNum x => NumberToString x
  | VStr s => s
  | VArr l =>
      join [44]
        ((fix elems (l : list jsval) : list jsstring :=
            match l with
            | [] => []
            | e :: l' =>
                match e with
                | VUndefined | VNull => []
                | _ => ToString e
                end :: elems l'
            end) l)
  | VObj _ => js "[object Object]"
  | VError nm msg _ =>
      if negb (nonEmpty msg) then nm
      else if negb (nonEmpty nm) then msg
      else nm ++ js ": " ++ msg
  end.

(** ToNumber, which is [Number(v)]; objects and arrays go through their
    string. *)
Definition ToNumber (v : jsval) : number :=
  match v with
  | VUndefined => NaN
  | VNull => Fin 0
  | VBool b => if b then one else Fin 0
  | VNum x => x
  | VStr s => StringToNumber s
  | VArr _ | VObj _ | VError _ _ _ => StringToNumber (ToString v)
  end.

(** [v > 0] *)
Definition gtZero (v : jsval) : bool := Num.ltb zero (ToNumber v).

(** *** JSON.parse *)

Definition isJsonWs (c : Z) : bool :=
  (c =? 32) || (c =? 9) || (c =? 10) || (c =? 13).

Definition hexVal (c : Z) : option Z :=
  if isRadixDigit 16 c then Some (digitVal c) else None.

(** The characters of a JSON string after its opening quote, escapes decoded,
    and what follows the closing quote. *)
Fixpoint parseJsonString (s acc : jsstring) : option (jsstring * jsstring) :=
  match s with
  | [] => None
  | c :: r =>
      if c =? 34 then Some (rev acc, r)
      else if c <? 32 then None
      else if c =? 92 then
        match r with
        | e :: r1 =>
            if e =? 117 then
              match r1 with
              | h1 :: h2 :: h3 :: h4 :: r2 =>
                  match hexVal h1, hexVal h2, hexVal h3, hexVal h4 with
                  | Some a, Some b, Some c', Some d =>
                      parseJsonString r2 ((((a * 16 + b) * 16 + c') * 16 + d) :: acc)
                  | _, _, _, _ => None
                  end
              | _ => None
              end
            else
              let simple (u : Z) := parseJsonString r1 (u :: acc) in
              if e =? 34 then simple 34
              else if e =? 92 then simple 92
              else if e =? 47 then simple 47
              else if e =? 98 then simple 8
              else if e =? 102 then simple 12
              else if e =? 110 then simple 10
              else if e =? 114 then simple 13
              else if e =? 116 then simple 9
              else None
        | [] => None
        end
      else parseJsonString r (c :: acc)
  end.

(** A JSON number at the head of [s]: its value and the rest. *)
Definition parseJsonNumber (s : jsstring) : option (number * jsstring) :=
  let '(sg, s1) :=
    match s with
    | c :: r => if c =? 45 then (true, r) else (false, s)
    | [] => (false, s)
    end in
  let ip := takeWhile isDigit s1 in
  let r1 := dropWhile isDigit s1 in
  let intOk :=
    match ip with
    | [] => false
    | [_] => true
    | d :: _ => negb (d =? 48)
    end in
  let '(fp, r2, fracOk) :=
    match r1 with
    | c :: r =>
        if c =? 46
        then (takeWhile isDigit r, dropWhile isDigit r, nonEmpty (takeWhile isDigit r))
        else ([], r1, true)
    | [] => ([], r1, true)
    end in
  let '(e, r3, expOk) :=
    match r2 with
    | c :: r =>
        if (c =? 101) || (c =? 69) then
          let '(esg, r') :=
            match r with
            | d :: r'' =>
                if d =? 43 then (false, r'')
                else if d =? 45 then (true, r'')
                else (false, r)
            | [] => (false, r)
            end in
          let ed := takeWhile isDigit r' in
          ((if esg then - valueOf 10 ed else valueOf 10 ed),
           dropWhile isDigit r', nonEmpty ed)
        else (0, r2, true)
    | [] => (0, r2, true)
    end in
  if intOk && fracOk && expOk
  then Some (decValue sg (valueOf 10 (ip ++ fp)) (e - Z.of_nat (List.length fp)), r3)
  else None.

(** [fields] with the property [k] set to [v]: a repeated key keeps its place
    and takes the last value. *)
Fixpoint setField (k : jsstring) (v : jsval) (fields : list (jsstring * jsval))
  : list (jsstring * jsval) :=
  match fields with
  | [] => [(k, v)]
  | (k', v') :: rest =>
      if Str.eqb k' k then (k', v) :: rest else (k', v') :: setField k v rest
  end.

Definition startsWith (p s : jsstring) : option jsstring :=
  if Str.eqb (firstn (List.length p) s) p then Some (skipn (List.length p) s) else None.

(** A JSON value at the head of [s] (after white space) and the rest. *)
Fixpoint parseJsonValue (fuel : nat) (s : jsstring) : option (jsval * jsstring) :=
  match fuel with
  | O => None
  | S f =>
      match dropWhile isJsonWs s with
      | [] => None
      | c :: r =>
          if c =? 91 then
            match dropWhile isJsonWs r with
            | d :: r' =>
                if d =? 93 then Some (VArr [], r')
                else parseJsonElements f (d :: r') []
            | [] => None
            end
          else if c =? 123 then
            match dropWhile isJsonWs r with
            | d :: r' =>
                if d =? 125 then Some (VObj [], r')
                else parseJsonMembers f (d :: r') []
            | [] => None
            end
          else if c =? 34 then
            match parseJsonString r [] with
            | Some (str, r') => Some (VStr str, r')
            | None => None
            end
          else if (c =? 45) || isDigit c then
            match parseJsonNumber (c :: r) with
            | Some (x, r') => Some (VNum x, r')
            | None => None
            end
          else
            match startsWith (js "null") (c :: r),
                  startsWith (js "true") (c :: r),
                  startsWith (js "false") (c :: r) with
            | Some r', _, _ => Some (VNull, r')
            | _, Some r', _ => Some (VBool true, r')
            | _, _, Some r' => Some (VBool false, r')
            | _, _, _ => None
            end
      end
  end

with parseJsonElements (fuel : nat) (s : jsstring) (acc : list jsval)
  : option (jsval * jsstring) :=
  match fuel with
  | O => None
  | S f =>
      match parseJsonValue f s with
      | Some (v, r) =>
          match dropWhile isJsonWs r with
          | c :: r' =>
              if c =? 44 then parseJsonElements f r' (v :: acc)
              else if c =? 93 then Some (VArr (rev (v :: acc)), r')
              else None
          | [] => None
          end
      | None => None
      end
  end

with parseJsonMembers (fuel : nat) (s : jsstring) (acc : list (jsstring * jsval))
  : option (jsval * jsstring) :=
  match fuel with
  | O => None
  | S f =>
      match dropWhile isJsonWs s with
      | q :: r0 =>
          if q =? 34 then
            match parseJsonString r0 [] with
            | Some (k, r1) =>
                match dropWhile isJsonWs r1 with
                | c :: r2 =>
                    if c =? 58 then
                      match parseJsonValue f r2 with
                      | Some (v, r3) =>
                          match dropWhile isJsonWs r3 with
                          | d :: r4 =>
                              if d =? 44 then parseJsonMembers f r4 (setField k v acc)
                              else if d =? 125 then Some (VObj (setField k v acc), r4)
                              else None
                          | [] => None
                          end
                      | None => None
                      end
                    else None
                | [] => None
                end
            | None => None
            end
          else None
      | [] => None
      end
  end.

(** [JSON.parse(s)]: [None] stands for the SyntaxError it throws. *)
Definition JSON_parse (s : jsstring) : option jsval :=
  match parseJsonValue (2 * List.length s + 2) s with
  | Some (v, r) =>
      match dropWhile isJsonWs r with
      | [] => Some v
      | _ => None
      end
  | None => None
  end.

(* ------------------------------------------------------------------------- *)
(** ** The program: configuration and the reward pool parser *)

(** [out.add(x)] on a [Set] of Numbers, kept as the list of its elements in
    insertion order: keys are compared with SameValueZero and [-0] is stored
    as [+0]. *)
Definition setAdd (x : number) (out : list number) : list number :=
  if existsb (sameValueZero x) out then out
  else out ++ [match x with NegZero => Fin 0 | _ => x end].

(** [arr.sort(cmp)] as a stable insertion sort: [x] goes before [y] unless
    [cmp(x, y) > 0]. With a consistent comparator every sorting algorithm
    gives this result. *)
Fixpoint insertBy (cmp : number -> number -> number) (x : number)
  (l : list number) : list number :=
  match l with
  | [] => [x]
  | y :: l' =>
      if Num.ltb zero (cmp x y) then y :: insertBy cmp x l' else x :: l
  end.

Definition sortBy (cmp : number -> number -> number) (l : list number)
  : list number :=
  fold_right (insertBy cmp) [] l.

(** [t.match(/^(\d+)\s*-\s*(\d+)$/)]: the two groups. The three classes of
    the pattern are disjoint, so the greedy scan is the only way to match. *)
Definition matchRange (t : jsstring) : option (jsstring * jsstring) :=
  let m1 := takeWhile isDigit t in
  match dropWhile isWhiteSpace (dropWhile isDigit t) with
  | c :: r =>
      if c =? 45 then
        let r' := dropWhile isWhiteSpace r in
        let m2 := takeWhile isDigit r' in
        if nonEmpty m1 && nonEmpty m2 && negb (nonEmpty (dropWhile isDigit r'))
        then Some (m1, m2)
        else None
      else None
  | [] => None
  end.

(** [for (let x = a; x <= b; x++) out.add(x)]. The counter is a double:
    [x++] stops advancing at [2^53], so the loop need not end; [fuel] bounds
    the iterations and [None] is a loop that has not ended within it. *)
Fixpoint rangeLoop (fuel : nat) (x b : number) (out : list number)
  : option (list number) :=
  if Num.leb x b then
    match fuel with
    | O => None
    | S f => rangeLoop f (add x one) b (setAdd x out)
    end
  else Some out.

(** The body of the loop over the chunks. *)
Definition parseChunk (fuel : nat) (out : list number) (chunk : jsstring)
  : option (list number) :=
  let t := trim chunk in
  if negb (nonEmpty t) then Some out
  else
    match matchRange t with
    | Some (m1, m2) =>
        let a := StringToNumber m1 in
        let b := StringToNumber m2 in
        if isFinite a && isFinite b && Num.leb a b
        then rangeLoop fuel a b out
        else Some out
    | None =>
        let n := StringToNumber t in
        if isFinite n then Some (setAdd n out) else Some out
    end.

Fixpoint parseChunks (fuel : nat) (out : list number) (chunks : list jsstring)
  : option (list number) :=
  match chunks with
  | [] => Some out
  | c :: cs =>
      match parseChunk fuel out c with
      | Some out' => parseChunks fuel out' cs
      | None => None
      end
  end.

Definition isSeparator (c : Z) : bool := (c =? 59) || (c =? 44).

(** [parseDropKeys(s)] on a string ([String(s || '')] is then [s] itself). *)
Definition parseDropKeys (fuel : nat) (s : jsstring) : option (list number) :=
  match parseChunks fuel [] (splitOn isSeparator s) with
  | Some out => Some (sortBy sub out)
  | None => None
  end.

(** [keys.join(',')]: the parser's output written back as a list. *)
Definition joinKeys (keys : list number) : jsstring :=
  join [44] (map NumberToString keys).

(** The process-wide constants, read once at startup. *)
Record config : Type := {
  APPID : number;
  PUBLISHER_KEY : option jsstring;
  DROP_KEYS : list number;
  ENABLE_LIMITER : bool
}.

(** The environment variables the program reads ([None]: not set). *)
Record environment : Type := {
  env_APPID : option jsstring;
  env_PUBLISHER_KEY : option jsstring;
  env_DROP_KEYS : option jsstring;
  env_ENABLE_LIMITER : option jsstring
}.

Definition envVal (v : option jsstring) : jsval :=
  match v with Some s => VStr s | None => VUndefined end.

Definition toLowerAscii (s : jsstring) : jsstring :=
  map (fun c => if (65 <=? c) && (c <=? 90) then c + 32 else c) s.

Definition loadConfig (fuel : nat) (e : environment) : option config :=
  match parseDropKeys fuel (ToString (jsOr (envVal (env_DROP_KEYS e)) (VStr []))) with
  | Some keys =>
      Some {| APPID := ToNumber (envVal (env_APPID e));
              PUBLISHER_KEY := env_PUBLISHER_KEY e;
              DROP_KEYS := keys;
              ENABLE_LIMITER :=
                Str.eqb (toLowerAscii
                           (ToString (jsOr (envVal (env_ENABLE_LIMITER e))
                                        (VStr (js "false")))))
                  (js "true") |}
  | None => None
  end.

(** [PUBLISHER_KEY] as a value. *)
Definition keyVal (cfg : config) : jsval := envVal (PUBLISHER_KEY cfg).

(** [arr[i]] for a Number [i]. *)
Definition element (arr : list number) (i : number) : jsval :=
  match toIndex i with
  | Some n => match nth_error arr n with Some x => VNum x | None => VUndefined end
  | None => VUndefined
  end.

(** [pickRandom(arr)], with [r] the value [Math.random()] returns. *)
Definition pickRandom (r : number) (arr : list number) : jsval :=
  element arr (floor (mul r (ofZ (Z.of_nat (List.length arr))))).

(* ------------------------------------------------------------------------- *)
(** ** The program: upstream calls *)

(** An outbound HTTP request: [axios.get(url, { params })] or
    [axios.post(url, form)]. *)
Inductive call : Type :=
  | HttpGet (url : jsstring) (params : list (jsstring * jsval))
  | HttpPost (url : jsstring) (form : list (jsstring * jsstring)).

(** What is outside the process: how the upstream services answer a request
    ([Return data] for a reply whose body is [data], [Throw e] for the error
    axios rejects with) and what [Math.random()] returns. *)
Record world : Type := {
  http : call -> outcome jsval;
  random : number
}.

(** A computation that may throw and that records its outbound requests. *)
Definition M (A : Type) : Type := list call -> outcome A * list call.

Definition ret {A} (a : A) : M A := fun tr => (Return a, tr).
Definition throw {A} (e : jsval) : M A := fun tr => (Throw e, tr).
Definition bind {A B} (m : M A) (k : A -> M B) : M B :=
  fun tr =>
    match m tr with
    | (Return a, tr') => k a tr'
    | (Throw e, tr') => (Throw e, tr')
    end.
Definition lift {A} (o : outcome A) : M A := fun tr => (o, tr).

Notation "x <- m ;; k" := (bind m (fun x => k))
  (at level 61, m at next level, right associativity).

(** [await axios.get(...)] or [await axios.post(...)], then [.data]. *)
Definition axios (w : world) (c : call) : M jsval :=
  fun tr => (http w c, tr ++ [c]).

Definition AUTH_URL : jsstring :=
  js "https://partner.steam-api.com/ISteamUserAuth/AuthenticateUserTicket/v1/".
Definition GRANT_URL : jsstring :=
  js "https://partner.steam-api.com/IInventoryService/AddItem/v1/".

(** [verifyTicket({ appid, ticket, steamid })] *)
Definition verifyTicket (w : world) (cfg : config) (appid ticket steamid : jsval)
  : M jsval :=
  let params := [(js "key", keyVal cfg); (js "appid", appid); (js "ticket", ticket)] in
  data <- axios w (HttpGet AUTH_URL params) ;;
  let ps := optGet (optGet data (js "response")) (js "params") in
  let ok := strictEq (optGet ps (js "result")) (VStr (js "OK")) in
  let authedSteamId := optGet ps (js "steamid") in
  ret (if ok && (negb (truthy steamid) || strictEq steamid authedSteamId)
       then VObj [(js "ok", VBool true); (js "steamid", authedSteamId)]
       else VObj [(js "ok", VBool false);
                  (js "reason",
                   VStr (if ok then js "steamid_mismatch" else js "auth_failed"));
                  (js "raw", data)]).

(** [grantItem({ appid, steamid, itemdefid, quantity })] *)
Definition grantItem (w : world) (cfg : config)
  (appid steamid itemdefid quantity : jsval) : M jsval :=
  let form := [(js "key", ToString (keyVal cfg));
               (js "appid", ToString appid);
               (js "steamid", ToString steamid);
               (js "itemdefid[0]", ToString itemdefid);
               (js "quantity[0]", ToString quantity)] in
  data <- axios w (HttpPost GRANT_URL form) ;;
  let resp := jsOr (optGet data (js "response")) (VObj []) in
  let ok := strictEq (getProp resp (js "result")) (VNum one)
            || strictEq (getProp resp (js "success")) (VBool true) in
  match getProp resp (js "item_json") with
  | VStr item_json =>
      let items :=
        match JSON_parse item_json with
        | Some v => v
        | None => VArr []
        end in
      len <- lift (getMember items (js "length")) ;;
      ret (VObj [(js "ok", VBool (if gtZero len then true else ok));
                 (js "items", items); (js "raw", data)])
  | _ =>
      ret (VObj [(js "ok", VBool ok); (js "items", VArr []); (js "raw", data)])
  end.

(* ------------------------------------------------------------------------- *)
(** ** The program: routes *)

Record response : Type := {
  status : Z;
  body : jsval
}.

(** [res.status(code).json(value)] *)
Definition json (code : Z) (value : jsval) : response :=
  {| status := code; body := value |}.

Definition errorBody (tag : jsstring) : jsval := VObj [(js "error", VStr tag)].

(** [try { ... } catch (e) { ... }] around a route's body. *)
Definition tryCatch (body : M response) (handler : jsval -> response)
  : list call -> response * list call :=
  fun tr =>
    match body tr with
    | (Return r, tr') => (r, tr')
    | (Throw e, tr') => (handler e, tr')
    end.

(** [const { a, b } = v] reads properties of [v]: a TypeError on [undefined]
    and [null]. *)
Definition destructure (v : jsval) : M jsval :=
  match v with
  | VUndefined | VNull =>
      throw (TypeError (js "Cannot destructure 'req.body' as it is undefined."))
  | _ => ret v
  end.

(** [e?.response?.status || e?.message] *)
Definition errorDetails (e : jsval) : jsval :=
  jsOr (optGet (optGet e (js "response")) (js "status")) (optGet e (js "message")).

Definition serverError (details : jsval) : response :=
  json 500 (VObj [(js "error", VStr (js "server_error")); (js "details", details)]).

(** The horizontal ellipsis, U+2026. *)
Definition ELLIPSIS : Z := 8230.

(** [GET /health] *)
Definition health (cfg : config) : response :=
  json 200
    (VObj [(js "ok", VBool true);
           (js "appid", VNum (APPID cfg));
           (js "drop_keys", VArr (map VNum (DROP_KEYS cfg)));
           (js "has_key", VBool (truthy (keyVal cfg)));
           (js "key_prefix",
            match PUBLISHER_KEY cfg with
            | Some k => if truthy (VStr k) then VStr (firstn 6 k ++ [ELLIPSIS]) else VNull
            | None => VNull
            end);
           (js "limiter_enabled", VBool (ENABLE_LIMITER cfg))]).

Definition verifyOnlyBody (w : world) (cfg : config) (reqBody : jsval) : M response :=
  b <- destructure reqBody ;;
  let appid := match getProp b (js "appid") with
               | VUndefined => VNum (APPID cfg)
               | v => v
               end in
  let steamid := getProp b (js "steamid") in
  let ticket := getProp b (js "ticket") in
  if negb (truthy appid) || negb (truthy steamid) || negb (truthy ticket)
  then ret (json 400 (errorBody (js "missing_fields")))
  else
    v <- verifyTicket w cfg (VNum (ToNumber appid)) ticket steamid ;;
    if negb (truthy (getProp v (js "ok")))
    then ret (json 401 (VObj [(js "ok", VBool false);
                              (js "reason", getProp v (js "reason"));
                              (js "raw", getProp v (js "raw"))]))
    else ret (json 200 (VObj [(js "ok", VBool true);
                              (js "steamid", getProp v (js "steamid"))])).

(** [POST /verify-only] *)
Definition verifyOnly (w : world) (cfg : config) (reqBody : jsval)
  : response * list call :=
  tryCatch (verifyOnlyBody w cfg reqBody) (fun e => serverError (errorDetails e)) [].

Definition grantOnlyBody (w : world) (cfg : config) (reqBody : jsval) : M response :=
  b <- destructure reqBody ;;
  let steamid := getProp b (js "steamid") in
  let itemdefid := getProp b (js "itemdefid") in
  if negb (truthy steamid) || negb (truthy itemdefid)
  then ret (json 400 (errorBody (js "missing_fields")))
  else if negb (truthy (keyVal cfg))
  then ret (json 500 (errorBody (js "missing_publisher_key")))
  else
    g <- grantItem w cfg (VNum (APPID cfg)) steamid (VNum (ToNumber itemdefid))
           (VNum one) ;;
    if negb (truthy (getProp g (js "ok")))
    then ret (json 502 (VObj [(js "ok", VBool false);
                              (js "reason", VStr (js "grant_failed"));
                              (js "raw", getProp g (js "raw"))]))
    else ret (json 200 (VObj [(js "ok", VBool true);
                              (js "granted", getProp g (js "items"));
                              (js "raw", getProp g (js "raw"))])).

(** [POST /grant-only] *)
Definition grantOnly (w : world) (cfg : config) (reqBody : jsval)
  : response * list call :=
  tryCatch (grantOnlyBody w cfg reqBody) (fun e => serverError (errorDetails e)) [].

(** [limiter.consume(steamid)]: the no-op limiter. *)
Definition limiterConsume (steamid : jsval) : M unit := ret tt.

Definition openChestBody (w : world) (cfg : config) (reqBody : jsval) : M response :=
  b <- destructure reqBody ;;
  let appid := getProp b (js "appid") in
  let steamid := getProp b (js "steamid") in
  let ticket := getProp b (js "ticket") in
  if negb (truthy appid) || negb (truthy steamid) || negb (truthy ticket)
  then ret (json 400 (errorBody (js "missing_fields")))
  else if negb (truthy (keyVal cfg))
  then ret (json 500 (errorBody (js "missing_publisher_key")))
  else if (List.length (DROP_KEYS cfg) =? 0)%nat
  then ret (json 500 (errorBody (js "server_not_configured")))
  else
    _ <- limiterConsume steamid ;;
    v <- verifyTicket w cfg (VNum (ToNumber appid)) ticket steamid ;;
    if negb (truthy (getProp v (js "ok")))
    then ret (json 401 (VObj [(js "error",
                               jsOr (getProp v (js "reason")) (VStr (js "auth_failed")));
                              (js "raw", getProp v (js "raw"))]))
    else
      let keyDefId := pickRandom (random w) (DROP_KEYS cfg) in
      g <- grantItem w cfg (VNum (APPID cfg)) steamid keyDefId (VNum one) ;;
      if negb (truthy (getProp g (js "ok")))
      then ret (json 502 (VObj [(js "error", VStr (js "grant_failed"));
                                (js "raw", getProp g (js "raw"))]))
      else ret (json 200 (VObj [(js "ok", VBool true);
                                (js "itemdefid", keyDefId);
                                (js "grant", getProp g (js "raw"))])).

(** [POST /open-chest] *)
Definition openChest (w : world) (cfg : config) (reqBody : jsval)
  : response * list call :=
  tryCatch (openChestBody w cfg reqBody)
    (fun e => serverError (jsOr (errorDetails e) (VStr (ToString e)))) [].

(* ------------------------------------------------------------------------- *)
(** ** The program: startup *)

(** [PORT], from the variable of that name ([None]: not set). *)
Definition PORT (port : option jsstring) : jsval :=
  jsOr (envVal port) (VNum (ofZ 8080)).

(** The lines the callback of [app.listen] logs. A template literal converts
    each value with ToString; [join] does the same with the keys. *)
Definition startupLog (port : option jsstring) (cfg : config) : list jsstring :=
  [js "server listening on :" ++ ToString (PORT port);
   js "APPID=" ++ ToString (VNum (APPID cfg));
   js "DROP_KEYS=[" ++ join (js ", ") (map NumberToString (DROP_KEYS cfg)) ++ js "]";
   js "PUBLISHER_KEY set: " ++ ToString (VBool (truthy (keyVal cfg)));
   js "Limiter enabled: " ++ ToString (VBool (ENABLE_LIMITER cfg))
     ++ js " (currently disabled by default)"].

(* ------------------------------------------------------------------------- *)
(** * Vocabulary of the statements *)

(** ** Decimal literals *)

(** The exponent part of a literal: none, or [e], a sign and digits. *)
Definition expStr (ex : option Z) : jsstring :=
  match ex with
  | None => []
  | Some e => 101 :: (if e <? 0 then 45 else 43) :: digits (Z.abs e)
  end.

Definition exVal (ex : option Z) : Z :=
  match ex with None => 0 | Some e => e end.

(** The fraction part of a literal: none, or a point and digits. *)
Definition fracStr (fr : option jsstring) : jsstring :=
  match fr with None => [] | Some fp => 46 :: fp end.

Definition fracDigits (fr : option jsstring) : jsstring :=
  match fr with None => [] | Some fp => fp end.

Abbreviation allDigits l := (Forall (fun c => isDigit c = true) l).

(** The characters Number::toString writes for a finite Number. *)
Definition okChar (c : Z) : bool :=
  isDigit c || (c =? 46) || (c =? 45) || (c =? 43) || (c =? 101).

Abbreviation allOk l := (Forall (fun c => okChar c = true) l).

(** ** Doubles *)

(** The sign a rounded value carries. *)
Definition hasSign (neg : bool) (x : number) : Prop :=
  match x with
  | NaN => False
  | PosInf => neg = false
  | NegInf => neg = true
  | NegZero => neg = true
  | Fin k => if neg then k < 0 else 0 <= k
  end.

(** The gap below 1: doubles in [[1/2, 1)] are [2^-53] apart, which is
    [2^1021] in units of [2^-1074]. *)
Definition GAP : Z := 2 ^ 1021.

(** What [Math.random()] returns: a double in [[0, 1)]. *)
Definition isRandom (r : number) : Prop :=
  exists k, r = Fin k /\ 0 <= k < SCALE /\ isDouble (Fin k) = true.

(** The value order on finite Numbers. *)
Definition below (x y : number) : Prop := toZ x < toZ y.

(** ** Keys and tokens *)

(** A key of the pool: a finite double, [-0] excluded. *)
Definition isKey (x : number) : Prop :=
  exists k, x = Fin k /\ isDouble (Fin k) = true.

(** The counter of a range loop: a non-negative double, or [+Infinity] once
    the additions overflow. *)
Definition isCounter (x : number) : Prop :=
  isDouble x = true /\ hasSign false x.

(** No element is placed after one it must precede. *)
Fixpoint sortedBy (cmp : number -> number -> number) (l : list number) : Prop :=
  match l with
  | x :: (y :: _) as l' => Num.ltb zero (cmp x y) = false /\ sortedBy cmp l'
  | _ => True
  end.

(** A Number that is a non-negative integer. *)
Definition isNonNegInteger (x : number) : bool :=
  match x with
  | Fin k => (0 <=? k) && (k mod SCALE =? 0)
  | _ => false
  end.

(** A token made of decimal digits only. *)
Definition isBareInteger (t : jsstring) : bool := nonEmpty t && forallb isDigit t.

(** The token is a range [a-b] with [a <= b], both finite. *)
Definition isValidRange (t : jsstring) : bool :=
  match matchRange t with
  | Some (m1, m2) =>
      isFinite (StringToNumber m1) && isFinite (StringToNumber m2)
      && Num.leb (StringToNumber m1) (StringToNumber m2)
  | None => false
  end.

(** The token is no range, and [Number] makes a finite Number of it. *)
Definition isFiniteNumber (t : jsstring) : bool :=
  match matchRange t with
  | Some _ => false
  | None => isFinite (StringToNumber t)
  end.

(** The integer bounds of the range a chunk denotes, when it is one. *)
Definition rangeBounds (chunk : jsstring) : option (Z * Z) :=
  match matchRange (trim chunk) with
  | Some (m1, m2) => Some (valueOf 10 m1, valueOf 10 m2)
  | None => None
  end.

(** A chunk whose range, if it is one, lies below [2^53] and has at most
    [fuel] elements. *)
Definition withinFuel (fuel : nat) (chunk : jsstring) : Prop :=
  match rangeBounds chunk with
  | Some (a, b) => a < 2 ^ 53 /\ b < 2 ^ 53 /\ b + 1 - a <= Z.of_nat fuel
  | None => True
  end.

(** ** Upstream requests and replies *)

(** The request [verifyTicket] sends. *)
Definition verifyCall (cfg : config) (appid ticket : jsval) : call :=
  HttpGet AUTH_URL [(js "key", keyVal cfg); (js "appid", appid); (js "ticket", ticket)].

(** [data?.response?.params?.result] *)
Definition authResult (data : jsval) : jsval :=
  optGet (optGet (optGet data (js "response")) (js "params")) (js "result").

(** [data?.response?.params?.steamid] *)
Definition authSteamId (data : jsval) : jsval :=
  optGet (optGet (optGet data (js "response")) (js "params")) (js "steamid").

(** The service reported [result: "OK"]. *)
Definition serviceOk (data : jsval) : bool := strictEq (authResult data) (VStr (js "OK")).

(** No identity was claimed, or the claimed one is the one returned. *)
Definition identityAgrees (steamid data : jsval) : bool :=
  negb (truthy steamid) || strictEq steamid (authSteamId data).

(** The request [grantItem] sends. *)
Definition grantCall (cfg : config) (appid steamid itemdefid quantity : jsval) : call :=
  HttpPost GRANT_URL
    [(js "key", ToString (keyVal cfg));
     (js "appid", ToString appid);
     (js "steamid", ToString steamid);
     (js "itemdefid[0]", ToString itemdefid);
     (js "quantity[0]", ToString quantity)].

(** [data?.response || {}] *)
Definition grantResp (data : jsval) : jsval :=
  jsOr (optGet data (js "response")) (VObj []).

(** The numeric result field is 1, or the boolean success field is true. *)
Definition flagsOk (data : jsval) : bool :=
  strictEq (getProp (grantResp data) (js "result")) (VNum one)
  || strictEq (getProp (grantResp data) (js "success")) (VBool true).

(** The items [grantItem] ends with: what [item_json] parses to when it is a
    string that parses, the empty array otherwise. *)
Definition grantItems (data : jsval) : jsval :=
  match getProp (grantResp data) (js "item_json") with
  | VStr item_json =>
      match JSON_parse item_json with
      | Some v => v
      | None => VArr []
      end
  | _ => VArr []
  end.

(** ** Routes *)

(** The three fields of an open-chest request are present. *)
Definition fieldsPresent (reqBody : jsval) : bool :=
  truthy (getProp reqBody (js "appid"))
  && truthy (getProp reqBody (js "steamid"))
  && truthy (getProp reqBody (js "ticket")).

(** [appid] after [const { appid = APPID } = req.body]. *)
Definition verifyOnlyAppid (cfg : config) (reqBody : jsval) : jsval :=
  match getProp reqBody (js "appid") with
  | VUndefined => VNum (APPID cfg)
  | v => v
  end.

(** The request open-chest sends to the identity service. *)
Definition chestVerifyCall (cfg : config) (reqBody : jsval) : call :=
  verifyCall cfg (VNum (ToNumber (getProp reqBody (js "appid"))))
    (getProp reqBody (js "ticket")).

(** The request open-chest sends to the inventory service. *)
Definition chestGrantCall (w : world) (cfg : config) (reqBody : jsval) : call :=
  grantCall cfg (VNum (APPID cfg)) (getProp reqBody (js "steamid"))
    (pickRandom (random w) (DROP_KEYS cfg)) (VNum one).

(** The request and the configuration pass the checks open-chest makes before
    it calls a service. *)
Definition chestChecked (cfg : config) (reqBody : jsval) : bool :=
  fieldsPresent reqBody && truthy (keyVal cfg)
  && negb (List.length (DROP_KEYS cfg) =? 0)%nat.

(** The form field of a name ([None]: not in the form). *)
Fixpoint formField (name : jsstring) (form : list (jsstring * jsstring))
  : option jsstring :=
  match form with
  | [] => None
  | (k, v) :: rest => if Str.eqb k name then Some v else formField name rest
  end.

(** The application identifier an outbound request carries: the [appid]
    parameter of a GET, as a value, or the [appid] field of a form, as the
    string it was written to. *)
Definition callAppid (c : call) : jsval :=
  match c with
  | HttpGet _ params => lookup (js "appid") params
  | HttpPost _ form =>
      match formField (js "appid") form with
      | Some s => VStr s
      | None => VUndefined
      end
  end.

Definition isGet (c : call) : bool :=
  match c with HttpGet _ _ => true | HttpPost _ _ => false end.

(** The three routes that call a service. *)
Inductive route : Type := VerifyOnly | GrantOnly | OpenChest.

(** The body of a route's [try] block. *)
Definition routeBody (r : route) : world -> config -> jsval -> M response :=
  match r with
  | VerifyOnly => verifyOnlyBody
  | GrantOnly => grantOnlyBody
  | OpenChest => openChestBody
  end.

(** The route as the server runs it. *)
Definition runRoute (r : route) : world -> config -> jsval -> response * list call :=
  match r with
  | VerifyOnly => verifyOnly
  | GrantOnly => grantOnly
  | OpenChest => openChest
  end.

(** [e?.response?.status] *)
Definition upstreamStatus (e : jsval) : jsval :=
  optGet (optGet e (js "response")) (js "status").

(** [s] starts with [p]. *)
Definition isPrefix (p s : jsstring) : bool := Str.eqb (firstn (List.length p) s) p.

(** ** Worked inputs *)

(** The example of the source's comment, and what it parses to. *)
Definition sampleKeys : jsstring := js "10001,10002;10003-10010,10050".

Definition sampleOut : list number :=
  map ofZ [10001; 10002; 10003; 10004; 10005; 10006; 10007; 10008; 10009; 10010; 10050].

Definition sampleConfig : config :=
  {| APPID := ofZ 480;
     PUBLISHER_KEY := Some (js "0123456789ABCDEF0123456789ABCDEF");
     DROP_KEYS := map ofZ [10001; 10002; 10003];
     ENABLE_LIMITER := false |}.

(** A configuration with a given publisher key and an empty pool. *)
Definition keyConfig (key : option jsstring) : config :=
  {| APPID := ofZ 480; PUBLISHER_KEY := key; DROP_KEYS := []; ENABLE_LIMITER := false |}.

Definition sampleSteamId : jsval := VStr (js "76561198000000001").

(** A request for application 570, while the server is configured for 480. *)
Definition sampleRequest : jsval :=
  VObj [(js "appid", VStr (js "570"));
        (js "steamid", sampleSteamId);
        (js "ticket", VStr (js "14000000A1B2C3"))].

(** A grant-only request. *)
Definition grantRequest : jsval :=
  VObj [(js "steamid", sampleSteamId); (js "itemdefid", VStr (js "10001"))].

(** The identity service's reply [{ response: { params: { result, steamid } } }]. *)
Definition authReply (result : jsstring) (steamid : jsval) : jsval :=
  VObj [(js "response",
         VObj [(js "params",
                VObj [(js "result", VStr result); (js "steamid", steamid)])])].

(** The inventory service's reply [{ response: fields }]. *)
Definition grantReply (fields : list (jsstring * jsval)) : jsval :=
  VObj [(js "response", VObj fields)].

(** A world in which the identity service answers [auth], the inventory
    service answers [grant] and [Math.random()] returns [r]. *)
Definition sampleWorld (auth grant : outcome jsval) (r : number) : world :=
  {| http := fun c => match c with HttpGet _ _ => auth | HttpPost _ _ => grant end;
     random := r |}.

(** One half. *)
Definition half : number := Fin (2 ^ 1073).

(** Both services answer with success; the granted items are [[1]]. *)
Definition happyWorld : world :=
  sampleWorld (Return (authReply (js "OK") sampleSteamId))
    (Return (grantReply [(js "item_json", VStr (js "[1]"))])) half.

(** The inventory service answers with both success fields set and an
    [item_json] that parses to [null]. *)
Definition nullItemsWorld : world :=
  sampleWorld (Return (authReply (js "OK") sampleSteamId))
    (Return (grantReply [(js "result", VNum one); (js "success", VBool true);
                         (js "item_json", VStr (js "null"))])) half.

(** The identity service is down: axios rejects with a 503. *)
Definition outage : jsval :=
  VError (js "AxiosError") (js "Request failed with status code 503")
    (VObj [(js "status", VNum (ofZ 503))]).

(** ** Routes, reply by reply *)

(** [v] is [undefined] or [null]. *)
Definition isNullish (v : jsval) : bool :=
  match v with VUndefined | VNull => true | _ => false end.

(** The [ok] that [grantItem] ends with. *)
Definition grantOk (data : jsval) : bool :=
  flagsOk data
  || isString (getProp (grantResp data) (js "item_json"))
     && gtZero (getProp (grantItems data) (js "length")).

(** The TypeError of [items.length] on [null]. *)
Definition lengthOfNull : jsval :=
  TypeError (js "Cannot read properties of null or undefined").

(** What the catch clause of open-chest answers. *)
Definition chestServerError (e : jsval) : response :=
  serverError (jsOr (errorDetails e) (VStr (ToString e))).

(** The request grant-only sends. *)
Definition grantOnlyCall (cfg : config) (reqBody : jsval) : call :=
  grantCall cfg (VNum (APPID cfg)) (getProp reqBody (js "steamid"))
    (VNum (ToNumber (getProp reqBody (js "itemdefid")))) (VNum one).

(** The request and the configuration pass the checks of grant-only. *)
Definition grantOnlyReady (cfg : config) (reqBody : jsval) : bool :=
  truthy (getProp reqBody (js "steamid"))
  && truthy (getProp reqBody (js "itemdefid"))
  && truthy (keyVal cfg).

(** The request verify-only sends. *)
Definition verifyOnlyCall (cfg : config) (reqBody : jsval) : call :=
  verifyCall cfg (VNum (ToNumber (verifyOnlyAppid cfg reqBody)))
    (getProp reqBody (js "ticket")).

(** The request passes the check of verify-only. *)
Definition verifyOnlyReady (cfg : config) (reqBody : jsval) : bool :=
  truthy (verifyOnlyAppid cfg reqBody)
  && truthy (getProp reqBody (js "steamid"))
  && truthy (getProp reqBody (js "ticket")).

(** The configuration with another limiter flag. *)
Definition withLimiter (flag : bool) (cfg : config) : config :=
  {| APPID := APPID cfg; PUBLISHER_KEY := PUBLISHER_KEY cfg;
     DROP_KEYS := DROP_KEYS cfg; ENABLE_LIMITER := flag |}.

(** ** The pool as a set of values *)

(** A Number as a [Set] stores it: [-0] as [+0]. *)
Definition stored (x : number) : number :=
  match x with NegZero => Fin 0 | _ => x end.

(** [out] after the Numbers [vs] were added to it, in order. *)
Definition addAll (out vs : list number) : list number :=
  fold_left (fun o v => setAdd v o) vs out.

(** What a range loop adds: the values its counter takes. *)
Fixpoint rangeValues (fuel : nat) (x b : number) : option (list number) :=
  if Num.leb x b then
    match fuel with
    | O => None
    | S f => option_map (cons x) (rangeValues f (add x one) b)
    end
  else Some [].

(** What the body of the loop adds for a chunk. *)
Definition chunkValues (fuel : nat) (chunk : jsstring) : option (list number) :=
  let t := trim chunk in
  if negb (nonEmpty t) then Some []
  else
    match matchRange t with
    | Some (m1, m2) =>
        let a := StringToNumber m1 in
        let b := StringToNumber m2 in
        if isFinite a && isFinite b && Num.leb a b
        then rangeValues fuel a b
        else Some []
    | None =>
        let n := StringToNumber t in
        if isFinite n then Some [n] else Some []
    end.

(** What the loop over the chunks adds. *)
Fixpoint allValues (fuel : nat) (chunks : list jsstring) : option (list number) :=
  match chunks with
  | [] => Some []
  | c :: cs =>
      match chunkValues fuel c with
      | Some v => option_map (app v) (allValues fuel cs)
      | None => None
      end
  end.

(** A finite double. *)
Definition isValue (v : number) : Prop := isFinite v = true /\ isDouble v = true.

(** The integers [a], [a + 1], ... ([n] of them) as Numbers. *)
Definition countFrom (a : Z) (n : nat) : list number :=
  map (fun i => ofZ (a + Z.of_nat i)) (seq 0 n).

(** A character that is a separator or white space. *)
Definition isBlank (c : Z) : bool := isSeparator c || isWhiteSpace c.

(** ** The input of the parser *)

(** The string the parser is given at startup:
    [String(process.env.DROP_KEYS || '')]. *)
Definition dropKeysInput (e : environment) : jsstring :=
  ToString (jsOr (envVal (env_DROP_KEYS e)) (VStr [])).

(** ** Draws and answers *)

(** A draw that selects the index [i] of an array of [len] elements: the
    least multiple of [2^-53] that is at least [i / len]. *)
Definition drawFor (len i : Z) : number :=
  Fin ((i * 2 ^ 53 + len - 1) / len * GAP).

(** The statuses a route answers with. *)
Definition routeStatuses (r : route) : list Z :=
  match r with
  | VerifyOnly => [200; 400; 401; 500]
  | GrantOnly => [200; 400; 500; 502]
  | OpenChest => [200; 400; 401; 500; 502]
  end.

(** The number of requests a route sends at most. *)
Definition routeCalls (r : route) : nat :=
  match r with
  | VerifyOnly | GrantOnly => 1
  | OpenChest => 2
  end.

(** ** Further worked inputs *)

(** The identity service rejects the ticket. *)
Definition rejectedReply : jsval := authReply (js "Invalid ticket") VUndefined.

(** A world in which the identity service rejects the ticket and the
    inventory service is not reached. *)
Definition rejectingWorld : world :=
  sampleWorld (Return rejectedReply) (Throw VUndefined) half.

(** What the inventory service answers in [happyWorld]. *)
Definition itemReply : jsval := grantReply [(js "item_json", VStr (js "[1]"))].

(** A request that names no application. *)
Definition bareRequest : jsval :=
  VObj [(js "steamid", sampleSteamId); (js "ticket", VStr (js "14000000A1B2C3"))].

(** The configuration of a server started without [APPID]. *)
Definition unsetAppidConfig : config :=
  {| APPID := NaN;
     PUBLISHER_KEY := Some (js "0123456789ABCDEF0123456789ABCDEF");
     DROP_KEYS := [];
     ENABLE_LIMITER := false |}.

(** An environment with one key in the pool. *)
Definition smallEnv : environment :=
  {| env_APPID := Some (js "480");
     env_PUBLISHER_KEY := Some (js "0123456789ABCDEF0123456789ABCDEF");
     env_DROP_KEYS := Some (js "7");
     env_ENABLE_LIMITER := None |}.

(** The configuration loaded from [smallEnv]. *)
Definition smallConfig : config :=
  {| APPID := ofZ 480;
     PUBLISHER_KEY := Some (js "0123456789ABCDEF0123456789ABCDEF");
     DROP_KEYS := [ofZ 7];
     ENABLE_LIMITER := false |}.

(** An environment that does not set [DROP_KEYS]. *)
Definition noKeysEnv : environment :=
  {| env_APPID := Some (js "480");
     env_PUBLISHER_KEY := Some (js "0123456789ABCDEF0123456789ABCDEF");
     env_DROP_KEYS := None;
     env_ENABLE_LIMITER := None |}.

(** ** The startup log *)

(** The configuration with another publisher key. *)
Definition withKey (key : option jsstring) (cfg : config) : config :=
  {| APPID := APPID cfg; PUBLISHER_KEY := key;
     DROP_KEYS := DROP_KEYS cfg; ENABLE_LIMITER := ENABLE_LIMITER cfg |}.

(** The keys as the startup log prints them: [keys.join(', ')]. *)
Definition loggedKeys (keys : list number) : jsstring :=
  join (js ", ") (map NumberToString keys).

(* ------------------------------------------------------------------------- *)
(** * Proofs *)

(** ** Rounding *)

Lemma rnd_div_floor p q : p / q <= rnd_div p q <= p / q + 1.
Proof.
  unfold rnd_div. destruct (2 * (p mod q) ?= q); try lia.
  destruct (Z.even (p / q)); lia.
Qed.

Lemma rnd_div_nonneg p q : 0 <= p -> 0 < q -> 0 <= rnd_div p q.
Proof.
  intros Hp Hq. pose proof (rnd_div_floor p q).
  pose proof (Z.div_pos p q Hp Hq). lia.
Qed.

Lemma rnd_div_exact a q : 0 < q -> rnd_div (a * q) q = a.
Proof.
  intros Hq. unfold rnd_div.
  rewrite Z.mod_mul, Z.div_mul by lia.
  change (2 * 0) with 0.
  destruct (Z.compare_spec 0 q); lia.
Qed.

Lemma rnd_div_scale c p q :
  0 < c -> 0 < q -> rnd_div (c * p) (c * q) = rnd_div p q.
Proof.
  intros Hc Hq. unfold rnd_div.
  rewrite Z.div_mul_cancel_l, Z.mul_mod_distr_l by lia.
  assert (E : (2 * (c * (p mod q)) ?= c * q) = (2 * (p mod q) ?= q)).
  { destruct (Z.compare_spec (2 * (p mod q)) q) as [H|H|H].
    - apply Z.compare_eq_iff. nia.
    - apply Z.compare_lt_iff. nia.
    - apply Z.compare_gt_iff. nia. }
  rewrite E. reflexivity.
Qed.

Lemma rnd_div_below p q n : 0 < q -> p < q * n -> rnd_div p q <= n.
Proof.
  intros Hq Hp. pose proof (rnd_div_floor p q).
  assert (p / q < n) by (apply Z.div_lt_upper_bound; lia). lia.
Qed.

Lemma roundMag_scale c p q :
  0 < c -> 0 < q -> roundMag (c * p) (c * q) = roundMag p q.
Proof.
  intros Hc Hq. unfold roundMag.
  rewrite Z.div_mul_cancel_l by lia.
  set (sh := shiftOf (p / q)).
  assert (0 < 2 ^ sh) by (apply Z.pow_pos_nonneg; [lia | unfold sh, shiftOf; lia]).
  replace (c * q * 2 ^ sh) with (c * (q * 2 ^ sh)) by ring.
  rewrite rnd_div_scale by nia. reflexivity.
Qed.

Lemma round_scale neg c p q :
  0 < c -> 0 < q -> round neg (c * p) (c * q) = round neg p q.
Proof. intros. unfold round. rewrite roundMag_scale by assumption. reflexivity. Qed.

Lemma shiftOf_nonneg v : 0 <= shiftOf v.
Proof. unfold shiftOf. lia. Qed.

(** A magnitude with at most 53 significant bits below the overflow
    threshold is left alone by rounding. *)
Lemma roundMag_dyadic n e :
  0 <= n <= 2 ^ 53 -> 0 <= e -> n * 2 ^ e < OVERFLOW ->
  roundMag (n * 2 ^ e) 1 = Some (n * 2 ^ e).
Proof.
  intros Hn He Hov. unfold roundMag.
  rewrite Z.div_1_r, Z.mul_1_l.
  set (k := n * 2 ^ e) in *.
  assert (H2e : 0 < 2 ^ e) by (apply Z.pow_pos_nonneg; lia).
  assert (Hdiv : exists m, k = m * 2 ^ shiftOf k).
  { unfold shiftOf. destruct (Z.max_spec 0 (Z.log2 k - 52)) as [[Hlt ->]|[Hle ->]].
    2:{ exists k. rewrite Z.pow_0_r. ring. }
    assert (0 < n) by (destruct (Z.eq_dec n 0) as [->|]; [unfold k in Hlt; simpl in Hlt; lia | lia]).
    assert (Hlog : Z.log2 k = e + Z.log2 n) by (unfold k; apply Z.log2_mul_pow2; lia).
    destruct (Z.eq_dec n (2 ^ 53)) as [->|Hne].
    - rewrite Z.log2_pow2 in Hlog by lia.
      exists (2 ^ 52). rewrite Hlog. unfold k.
      rewrite <- !Z.pow_add_r by lia. f_equal. lia.
    - assert (Z.log2 n < 53) by (apply Z.log2_lt_pow2; lia).
      exists (n * 2 ^ (e - (Z.log2 k - 52))). rewrite Hlog. unfold k.
      rewrite <- Z.mul_assoc, <- Z.pow_add_r by lia. do 2 f_equal. lia. }
  destruct Hdiv as [m Hm].
  assert (0 < 2 ^ shiftOf k) by (apply Z.pow_pos_nonneg; [lia | apply shiftOf_nonneg]).
  clearbody k. set (s := shiftOf k) in *. clearbody s.
  assert (R : rnd_div k (2 ^ s) = m) by (rewrite Hm; apply rnd_div_exact; assumption).
  rewrite R, <- Hm. destruct (Z.ltb_spec k OVERFLOW); [reflexivity | lia].
Qed.

(** What rounding returns has at most 53 significant bits. *)
Lemma roundMag_shape p q k :
  0 <= p -> 0 < q -> roundMag p q = Some k ->
  exists n e, 0 <= n <= 2 ^ 53 /\ 0 <= e /\ k = n * 2 ^ e /\ k < OVERFLOW.
Proof.
  intros Hp Hq. unfold roundMag.
  set (sh := shiftOf (p / q)).
  destruct (Z.ltb_spec (rnd_div p (q * 2 ^ sh) * 2 ^ sh) OVERFLOW) as [Hov|]; [|discriminate].
  intros [= <-].
  assert (Hsh : 0 <= sh) by apply shiftOf_nonneg.
  assert (H2 : 0 < 2 ^ sh) by (apply Z.pow_pos_nonneg; lia).
  exists (rnd_div p (q * 2 ^ sh)), sh. repeat split; try assumption.
  - apply rnd_div_nonneg; nia.
  - apply rnd_div_below; [nia|].
    assert (Ha : 0 <= p / q) by (apply Z.div_pos; lia).
    assert (Hlt : p / q < 2 ^ (53 + sh)).
    { destruct (Z.eq_dec (p / q) 0) as [->|]; [apply Z.pow_pos_nonneg; lia|].
      apply Z.log2_lt_pow2; [lia|]. unfold sh, shiftOf. lia. }
    assert (p < q * 2 ^ (53 + sh)).
    { pose proof (Z.div_mod p q ltac:(lia)). pose proof (Z.mod_pos_bound p q Hq). nia. }
    rewrite Z.pow_add_r in * by lia. nia.
Qed.

Lemma roundMag_nonneg p q k :
  0 <= p -> 0 < q -> roundMag p q = Some k -> 0 <= k.
Proof.
  intros Hp Hq H. destruct (roundMag_shape p q k Hp Hq H) as (n & e & Hn & He & -> & _).
  assert (0 < 2 ^ e) by (apply Z.pow_pos_nonneg; lia). nia.
Qed.

Lemma roundMag_idem p q k :
  0 <= p -> 0 < q -> roundMag p q = Some k -> roundMag k 1 = Some k.
Proof.
  intros Hp Hq H. destruct (roundMag_shape p q k Hp Hq H) as (n & e & Hn & He & -> & Hov).
  apply roundMag_dyadic; assumption.
Qed.

Lemma round_isDouble neg p q :
  0 <= p -> 0 < q -> isDouble (round neg p q) = true.
Proof.
  intros Hp Hq. unfold round.
  destruct (roundMag p q) as [k|] eqn:E; [|destruct neg; reflexivity].
  pose proof (roundMag_nonneg p q k Hp Hq E) as Hk.
  pose proof (roundMag_idem p q k Hp Hq E) as Hi.
  destruct k as [|k|k]; [destruct neg; reflexivity| |lia].
  unfold isDouble. destruct neg.
  - rewrite Z.abs_opp. rewrite Z.abs_eq by lia. rewrite Hi. apply Z.eqb_refl.
  - rewrite Z.abs_eq by lia. rewrite Hi. apply Z.eqb_refl.
Qed.

(** Reading a double back: rounding its own value returns it. *)
Lemma round_double k :
  0 < k -> isDouble (Fin k) = true -> round false k 1 = Fin k.
Proof.
  intros Hk H. unfold isDouble in H. rewrite Z.abs_eq in H by lia.
  unfold round. destruct (roundMag k 1) as [k'|]; [|discriminate].
  apply Z.eqb_eq in H. subst k'. destruct k; try lia. reflexivity.
Qed.

(** ** Decimal values *)

Lemma pow10_pos e : 0 <= e -> 0 < 10 ^ e.
Proof. intros. apply Z.pow_pos_nonneg; lia. Qed.

Lemma decValue_shift neg s t :
  decValue neg (s * 10) t = decValue neg s (t + 1).
Proof.
  unfold decValue.
  destruct (Z.leb_spec 0 t) as [Ht|Ht].
  - destruct (Z.leb_spec 0 (t + 1)); [|lia].
    f_equal. rewrite Z.pow_add_r by lia. ring.
  - destruct (Z.leb_spec 0 (t + 1)) as [Ht1|Ht1].
    + assert (t = -1) by lia. subst t. simpl Z.opp. simpl (_ + _).
      rewrite Z.pow_0_r, Z.pow_1_r.
      replace (s * 10 * SCALE) with (10 * (s * 1 * SCALE)) by ring.
      replace 10 with (10 * 1) at 2 by ring.
      apply round_scale; lia.
    + replace (- t) with (1 + - (t + 1)) by lia.
      rewrite Z.pow_add_r by lia. rewrite Z.pow_1_r.
      replace (s * 10 * SCALE) with (10 * (s * SCALE)) by ring.
      apply round_scale; [lia | apply pow10_pos; lia].
Qed.

Lemma decValue_shiftn neg s t j :
  0 <= j -> decValue neg (s * 10 ^ j) t = decValue neg s (t + j).
Proof.
  intros Hj. revert s t. pattern j. apply natlike_ind; [| |assumption].
  - intros. rewrite Z.pow_0_r, Z.mul_1_r, Z.add_0_r. reflexivity.
  - intros x Hx IH s t. rewrite Z.pow_succ_r by assumption.
    replace (s * (10 * 10 ^ x)) with (s * 10 ^ x * 10) by ring.
    rewrite decValue_shift, IH. f_equal. lia.
Qed.

(** ** Digit strings *)

Lemma isDigit_spec c : isDigit c = true <-> 48 <= c <= 57.
Proof. unfold isDigit. rewrite andb_true_iff, !Z.leb_le. tauto. Qed.

Lemma digitVal_digit c : isDigit c = true -> digitVal c = c - 48.
Proof. intros H. unfold digitVal. rewrite H. reflexivity. Qed.

Lemma valueOf_app r a b :
  valueOf r (a ++ b) = valueOf r a * r ^ Z.of_nat (List.length b) + valueOf r b.
Proof.
  unfold valueOf. rewrite fold_left_app.
  generalize (fold_left (fun acc c => r * acc + digitVal c) a 0). intros v.
  revert v. induction b as [|c b IH]; intros v.
  - simpl. ring.
  - cbn [fold_left List.length]. rewrite IH.
    rewrite Nat2Z.inj_succ, Z.pow_succ_r by lia.
    rewrite (IH 0). replace (r * 0 + digitVal c) with (digitVal c) by ring.
    rewrite (IH (digitVal c)). ring.
Qed.

Lemma valueOf_zeros n : valueOf 10 (repeat 48 n) = 0.
Proof.
  induction n as [|n IH]; [reflexivity|].
  change (repeat 48 (S n)) with ([48] ++ repeat 48 n).
  rewrite valueOf_app, IH. reflexivity.
Qed.

Lemma valueOf_nonneg l : Forall (fun c => isDigit c = true) l -> 0 <= valueOf 10 l.
Proof.
  intros H. unfold valueOf.
  assert (G : forall v, 0 <= v -> 0 <= fold_left (fun acc c => 10 * acc + digitVal c) l v).
  { induction H as [|c l Hc Hl IH]; intros v Hv; [exact Hv|].
    cbn [fold_left]. apply IH. rewrite digitVal_digit by assumption.
    apply isDigit_spec in Hc. lia. }
  apply G. lia.
Qed.

Lemma digitsAux_spec f : forall n acc,
  0 <= n < 10 ^ (Z.of_nat f + 1) ->
  exists l, digitsAux f n acc = l ++ acc
            /\ Forall (fun c => isDigit c = true) l
            /\ l <> []
            /\ valueOf 10 l = n.
Proof.
  induction f as [|f IH]; intros n acc Hn.
  - change (10 ^ (Z.of_nat 0 + 1)) with 10 in Hn.
    exists [48 + n]. cbn [digitsAux]. rewrite Z.mod_small by lia.
    repeat split.
    + constructor; [apply isDigit_spec; lia | constructor].
    + discriminate.
    + unfold valueOf. cbn [fold_left]. rewrite digitVal_digit by (apply isDigit_spec; lia). lia.
  - cbn [digitsAux]. destruct (Z.ltb_spec n 10) as [Hlt|Hge].
    + exists [48 + n]. repeat split.
      * constructor; [apply isDigit_spec; lia | constructor].
      * discriminate.
      * unfold valueOf. cbn [fold_left]. rewrite digitVal_digit by (apply isDigit_spec; lia). lia.
    + assert (Hq : 0 <= n / 10 < 10 ^ (Z.of_nat f + 1)).
      { split; [apply Z.div_pos; lia|].
        apply Z.div_lt_upper_bound; [lia|].
        rewrite Nat2Z.inj_succ in Hn.
        replace (Z.succ (Z.of_nat f) + 1) with (1 + (Z.of_nat f + 1)) in Hn by lia.
        rewrite Z.pow_add_r, Z.pow_1_r in Hn by lia. lia. }
      destruct (IH (n / 10) ((48 + n mod 10) :: acc) Hq) as (l & El & Fl & Nl & Vl).
      pose proof (Z.mod_pos_bound n 10 ltac:(lia)) as Hm.
      exists (l ++ [48 + n mod 10]). repeat split.
      * rewrite El, <- app_assoc. reflexivity.
      * apply Forall_app. split; [assumption|].
        constructor; [apply isDigit_spec; lia | constructor].
      * destruct l; discriminate.
      * rewrite valueOf_app, Vl. cbn [List.length].
        unfold valueOf at 1. cbn [fold_left].
        rewrite digitVal_digit by (apply isDigit_spec; lia).
        change (10 ^ Z.of_nat 1) with 10.
        pose proof (Z.div_mod n 10 ltac:(lia)). lia.
Qed.

Lemma digits_spec n :
  0 <= n ->
  Forall (fun c => isDigit c = true) (digits n)
  /\ digits n <> []
  /\ valueOf 10 (digits n) = n.
Proof.
  intros Hn. unfold digits.
  assert (Hb : 0 <= n < 10 ^ (Z.of_nat (Z.to_nat (Z.log2 n)) + 1)).
  { split; [assumption|].
    rewrite Z2Nat.id by apply Z.log2_nonneg.
    destruct (Z.eq_dec n 0) as [->|]; [reflexivity|].
    pose proof (Z.log2_spec n ltac:(lia)) as [_ H].
    unfold Z.succ in H.
    assert (2 ^ (Z.log2 n + 1) <= 10 ^ (Z.log2 n + 1)).
    { apply Z.pow_le_mono_l. pose proof (Z.log2_nonneg n). lia. }
    lia. }
  destruct (digitsAux_spec _ n [] Hb) as (l & El & Fl & Nl & Vl).
  rewrite El, app_nil_r. auto.
Qed.

(** ** Scanning *)

Lemma takeWhile_app p (a b : jsstring) :
  Forall (fun c => p c = true) a ->
  (match b with [] => True | c :: _ => p c = false end) ->
  takeWhile p (a ++ b) = a /\ dropWhile p (a ++ b) = b.
Proof.
  intros Ha Hb. induction Ha as [|c a Hc Ha IH].
  - cbn [app]. destruct b as [|c b]; [split; reflexivity|].
    cbn [takeWhile dropWhile]. rewrite Hb. split; reflexivity.
  - cbn [app takeWhile dropWhile]. rewrite Hc. destruct IH as [-> ->]. split; reflexivity.
Qed.

Lemma takeWhile_dropWhile p (s : jsstring) :
  takeWhile p s ++ dropWhile p s = s.
Proof.
  induction s as [|c s IH]; [reflexivity|].
  cbn [takeWhile dropWhile]. destruct (p c); [cbn; f_equal; exact IH | reflexivity].
Qed.

Lemma takeWhile_Forall p (s : jsstring) :
  Forall (fun c => p c = true) (takeWhile p s).
Proof.
  induction s as [|c s IH]; [constructor|].
  cbn [takeWhile]. destruct (p c) eqn:E; [constructor; assumption | constructor].
Qed.

Lemma dropWhile_head p (s : jsstring) :
  match dropWhile p s with [] => True | c :: _ => p c = false end.
Proof.
  induction s as [|c s IH]; [exact I|].
  cbn [dropWhile]. destruct (p c) eqn:E; [exact IH | exact E].
Qed.

Lemma dropWhile_id p (s : jsstring) :
  (match s with [] => True | c :: _ => p c = false end) -> dropWhile p s = s.
Proof. destruct s as [|c s]; [reflexivity|]. cbn. intros ->. reflexivity. Qed.

Lemma dropWhile_suffix p (s : jsstring) : exists pre, s = pre ++ dropWhile p s.
Proof.
  induction s as [|c s [pre IH]]; [exists []; reflexivity|].
  cbn [dropWhile]. destruct (p c).
  - exists (c :: pre). cbn. f_equal. exact IH.
  - exists []. reflexivity.
Qed.

Lemma forallb_Forall_true (p : Z -> bool) l :
  Forall (fun c => p c = true) l -> forallb p l = true.
Proof. intros H. apply forallb_forall. apply Forall_forall. exact H. Qed.

(** ** Trimming *)

Lemma trim_shape (s : jsstring) :
  trim s = [] \/
  exists c u d v, trim s = c :: u /\ isWhiteSpace c = false
                  /\ rev (trim s) = d :: v /\ isWhiteSpace d = false.
Proof.
  unfold trim.
  set (u := dropWhile isWhiteSpace s).
  set (v := dropWhile isWhiteSpace (rev u)).
  pose proof (dropWhile_head isWhiteSpace (rev u)) as Hv. fold v in Hv.
  destruct (dropWhile_suffix isWhiteSpace (rev u)) as [pre Hpre]. fold v in Hpre.
  destruct v as [|d v'] eqn:Ev; [left; reflexivity|].
  right.
  assert (Hu : u = rev (d :: v') ++ rev pre).
  { rewrite <- rev_app_distr, <- Hpre, rev_involutive. reflexivity. }
  pose proof (dropWhile_head isWhiteSpace s) as Hh. fold u in Hh.
  destruct (rev (d :: v')) as [|c w] eqn:Er.
  { apply (f_equal (@List.length Z)) in Er. rewrite length_rev in Er. discriminate. }
  exists c, w, d, v'. repeat split.
  - rewrite Hu in Hh. exact Hh.
  - rewrite <- Er. apply rev_involutive.
  - exact Hv.
Qed.

Lemma trim_fixed (s : jsstring) :
  (match s with [] => True | c :: _ => isWhiteSpace c = false end) ->
  (match rev s with [] => True | c :: _ => isWhiteSpace c = false end) ->
  trim s = s.
Proof.
  intros H1 H2. unfold trim.
  rewrite (dropWhile_id _ s H1), (dropWhile_id _ (rev s) H2).
  apply rev_involutive.
Qed.

Lemma trim_idem (s : jsstring) : trim (trim s) = trim s.
Proof.
  destruct (trim_shape s) as [E | (c & u & d & v & E & Hc & Er & Hd)].
  - rewrite E. reflexivity.
  - apply trim_fixed.
    + rewrite E. exact Hc.
    + rewrite Er. exact Hd.
Qed.

Lemma trim_noWs (s : jsstring) :
  Forall (fun c => isWhiteSpace c = false) s -> trim s = s.
Proof.
  intros H. apply trim_fixed.
  - destruct H; [exact I | assumption].
  - apply Forall_rev in H. destruct H; [exact I | assumption].
Qed.

(** ** Reading a decimal literal *)

Lemma parseExponent_expStr ex : parseExponent (expStr ex) = Some (exVal ex).
Proof.
  destruct ex as [e|]; [|reflexivity].
  destruct (digits_spec (Z.abs e) (Z.abs_nonneg e)) as (Fd & Nd & Vd).
  cbn [expStr parseExponent exVal].
  change (101 =? 101) with true. cbn [orb].
  assert (Hne : nonEmpty (digits (Z.abs e)) = true)
    by (destruct (digits (Z.abs e)); [contradiction | reflexivity]).
  destruct (Z.ltb_spec e 0).
  - change (45 =? 43) with false. change (45 =? 45) with true. cbn iota.
    rewrite Hne, (forallb_Forall_true _ _ Fd), Vd. cbn [andb]. f_equal. lia.
  - change (43 =? 43) with true. cbn iota.
    rewrite Hne, (forallb_Forall_true _ _ Fd), Vd. cbn [andb]. f_equal. lia.
Qed.

Lemma expStr_head ex :
  match expStr ex with [] => True | c :: _ => isDigit c = false /\ (c =? 46) = false end.
Proof. destruct ex; cbn; auto. Qed.

Lemma eqb_Infinity_digit c s : isDigit c = true -> Str.eqb (c :: s) (js "Infinity") = false.
Proof.
  intros H. apply isDigit_spec in H. cbn.
  destruct (Z.eqb_spec c 73); [lia | reflexivity].
Qed.

Lemma parse_literal neg ip fr ex :
  allDigits ip -> ip <> [] -> allDigits (fracDigits fr) ->
  parseUnsignedDecimal neg (ip ++ fracStr fr ++ expStr ex)
  = decValue neg (valueOf 10 (ip ++ fracDigits fr))
      (exVal ex - Z.of_nat (List.length (fracDigits fr))).
Proof.
  intros Hip Hne Hfp. unfold parseUnsignedDecimal.
  assert (Hinf : Str.eqb (ip ++ fracStr fr ++ expStr ex) (js "Infinity") = false).
  { destruct ip as [|c ip]; [contradiction|]. inversion Hip; subst.
    apply eqb_Infinity_digit; assumption. }
  rewrite Hinf.
  assert (Hhead : match fracStr fr ++ expStr ex with
                  | [] => True | c :: _ => isDigit c = false end).
  { destruct fr as [fp|]; [reflexivity|]. cbn [fracStr app].
    pose proof (expStr_head ex). destruct (expStr ex); tauto. }
  destruct (takeWhile_app isDigit ip _ Hip Hhead) as [-> ->].
  assert (Hip' : nonEmpty ip = true) by (destruct ip; [contradiction | reflexivity]).
  destruct fr as [fp|]; cbn [fracStr fracDigits app] in *.
  - change (46 =? 46) with true. cbn iota.
    assert (Hh2 : match expStr ex with [] => True | c :: _ => isDigit c = false end).
    { pose proof (expStr_head ex). destruct (expStr ex); tauto. }
    destruct (takeWhile_app isDigit fp _ Hfp Hh2) as [-> ->].
    rewrite Hip'. cbn [orb]. rewrite parseExponent_expStr. reflexivity.
  - pose proof (expStr_head ex) as Hx.
    destruct (expStr ex) as [|c r] eqn:Ee.
    + rewrite Hip'. cbn [orb]. rewrite <- Ee, parseExponent_expStr. reflexivity.
    + destruct Hx as [_ ->]. rewrite Hip'. cbn [orb].
      rewrite <- Ee, parseExponent_expStr. reflexivity.
Qed.

(** ** Number::toString reads back *)

Lemma digit_ok l : allDigits l -> allOk l.
Proof.
  intros H. eapply Forall_impl; [|exact H].
  intros c Hc. unfold okChar. cbn beta in Hc. rewrite Hc. reflexivity.
Qed.

Lemma zeros_digits n : allDigits (zeros n).
Proof. unfold zeros. apply Forall_forall. intros c Hc. apply repeat_spec in Hc. subst. reflexivity. Qed.

Lemma expStr_ok ex : allOk (expStr ex).
Proof.
  destruct ex as [e|]; [|constructor]. cbn [expStr].
  constructor; [reflexivity|]. constructor; [destruct (e <? 0); reflexivity|].
  apply digit_ok. apply (digits_spec (Z.abs e) (Z.abs_nonneg e)).
Qed.

Lemma literal_ok ip fr ex :
  allDigits ip -> allDigits (fracDigits fr) -> allOk (ip ++ fracStr fr ++ expStr ex).
Proof.
  intros Hip Hfp. apply Forall_app. split; [apply digit_ok; assumption|].
  apply Forall_app. split; [|apply expStr_ok].
  destruct fr as [fp|]; [|constructor]. cbn [fracStr fracDigits] in *.
  constructor; [reflexivity | apply digit_ok; assumption].
Qed.

(** Every branch of [formatDecimal] writes a literal: integer digits, an
    optional fraction, an optional exponent, denoting [ds * 10^t]. *)
Lemma formatDecimal_literal ds t :
  allDigits ds -> ds <> [] ->
  exists ip fr ex,
    formatDecimal ds t = ip ++ fracStr fr ++ expStr ex
    /\ allDigits ip /\ ip <> [] /\ allDigits (fracDigits fr)
    /\ forall neg,
         decValue neg (valueOf 10 (ip ++ fracDigits fr))
           (exVal ex - Z.of_nat (List.length (fracDigits fr)))
         = decValue neg (valueOf 10 ds) t.
Proof.
  intros Hds Hne. unfold formatDecimal.
  set (kd := Z.of_nat (List.length ds)).
  assert (Hkd : 0 < kd) by (unfold kd; destruct ds; [contradiction | cbn [List.length]; lia]).
  set (n := kd + t).
  destruct ((kd <=? n) && (n <=? 21)) eqn:CA.
  { (* digits followed by zeros *)
    apply andb_true_iff in CA. destruct CA as [CA _]. apply Z.leb_le in CA.
    exists (ds ++ zeros (n - kd)), None, None. cbn [fracStr expStr fracDigits exVal].
    rewrite !app_nil_r. repeat split.
    - apply Forall_app. split; [assumption | apply zeros_digits].
    - destruct ds; [contradiction | discriminate].
    - constructor.
    - intros neg. rewrite valueOf_app. unfold zeros at 2. rewrite valueOf_zeros, Z.add_0_r.
      unfold zeros. rewrite repeat_length, Z2Nat.id by lia.
      rewrite decValue_shiftn by lia. cbn [List.length]. f_equal. unfold n. lia. }
  destruct ((0 <? n) && (n <=? 21)) eqn:CB.
  { (* a decimal point inside the digits *)
    apply andb_true_iff in CB. destruct CB as [CB CB']. apply Z.ltb_lt in CB.
    apply Z.leb_le in CB'.
    assert (Hn : n < kd).
    { apply andb_false_iff in CA. destruct CA as [CA|CA]; apply Z.leb_gt in CA; lia. }
    exists (firstn (Z.to_nat n) ds), (Some (skipn (Z.to_nat n) ds)), None.
    cbn [fracStr expStr fracDigits exVal]. rewrite !app_nil_r. repeat split.
    - rewrite <- (firstn_skipn (Z.to_nat n) ds) in Hds. apply Forall_app in Hds. tauto.
    - destruct ds; [contradiction|]. destruct (Z.to_nat n) eqn:E; [lia | discriminate].
    - rewrite <- (firstn_skipn (Z.to_nat n) ds) in Hds. apply Forall_app in Hds. tauto.
    - intros neg. rewrite firstn_skipn, length_skipn. f_equal. unfold n, kd in *. lia. }
  destruct ((-6 <? n) && (n <=? 0)) eqn:CC.
  { (* zeros between the point and the digits *)
    apply andb_true_iff in CC. destruct CC as [_ CC]. apply Z.leb_le in CC.
    exists [48], (Some (zeros (- n) ++ ds)), None.
    cbn [fracStr expStr fracDigits exVal]. rewrite !app_nil_r. repeat split.
    - constructor; [reflexivity | constructor].
    - discriminate.
    - apply Forall_app. split; [apply zeros_digits | assumption].
    - intros neg. rewrite length_app. unfold zeros. rewrite repeat_length.
      rewrite app_assoc, valueOf_app.
      change ([48] ++ repeat 48 (Z.to_nat (- n))) with (repeat 48 (S (Z.to_nat (- n)))).
      rewrite valueOf_zeros. cbn [Z.mul Z.add]. f_equal. unfold n, kd in *. lia. }
  (* exponent notation *)
  destruct ds as [|d rest]; [contradiction|]. inversion Hds as [|? ? Hd Hrest]; subst.
  destruct rest as [|d2 rest'].
  - exists [d], None, (Some (n - 1)). cbn [fracStr expStr fracDigits exVal app].
    repeat split.
    + constructor; [assumption | constructor].
    + discriminate.
    + constructor.
    + intros neg. f_equal. unfold n, kd. cbn [List.length]. lia.
  - exists [d], (Some (d2 :: rest')), (Some (n - 1)).
    cbn [fracStr expStr fracDigits exVal app]. repeat split.
    + constructor; [assumption | constructor].
    + discriminate.
    + assumption.
    + intros neg. f_equal. unfold n, kd. cbn [List.length]. lia.
Qed.

Lemma parse_format neg ds t :
  allDigits ds -> ds <> [] ->
  parseUnsignedDecimal neg (formatDecimal ds t) = decValue neg (valueOf 10 ds) t.
Proof.
  intros Hds Hne.
  destruct (formatDecimal_literal ds t Hds Hne) as (ip & fr & ex & -> & Hip & Hn & Hfp & Hv).
  rewrite parse_literal by assumption. apply Hv.
Qed.

Lemma formatDecimal_ok ds t :
  allDigits ds -> ds <> [] ->
  allOk (formatDecimal ds t)
  /\ exists c r, formatDecimal ds t = c :: r /\ isDigit c = true.
Proof.
  intros Hds Hne.
  destruct (formatDecimal_literal ds t Hds Hne) as (ip & fr & ex & -> & Hip & Hn & Hfp & _).
  split; [apply literal_ok; assumption|].
  destruct ip as [|c ip]; [contradiction|]. inversion Hip; subst.
  eexists _, _. split; [reflexivity | assumption].
Qed.

(** ** The shortest digits read back *)

Lemma stripZeros_value neg fuel : forall s t,
  0 < s ->
  0 < fst (stripZeros fuel s t)
  /\ decValue neg (fst (stripZeros fuel s t)) (snd (stripZeros fuel s t))
     = decValue neg s t.
Proof.
  induction fuel as [|fuel IH]; intros s t Hs; cbn [stripZeros].
  - split; [exact Hs | reflexivity].
  - destruct (Z.ltb_spec 0 s); [|lia]. cbn [andb].
    destruct (Z.eqb_spec (s mod 10) 0) as [Hm|Hm].
    + pose proof (Z.div_mod s 10 ltac:(lia)) as Hd.
      assert (Hq : 0 < s / 10) by lia.
      destruct (IH (s / 10) (t + 1) Hq) as [H1 H2].
      split; [exact H1|]. rewrite H2, <- decValue_shift. f_equal. lia.
    + split; [exact Hs | reflexivity].
Qed.

Lemma readsBack_spec k c :
  readsBack k c = true -> 0 < fst c /\ decValue false (fst c) (snd c) = Fin k.
Proof.
  unfold readsBack. intros H. apply andb_true_iff in H. destruct H as [H1 H2].
  apply Z.ltb_lt in H1. split; [exact H1|].
  destruct (decValue false (fst c) (snd c)); try discriminate.
  apply Z.eqb_eq in H2. subst. reflexivity.
Qed.

Lemma Some_eq {A : Type} (x y : A) : Some x = Some y -> x = y.
Proof. intros [= H]. exact H. Qed.

Lemma searchDigits_spec fuel : forall kk k n0 c,
  searchDigits fuel kk k n0 = Some c -> readsBack k c = true.
Proof.
  induction fuel as [|fuel IH]; intros kk k n0 c; cbn [searchDigits]; [discriminate|].
  cbv zeta.
  match goal with |- context [readsBack k ?c1] => destruct (readsBack k c1) eqn:E1 end.
  { intros H. apply Some_eq in H. rewrite <- H. exact E1. }
  match goal with |- context [readsBack k ?c2] => destruct (readsBack k c2) eqn:E2 end.
  { intros H. apply Some_eq in H. rewrite <- H. exact E2. }
  apply IH.
Qed.

Lemma exact_expansion k :
  0 < k -> isDouble (Fin k) = true ->
  decValue false (k * 5 ^ SHIFT) (- SHIFT) = Fin k.
Proof.
  intros Hk Hd. unfold decValue.
  assert (HS : 0 <= SHIFT) by (unfold SHIFT; lia).
  destruct (Z.leb_spec 0 (- SHIFT)); [unfold SHIFT in *; lia|].
  rewrite Z.opp_involutive.
  replace (k * 5 ^ SHIFT * SCALE) with (10 ^ SHIFT * k).
  2:{ unfold SCALE. replace 10 with (5 * 2) by reflexivity.
      rewrite Z.pow_mul_l. ring. }
  replace (10 ^ SHIFT) with (10 ^ SHIFT * 1) at 2 by ring.
  rewrite round_scale by (try apply pow10_pos; lia).
  apply round_double; assumption.
Qed.

Lemma shortest_reads k :
  0 < k -> isDouble (Fin k) = true ->
  0 < fst (shortest k) /\ decValue false (fst (shortest k)) (snd (shortest k)) = Fin k.
Proof.
  intros Hk Hd. unfold shortest.
  destruct (searchDigits 17 1 k (decExp k)) as [c|] eqn:E.
  - apply readsBack_spec. eapply searchDigits_spec. exact E.
  - assert (Hs : 0 < k * 5 ^ SHIFT).
    { assert (0 < 5 ^ SHIFT) by (apply Z.pow_pos_nonneg; unfold SHIFT; lia). nia. }
    destruct (stripZeros_value false 2200 _ (- SHIFT) Hs) as [H1 H2].
    split; [exact H1|]. rewrite H2. apply exact_expansion; assumption.
Qed.

Lemma decValue_negate s t j :
  0 < j -> decValue false s t = Fin j -> decValue true s t = Fin (- j).
Proof.
  unfold decValue. intros Hj.
  assert (G : forall p q, round false p q = Fin j -> round true p q = Fin (- j)).
  { intros p q. unfold round. destruct (roundMag p q) as [[|m|m]|]; try discriminate.
    - intros [= <-]. lia.
    - intros [= <-]. reflexivity.
    - intros [= <-]. lia. }
  destruct (0 <=? t); apply G.
Qed.

Lemma positiveToString_spec k :
  0 < k -> isDouble (Fin k) = true ->
  allOk (positiveToString k)
  /\ (exists c r, positiveToString k = c :: r /\ isDigit c = true)
  /\ parseUnsignedDecimal false (positiveToString k) = Fin k
  /\ parseUnsignedDecimal true (positiveToString k) = Fin (- k).
Proof.
  intros Hk Hd. unfold positiveToString.
  destruct (shortest_reads k Hk Hd) as [Hs Hv].
  destruct (shortest k) as [s t]. cbn [fst snd] in *.
  destruct (digits_spec s ltac:(lia)) as (Fd & Nd & Vd).
  destruct (formatDecimal_ok (digits s) t Fd Nd) as [Hok Hhd].
  repeat split; try assumption.
  - rewrite parse_format, Vd by assumption. exact Hv.
  - rewrite parse_format, Vd by assumption. apply decValue_negate; assumption.
Qed.

Lemma okChar_noWs c : okChar c = true -> isWhiteSpace c = false.
Proof.
  unfold okChar, isDigit, isWhiteSpace. intros H.
  repeat (apply orb_true_iff in H; destruct H as [H|H]);
    try (apply andb_true_iff in H; destruct H as [H1 H2]; apply Z.leb_le in H1, H2);
    try apply Z.eqb_eq in H;
    repeat (apply orb_false_iff; split);
    try (apply Z.eqb_neq; lia);
    try (apply andb_false_iff; left; apply Z.leb_gt; lia).
Qed.

Lemma allOk_trim s : allOk s -> trim s = s.
Proof.
  intros H. apply trim_noWs. eapply Forall_impl; [|exact H].
  intros c Hc. apply okChar_noWs. exact Hc.
Qed.

Lemma allOk_nonDecimal s : allOk s -> nonDecimalRadix s = None.
Proof.
  intros H. destruct s as [|c0 [|c1 s]]; try reflexivity.
  inversion H as [|? ? _ H1]; subst. inversion H1 as [|? ? Hc _]; subst.
  cbn [nonDecimalRadix]. destruct (c0 =? 48); [|reflexivity].
  unfold okChar, isDigit in Hc.
  assert (E : forall v, In v [120; 88; 111; 79; 98; 66] -> (c1 =? v) = false).
  { intros v Hv. apply Z.eqb_neq. intros ->.
    cbn in Hv. repeat (destruct Hv as [<-|Hv]; [discriminate Hc|]). exact Hv. }
  rewrite !E by (cbn; tauto). reflexivity.
Qed.

(** [Number(String(x)) = x] for every finite double but [-0], which prints
    as ["0"]. *)
Theorem number_string_roundtrip x :
  isFinite x = true -> isDouble x = true -> x <> NegZero ->
  StringToNumber (NumberToString x) = x /\ allOk (NumberToString x)
  /\ NumberToString x <> [].
Proof.
  intros Hf Hd Hz. destruct x as [| | | |k]; try discriminate; [contradiction|].
  unfold NumberToString, StringToNumber.
  destruct (Z.eqb_spec k 0) as [->|Hk0].
  { split; [vm_compute; reflexivity|]. split; [|discriminate].
    constructor; [reflexivity | constructor]. }
  destruct (Z.ltb_spec k 0) as [Hneg|Hpos].
  - assert (Hd' : isDouble (Fin (- k)) = true).
    { unfold isDouble in *. rewrite Z.abs_opp. exact Hd. }
    destruct (positiveToString_spec (- k) ltac:(lia) Hd') as (Hok & _ & _ & Hv).
    assert (Hall : allOk (45 :: positiveToString (- k))) by (constructor; [reflexivity | exact Hok]).
    rewrite (allOk_trim _ Hall). split; [|split; [exact Hall | discriminate]].
    cbn [parseNumericLiteral]. change (45 =? 43) with false. change (45 =? 45) with true.
    cbn iota. rewrite Hv. f_equal. lia.
  - destruct (positiveToString_spec k ltac:(lia) Hd) as (Hok & (c & r & E & Hc) & Hv & _).
    rewrite (allOk_trim _ Hok). split; [|split; [exact Hok | rewrite E; discriminate]].
    pose proof (allOk_nonDecimal _ Hok) as Hnd.
    rewrite E in *. cbn [parseNumericLiteral].
    apply isDigit_spec in Hc.
    destruct (Z.eqb_spec c 43); [lia|]. destruct (Z.eqb_spec c 45); [lia|].
    rewrite Hnd. exact Hv.
Qed.

(** ** Every Number the parser computes is a double *)

Lemma digitVal_nonneg c : 0 <= digitVal c.
Proof.
  unfold digitVal, isDigit.
  destruct (Z.leb_spec 48 c); cbn [andb].
  - destruct (Z.leb_spec c 57); [lia|].
    destruct (Z.leb_spec 97 c); cbn [andb].
    + destruct (c <=? 122); [lia|]. destruct (Z.leb_spec 65 c); cbn [andb]; [|lia].
      destruct (c <=? 90); lia.
    + destruct (Z.leb_spec 65 c); cbn [andb]; [|lia]. destruct (c <=? 90); lia.
  - destruct (Z.leb_spec 97 c); cbn [andb]; [lia|].
    destruct (Z.leb_spec 65 c); cbn [andb]; [lia|]. lia.
Qed.

Lemma valueOf_radix_nonneg r l : 0 <= r -> 0 <= valueOf r l.
Proof.
  intros Hr. unfold valueOf.
  assert (G : forall v, 0 <= v -> 0 <= fold_left (fun acc c => r * acc + digitVal c) l v).
  { induction l as [|c l IH]; intros v Hv; [exact Hv|].
    cbn [fold_left]. apply IH. pose proof (digitVal_nonneg c). nia. }
  apply G. lia.
Qed.

Lemma SCALE_pos : 0 < SCALE.
Proof. unfold SCALE, SHIFT. apply Z.pow_pos_nonneg; lia. Qed.

Lemma round_sign neg p q : 0 <= p -> 0 < q -> hasSign neg (round neg p q).
Proof.
  intros Hp Hq. unfold round.
  destruct (roundMag p q) as [k|] eqn:E; [|destruct neg; reflexivity].
  pose proof (roundMag_nonneg p q k Hp Hq E).
  destruct k as [|k|k]; [destruct neg; cbn [hasSign]; try reflexivity; lia | | lia].
  destruct neg; cbn [hasSign]; lia.
Qed.

Lemma decValue_props neg s e :
  0 <= s -> isDouble (decValue neg s e) = true /\ hasSign neg (decValue neg s e).
Proof.
  intros Hs. pose proof SCALE_pos. unfold decValue. destruct (Z.leb_spec 0 e).
  - assert (0 < 10 ^ e) by (apply pow10_pos; lia).
    split; [apply round_isDouble | apply round_sign]; nia.
  - assert (0 < 10 ^ (- e)) by (apply pow10_pos; lia).
    split; [apply round_isDouble | apply round_sign]; nia.
Qed.

Lemma parseUnsignedDecimal_double neg t : isDouble (parseUnsignedDecimal neg t) = true.
Proof.
  unfold parseUnsignedDecimal.
  destruct (Str.eqb t (js "Infinity")); [destruct neg; reflexivity|].
  destruct (dropWhile isDigit t) as [|c r].
  - destruct (nonEmpty (takeWhile isDigit t) || nonEmpty []); [|reflexivity].
    destruct (parseExponent []); [|reflexivity].
    apply decValue_props. apply valueOf_radix_nonneg. lia.
  - destruct (c =? 46).
    + destruct (nonEmpty (takeWhile isDigit t) || nonEmpty (takeWhile isDigit r)); [|reflexivity].
      destruct (parseExponent _); [|reflexivity].
      apply decValue_props. apply valueOf_radix_nonneg. lia.
    + destruct (nonEmpty (takeWhile isDigit t) || nonEmpty []); [|reflexivity].
      destruct (parseExponent _); [|reflexivity].
      apply decValue_props. apply valueOf_radix_nonneg. lia.
Qed.

Lemma StringToNumber_double s : isDouble (StringToNumber s) = true.
Proof.
  unfold StringToNumber, parseNumericLiteral.
  destruct (trim s) as [|c t]; [reflexivity|].
  destruct (c =? 43); [apply parseUnsignedDecimal_double|].
  destruct (c =? 45); [apply parseUnsignedDecimal_double|].
  destruct (nonDecimalRadix (c :: t)) as [[radix ds]|] eqn:E;
    [|apply parseUnsignedDecimal_double].
  destruct (nonEmpty ds && forallb (isRadixDigit radix) ds); [|reflexivity].
  assert (0 <= radix).
  { unfold nonDecimalRadix in E. destruct t as [|c1 t]; [discriminate|].
    destruct (c =? 48); [|discriminate].
    destruct ((c1 =? 120) || (c1 =? 88)); [injection E as <- _; lia|].
    destruct ((c1 =? 111) || (c1 =? 79)); [injection E as <- _; lia|].
    destruct ((c1 =? 98) || (c1 =? 66)); [injection E as <- _; lia | discriminate]. }
  pose proof (valueOf_radix_nonneg radix ds ltac:(assumption)).
  pose proof SCALE_pos.
  apply round_isDouble; nia.
Qed.

Lemma add_double x y : isDouble (add x y) = true.
Proof.
  unfold add.
  destruct x as [| | | |a], y as [| | | |b]; try reflexivity;
    cbn [toZ];
    match goal with
    | |- context [?s =? 0] => destruct (s =? 0); [reflexivity|];
                               apply round_isDouble; lia
    end.
Qed.

(** A decimal integer literal denotes a non-negative Number. *)
Lemma StringToNumber_digits m :
  allDigits m -> m <> [] ->
  StringToNumber m = decValue false (valueOf 10 m) 0.
Proof.
  intros Hm Hne. unfold StringToNumber.
  pose proof (literal_ok m None None Hm ltac:(constructor)) as Hok.
  cbn [fracStr expStr app] in Hok. rewrite app_nil_r in Hok.
  rewrite (allOk_trim _ Hok).
  pose proof (allOk_nonDecimal _ Hok) as Hnd.
  pose proof (parse_literal false m None None Hm Hne ltac:(constructor)) as Hp.
  cbn [fracStr expStr fracDigits exVal app List.length] in Hp.
  rewrite !app_nil_r in Hp.
  destruct m as [|c m']; [contradiction|]. inversion Hm as [|? ? Hc _]; subst.
  apply isDigit_spec in Hc. cbn [parseNumericLiteral].
  destruct (Z.eqb_spec c 43); [lia|]. destruct (Z.eqb_spec c 45); [lia|].
  rewrite Hnd. exact Hp.
Qed.

(** ** The set of keys *)

Lemma isKey_finite x : isKey x -> isFinite x = true.
Proof. intros (k & -> & _). reflexivity. Qed.

Lemma sameValueZero_Fin a b : sameValueZero (Fin a) (Fin b) = (a =? b).
Proof. reflexivity. Qed.

Lemma existsb_absent k out :
  Forall isKey out -> ~ In (Fin k) out ->
  existsb (sameValueZero (Fin k)) out = false.
Proof.
  intros Hout Hin. induction Hout as [|x out (j & -> & _) _ IH]; [reflexivity|].
  cbn [existsb]. rewrite sameValueZero_Fin.
  destruct (Z.eqb_spec k j) as [->|_]; [exfalso; apply Hin; left; reflexivity|].
  cbn [orb]. apply IH. intros H. apply Hin. right. exact H.
Qed.

Lemma existsb_present k out :
  existsb (sameValueZero (Fin k)) out = false -> ~ In (Fin k) out.
Proof.
  intros H Hin. assert (T : existsb (sameValueZero (Fin k)) out = true).
  { apply existsb_exists. exists (Fin k). split; [exact Hin|].
    rewrite sameValueZero_Fin. apply Z.eqb_refl. }
  congruence.
Qed.

Lemma setAdd_new k out :
  Forall isKey out -> ~ In (Fin k) out -> setAdd (Fin k) out = out ++ [Fin k].
Proof. intros Ho Hi. unfold setAdd. rewrite existsb_absent by assumption. reflexivity. Qed.

Lemma setAdd_keys x out :
  isFinite x = true -> isDouble x = true ->
  Forall isKey out -> NoDup out ->
  Forall isKey (setAdd x out) /\ NoDup (setAdd x out).
Proof.
  intros Hf Hd Ho Hn. unfold setAdd.
  destruct (existsb (sameValueZero x) out) eqn:E; [split; assumption|].
  destruct x as [| | | |k]; try discriminate.
  - (* -0 is stored as +0 *)
    change (sameValueZero NegZero) with (sameValueZero (Fin 0)) in E.
    split.
    + apply Forall_app. split; [assumption|]. constructor; [|constructor].
      exists 0. split; reflexivity.
    + apply NoDup_app; [assumption | constructor; [intros []|constructor] |].
      intros a Ha [<-|[]]. exact (existsb_present _ _ E Ha).
  - split.
    + apply Forall_app. split; [assumption|]. constructor; [|constructor].
      exists k. split; [reflexivity | exact Hd].
    + apply NoDup_app; [assumption | constructor; [intros []|constructor] |].
      intros a Ha [<-|[]]. exact (existsb_present _ _ E Ha).
Qed.

(** ** Sorting *)

Lemma insertBy_perm cmp x l : Permutation (x :: l) (insertBy cmp x l).
Proof.
  induction l as [|y l IH]; [apply Permutation_refl|].
  cbn [insertBy]. destruct (Num.ltb zero (cmp x y)); [|apply Permutation_refl].
  eapply Permutation_trans; [apply perm_swap|]. apply perm_skip. exact IH.
Qed.

Lemma sortBy_perm cmp l : Permutation l (sortBy cmp l).
Proof.
  induction l as [|x l IH]; [apply Permutation_refl|].
  cbn [sortBy fold_right]. eapply Permutation_trans; [|apply insertBy_perm].
  apply perm_skip. exact IH.
Qed.

Lemma sortBy_fixed cmp l : sortedBy cmp l -> sortBy cmp l = l.
Proof.
  induction l as [|x l IH]; [reflexivity|].
  intros H. cbn [sortBy fold_right]. fold (sortBy cmp l).
  destruct l as [|y l]; [reflexivity|].
  destruct H as [Hxy Hl]. rewrite (IH Hl). cbn [insertBy]. rewrite Hxy. reflexivity.
Qed.

Lemma insertBy_sorted cmp x l :
  (forall y, In y l -> Num.ltb zero (cmp x y) = true -> Num.ltb zero (cmp y x) = false) ->
  sortedBy cmp l -> sortedBy cmp (insertBy cmp x l).
Proof.
  induction l as [|y l IH]; intros Hanti Hs; [exact I|].
  cbn [insertBy]. destruct (Num.ltb zero (cmp x y)) eqn:E.
  - assert (Hyx : Num.ltb zero (cmp y x) = false) by (apply Hanti; [left; reflexivity | exact E]).
    assert (Hrec : sortedBy cmp (insertBy cmp x l)).
    { apply IH; [intros z Hz; apply Hanti; right; exact Hz|].
      destruct l; [exact I | apply Hs]. }
    destruct l as [|z l]; [cbn; auto|].
    cbn [insertBy] in *. destruct (Num.ltb zero (cmp x z)).
    + split; [apply Hs | exact Hrec].
    + split; [exact Hyx | exact Hrec].
  - split; [exact E | exact Hs].
Qed.

Lemma sub_Fin a b :
  sub (Fin a) (Fin b)
  = if a - b =? 0 then Fin 0 else round (a - b <? 0) (Z.abs (a - b)) 1.
Proof.
  unfold sub, neg. destruct b as [|p|p]; unfold add; cbn [toZ].
  - replace (a + 0) with (a - 0) by lia. destruct a; reflexivity.
  - replace (a + - Z.pos p) with (a - Z.pos p) by lia. destruct a; reflexivity.
  - replace (a + - Z.neg p) with (a - Z.neg p) by lia. destruct a; reflexivity.
Qed.

Lemma sub_positive a b : Num.ltb zero (sub (Fin a) (Fin b)) = true -> b < a.
Proof.
  rewrite sub_Fin. destruct (Z.eqb_spec (a - b) 0); [discriminate|].
  destruct (Z.ltb_spec (a - b) 0); [|lia].
  pose proof (round_sign true (Z.abs (a - b)) 1 ltac:(lia) ltac:(lia)) as Hs.
  destruct (round true (Z.abs (a - b)) 1) as [| | | |k]; cbn [hasSign Num.ltb zero toZ] in *;
    try discriminate.
  intros Hlt. apply Z.ltb_lt in Hlt. lia.
Qed.

Lemma sub_antisym x y :
  isKey x -> isKey y ->
  Num.ltb zero (sub x y) = true -> Num.ltb zero (sub y x) = false.
Proof.
  intros (a & -> & _) (b & -> & _) H. apply sub_positive in H.
  destruct (Num.ltb zero (sub (Fin b) (Fin a))) eqn:E; [|reflexivity].
  apply sub_positive in E. lia.
Qed.

Lemma sortBy_sorted l : Forall isKey l -> sortedBy sub (sortBy sub l).
Proof.
  induction 1 as [|x l Hx Hl IH]; [exact I|].
  cbn [sortBy fold_right]. fold (sortBy sub l).
  apply insertBy_sorted; [|exact IH].
  intros y Hy. apply sub_antisym; [exact Hx|].
  eapply Forall_forall; [|exact Hy].
  eapply Permutation_Forall; [apply sortBy_perm | exact Hl].
Qed.

(** ** What the parser accumulates *)

Lemma rangeLoop_keys fuel : forall x b out out',
  isCounter x -> isFinite b = true ->
  Forall isKey out -> NoDup out ->
  rangeLoop fuel x b out = Some out' ->
  Forall isKey out' /\ NoDup out'.
Proof.
  induction fuel as [|fuel IH]; intros x b out out' Hx Hb Ho Hn; cbn [rangeLoop].
  - destruct (Num.leb x b); [discriminate|]. intros [= <-]. split; assumption.
  - destruct (Num.leb x b) eqn:E; [|intros [= <-]; split; assumption].
    assert (Hfin : isFinite x = true).
    { destruct Hx as [_ Hs].
      destruct x; try reflexivity; try contradiction; try discriminate Hs;
        destruct b; try discriminate Hb; discriminate E. }
    destruct (setAdd_keys x out Hfin (proj1 Hx) Ho Hn) as [Ho' Hn'].
    apply IH; try assumption.
    split; [apply add_double|].
    destruct Hx as [_ Hs].
    destruct x as [| | | |k]; try discriminate Hfin; cbn [hasSign] in Hs;
      [discriminate Hs|].
    unfold add, one. cbn [toZ]. pose proof SCALE_pos.
    destruct (Z.eqb_spec (k + SCALE) 0); [lia|].
    destruct (Z.ltb_spec (k + SCALE) 0); [lia|].
    apply round_sign; lia.
Qed.

Lemma matchRange_groups t m1 m2 :
  matchRange t = Some (m1, m2) ->
  allDigits m1 /\ m1 <> [] /\ allDigits m2 /\ m2 <> [] /\ m1 = takeWhile isDigit t.
Proof.
  unfold matchRange.
  destruct (dropWhile isWhiteSpace (dropWhile isDigit t)) as [|c r]; [discriminate|].
  destruct (c =? 45); [|discriminate].
  destruct (nonEmpty (takeWhile isDigit t)) eqn:E1; [|discriminate].
  destruct (nonEmpty (takeWhile isDigit (dropWhile isWhiteSpace r))) eqn:E2; [|discriminate].
  cbn [andb]. destruct (negb _); [|discriminate].
  intros [= <- <-]. repeat split; try apply takeWhile_Forall.
  - intros H. rewrite H in E1. discriminate.
  - intros H. rewrite H in E2. discriminate.
Qed.

Lemma parseChunk_keys fuel out chunk out' :
  Forall isKey out -> NoDup out ->
  parseChunk fuel out chunk = Some out' ->
  Forall isKey out' /\ NoDup out'.
Proof.
  intros Ho Hn. unfold parseChunk.
  destruct (negb (nonEmpty (trim chunk))); [intros [= <-]; split; assumption|].
  destruct (matchRange (trim chunk)) as [[m1 m2]|] eqn:E.
  - destruct (matchRange_groups _ _ _ E) as (H1 & N1 & H2 & N2 & _).
    destruct (isFinite (StringToNumber m1) && isFinite (StringToNumber m2)
              && Num.leb (StringToNumber m1) (StringToNumber m2)) eqn:C;
      [|intros [= <-]; split; assumption].
    apply andb_true_iff in C. destruct C as [C _].
    apply andb_true_iff in C. destruct C as [_ Cb].
    apply rangeLoop_keys; try assumption.
    rewrite (StringToNumber_digits m1 H1 N1).
    apply decValue_props. apply valueOf_radix_nonneg. lia.
  - destruct (isFinite (StringToNumber (trim chunk))) eqn:F;
      [|intros [= <-]; split; assumption].
    intros [= <-]. apply setAdd_keys; try assumption. apply StringToNumber_double.
Qed.

Lemma parseChunks_keys fuel chunks : forall out out',
  Forall isKey out -> NoDup out ->
  parseChunks fuel out chunks = Some out' ->
  Forall isKey out' /\ NoDup out'.
Proof.
  induction chunks as [|c cs IH]; intros out out' Ho Hn; cbn [parseChunks].
  - intros [= <-]. split; assumption.
  - destruct (parseChunk fuel out c) as [o|] eqn:E; [|discriminate].
    destruct (parseChunk_keys _ _ _ _ Ho Hn E) as [Ho' Hn'].
    apply IH; assumption.
Qed.

(** What [parseDropKeys] returns: finite doubles, pairwise different, none
    placed after one it must precede. *)
Lemma parseDropKeys_keys fuel s out :
  parseDropKeys fuel s = Some out ->
  Forall isKey out /\ NoDup out /\ sortedBy sub out.
Proof.
  unfold parseDropKeys.
  destruct (parseChunks fuel [] (splitOn isSeparator s)) as [raw|] eqn:E; [|discriminate].
  intros [= <-].
  destruct (parseChunks_keys _ _ _ _ (Forall_nil _) (NoDup_nil _) E) as [Hk Hn].
  repeat split.
  - eapply Permutation_Forall; [apply sortBy_perm | exact Hk].
  - eapply Permutation_NoDup; [apply sortBy_perm | exact Hn].
  - apply sortBy_sorted. exact Hk.
Qed.

(** ** A range is no numeric literal *)

(** What can follow the first group of a range: white space or the dash. *)
Lemma range_gap c :
  isWhiteSpace c = true \/ c = 45 ->
  isDigit c = false /\ (c =? 46) = false /\ (c =? 101) = false /\ (c =? 69) = false
  /\ (c =? 120) = false /\ (c =? 88) = false /\ (c =? 111) = false
  /\ (c =? 79) = false /\ (c =? 98) = false /\ (c =? 66) = false.
Proof.
  intros H.
  assert (G : forall v, In v [46; 101; 69; 120; 88; 111; 79; 98; 66; 48; 49; 50; 51; 52;
                              53; 54; 55; 56; 57] -> c <> v).
  { intros v Hv ->. destruct H as [H|H].
    - cbn in Hv. repeat (destruct Hv as [<-|Hv]; [discriminate H|]). exact Hv.
    - subst v. cbn in Hv. repeat (destruct Hv as [Hv|Hv]; [discriminate Hv|]). exact Hv. }
  repeat split; try (apply Z.eqb_neq; apply G; cbn; tauto).
  destruct (isDigit c) eqn:E; [|reflexivity]. apply isDigit_spec in E.
  assert (In c [48; 49; 50; 51; 52; 53; 54; 55; 56; 57]) by (cbn; lia).
  exfalso. apply (G c); [|reflexivity]. cbn in *. tauto.
Qed.

Lemma matchRange_notNumber t m1 m2 :
  matchRange t = Some (m1, m2) -> parseNumericLiteral t = NaN.
Proof.
  intros H. destruct (matchRange_groups _ _ _ H) as (H1 & N1 & _ & _ & E1).
  unfold matchRange in H. rewrite <- E1 in H.
  pose proof (takeWhile_dropWhile isDigit t) as Et. rewrite <- E1 in Et.
  destruct (dropWhile isDigit t) as [|h r1] eqn:Er; [discriminate|].
  assert (Hh : isWhiteSpace h = true \/ h = 45).
  { cbn [dropWhile] in H. destruct (isWhiteSpace h); [left; reflexivity|].
    right. destruct (Z.eqb_spec h 45); [assumption | discriminate]. }
  destruct (range_gap h Hh) as (G0 & G1 & G2 & G3 & G4 & G5 & G6 & G7 & G8 & G9).
  destruct m1 as [|d m1']; [contradiction|]. inversion H1 as [|? ? Hd H1']; subst.
  assert (Hd' := Hd). apply isDigit_spec in Hd'.
  cbn [app parseNumericLiteral].
  destruct (Z.eqb_spec d 43); [lia|]. destruct (Z.eqb_spec d 45); [lia|].
  assert (Hnd : nonDecimalRadix (d :: m1' ++ h :: r1) = None).
  { destruct m1' as [|d2 m1'']; cbn [app nonDecimalRadix].
    - rewrite G4, G5, G6, G7, G8, G9. cbn [orb]. destruct (d =? 48); reflexivity.
    - inversion H1' as [|? ? Hd2 _]; subst. apply isDigit_spec in Hd2.
      destruct (d =? 48); [|reflexivity].
      destruct (Z.eqb_spec d2 120); [lia|]. destruct (Z.eqb_spec d2 88); [lia|].
      destruct (Z.eqb_spec d2 111); [lia|]. destruct (Z.eqb_spec d2 79); [lia|].
      destruct (Z.eqb_spec d2 98); [lia|]. destruct (Z.eqb_spec d2 66); [lia|].
      reflexivity. }
  rewrite Hnd. unfold parseUnsignedDecimal.
  rewrite (eqb_Infinity_digit d _ Hd).
  change (d :: m1' ++ h :: r1) with ((d :: m1') ++ h :: r1).
  destruct (takeWhile_app isDigit (d :: m1') (h :: r1) H1 G0) as [-> ->].
  rewrite G1. cbn [nonEmpty orb parseExponent]. rewrite G2, G3. reflexivity.
Qed.

(** ** Splitting what was joined *)

Lemma splitOn_nosep sep p :
  Forall (fun c => sep c = false) p -> splitOn sep p = [p].
Proof.
  induction 1 as [|c p Hc Hp IH]; [reflexivity|].
  cbn [splitOn]. rewrite Hc, IH. reflexivity.
Qed.

Lemma splitOn_app sep p x r :
  Forall (fun c => sep c = false) p -> sep x = true ->
  splitOn sep (p ++ x :: r) = p :: splitOn sep r.
Proof.
  intros Hp Hx. induction Hp as [|c p Hc Hp IH].
  - cbn [app splitOn]. rewrite Hx. reflexivity.
  - cbn [app splitOn]. rewrite Hc, IH. reflexivity.
Qed.

Lemma splitOn_join parts :
  parts <> [] ->
  Forall (Forall (fun c => isSeparator c = false)) parts ->
  splitOn isSeparator (join [44] parts) = parts.
Proof.
  intros Hne H. induction H as [|p rest Hp Hrest IH]; [contradiction|].
  destruct rest as [|q rest].
  - cbn [join]. apply splitOn_nosep. exact Hp.
  - change (join [44] (p :: q :: rest)) with (p ++ 44 :: join [44] (q :: rest)).
    rewrite splitOn_app by (assumption || reflexivity).
    rewrite IH by discriminate. reflexivity.
Qed.

Lemma okChar_noSep c : okChar c = true -> isSeparator c = false.
Proof.
  unfold okChar, isDigit, isSeparator. intros H.
  repeat (apply orb_true_iff in H; destruct H as [H|H]);
    try (apply andb_true_iff in H; destruct H as [H1 H2]; apply Z.leb_le in H1, H2);
    try apply Z.eqb_eq in H;
    apply orb_false_iff; split; apply Z.eqb_neq; lia.
Qed.

(** ** Parsing the parser's output *)

Lemma key_roundtrip x :
  isKey x ->
  StringToNumber (NumberToString x) = x
  /\ trim (NumberToString x) = NumberToString x
  /\ nonEmpty (NumberToString x) = true
  /\ Forall (fun c => isSeparator c = false) (NumberToString x)
  /\ matchRange (NumberToString x) = None.
Proof.
  intros (k & -> & Hd).
  destruct (number_string_roundtrip (Fin k) eq_refl Hd ltac:(discriminate))
    as (Hr & Hok & Hne).
  pose proof (allOk_trim _ Hok) as Ht.
  repeat split; try assumption.
  - destruct (NumberToString (Fin k)); [contradiction | reflexivity].
  - eapply Forall_impl; [|exact Hok]. intros c Hc. apply okChar_noSep. exact Hc.
  - destruct (matchRange (NumberToString (Fin k))) as [[m1 m2]|] eqn:E; [|reflexivity].
    apply matchRange_notNumber in E.
    unfold StringToNumber in Hr. rewrite Ht, E in Hr. discriminate.
Qed.

Lemma parseChunk_key fuel acc x :
  isKey x -> Forall isKey acc -> ~ In x acc ->
  parseChunk fuel acc (NumberToString x) = Some (acc ++ [x]).
Proof.
  intros Hx Hacc Hin.
  destruct (key_roundtrip x Hx) as (Hr & Ht & Hne & _ & Hm).
  unfold parseChunk. rewrite Ht, Hne, Hm. cbn [negb]. rewrite Hr.
  rewrite (isKey_finite x Hx).
  destruct Hx as (k & -> & _). rewrite setAdd_new by assumption. reflexivity.
Qed.

Lemma parseChunks_keys_back fuel l : forall acc,
  Forall isKey acc -> Forall isKey l -> NoDup (acc ++ l) ->
  parseChunks fuel acc (map NumberToString l) = Some (acc ++ l).
Proof.
  induction l as [|x l IH]; intros acc Hacc Hl Hn.
  - rewrite app_nil_r. reflexivity.
  - inversion Hl as [|? ? Hx Hl']; subst. cbn [map parseChunks].
    assert (Hin : ~ In x acc).
    { intros Hi. apply NoDup_remove_2 in Hn. apply Hn. apply in_or_app. left. exact Hi. }
    rewrite (parseChunk_key fuel acc x Hx Hacc Hin).
    replace (acc ++ x :: l) with ((acc ++ [x]) ++ l) in * by (rewrite <- app_assoc; reflexivity).
    apply IH; try assumption.
    apply Forall_app. split; [assumption | constructor; [assumption | constructor]].
Qed.

Lemma parseDropKeys_joinKeys fuel out :
  Forall isKey out -> NoDup out -> sortedBy sub out ->
  parseDropKeys fuel (joinKeys out) = Some out.
Proof.
  intros Hk Hn Hs. unfold parseDropKeys, joinKeys.
  destruct out as [|x out].
  - reflexivity.
  - rewrite splitOn_join.
    + rewrite (parseChunks_keys_back fuel (x :: out) [] (Forall_nil _) Hk Hn).
      cbn [app]. rewrite (sortBy_fixed sub _ Hs). reflexivity.
    + discriminate.
    + apply Forall_forall. intros p Hp. apply in_map_iff in Hp.
      destruct Hp as (y & <- & Hy).
      apply key_roundtrip. eapply Forall_forall; [exact Hk | exact Hy].
Qed.

(** C9. Parsing is idempotent: when [parseDropKeys] returns [out] on an input
    string, writing [out] back as a comma-separated list ([out.join(',')]) and
    parsing it again returns exactly [out], with any fuel (the second parse
    meets no range, so it always returns). *)
Theorem parseDropKeys_idempotent fuel s out :
  parseDropKeys fuel s = Some out ->
  forall fuel', parseDropKeys fuel' (joinKeys out) = Some out.
Proof.
  intros H fuel'. destruct (parseDropKeys_keys fuel s out H) as (Hk & Hn & Hs).
  apply parseDropKeys_joinKeys; assumption.
Qed.

(** ** Integers below 2^53 are doubles, and counting them is exact *)

Lemma pow2_1127 : 2 ^ 53 * SCALE < OVERFLOW.
Proof.
  unfold SCALE, SHIFT, OVERFLOW. rewrite <- Z.pow_add_r by lia.
  apply Z.pow_lt_mono_r; lia.
Qed.

Lemma round_small n :
  0 <= n <= 2 ^ 53 -> round false (n * SCALE) 1 = Fin (n * SCALE).
Proof.
  intros Hn. unfold round.
  assert (E : roundMag (n * SCALE) 1 = Some (n * SCALE)).
  { unfold SCALE. apply roundMag_dyadic; [assumption | unfold SHIFT; lia |].
    fold SCALE. pose proof pow2_1127. pose proof SCALE_pos. nia. }
  rewrite E. destruct (n * SCALE); reflexivity.
Qed.

Lemma ofZ_small n : 0 <= n <= 2 ^ 53 -> ofZ n = Fin (n * SCALE).
Proof.
  intros Hn. unfold ofZ. destruct (Z.ltb_spec n 0); [lia|].
  rewrite Z.abs_eq by lia. apply round_small. exact Hn.
Qed.

Lemma add_one_small n :
  0 <= n < 2 ^ 53 -> add (Fin (n * SCALE)) one = Fin ((n + 1) * SCALE).
Proof.
  intros Hn. unfold add, one. cbn [toZ]. pose proof SCALE_pos.
  replace (n * SCALE + SCALE) with ((n + 1) * SCALE) by ring.
  destruct (Z.eqb_spec ((n + 1) * SCALE) 0); [nia|].
  destruct (Z.ltb_spec ((n + 1) * SCALE) 0); [nia|].
  rewrite Z.abs_eq by nia. apply round_small. lia.
Qed.

Lemma StringToNumber_integer m :
  allDigits m -> m <> [] -> valueOf 10 m <= 2 ^ 53 ->
  StringToNumber m = Fin (valueOf 10 m * SCALE).
Proof.
  intros Hm Hne Hv. rewrite StringToNumber_digits by assumption.
  unfold decValue. cbn [Z.leb Z.compare]. rewrite Z.pow_0_r, Z.mul_1_r.
  apply round_small. split; [apply valueOf_radix_nonneg; lia | exact Hv].
Qed.

(** A range loop over integers below [2^53] ends after [b - a + 1] rounds. *)
Lemma rangeLoop_returns fuel : forall a b out,
  0 <= a <= b + 1 -> b < 2 ^ 53 -> b + 1 - a <= Z.of_nat fuel ->
  exists out', rangeLoop fuel (Fin (a * SCALE)) (Fin (b * SCALE)) out = Some out'.
Proof.
  pose proof SCALE_pos as HS.
  induction fuel as [|fuel IH]; intros a b out Ha Hb Hf; cbn [rangeLoop Num.leb toZ].
  - destruct (Z.leb_spec (a * SCALE) (b * SCALE)); [nia|]. eexists. reflexivity.
  - destruct (Z.leb_spec (a * SCALE) (b * SCALE)); [|eexists; reflexivity].
    assert (a <= b) by nia.
    rewrite add_one_small by lia. apply IH; lia.
Qed.

Lemma parseChunk_returns fuel out chunk :
  withinFuel fuel chunk -> exists out', parseChunk fuel out chunk = Some out'.
Proof.
  unfold withinFuel, rangeBounds, parseChunk. intros H.
  destruct (negb (nonEmpty (trim chunk))); [eexists; reflexivity|].
  destruct (matchRange (trim chunk)) as [[m1 m2]|] eqn:E.
  - destruct (matchRange_groups _ _ _ E) as (H1 & N1 & H2 & N2 & _).
    destruct H as (Ha & Hb & Hf).
    rewrite (StringToNumber_integer m1), (StringToNumber_integer m2) by (assumption || lia).
    cbn [isFinite andb Num.leb toZ].
    destruct (Z.leb_spec (valueOf 10 m1 * SCALE) (valueOf 10 m2 * SCALE));
      [|eexists; reflexivity].
    pose proof SCALE_pos.
    apply rangeLoop_returns; try assumption.
    split; [apply valueOf_radix_nonneg; lia | nia].
  - destruct (isFinite (StringToNumber (trim chunk))); eexists; reflexivity.
Qed.

Lemma parseChunks_returns fuel chunks : forall out,
  Forall (withinFuel fuel) chunks ->
  exists out', parseChunks fuel out chunks = Some out'.
Proof.
  induction chunks as [|c cs IH]; intros out H; cbn [parseChunks].
  - eexists. reflexivity.
  - inversion H as [|? ? Hc Hcs]; subst.
    destruct (parseChunk_returns fuel out c Hc) as [o ->]. apply IH. exact Hcs.
Qed.


(** At [2^53] the counter of a range loop stops advancing: [2^53 + 1] rounds
    back to [2^53]. *)
Lemma rangeLoop_stuck fuel : forall out,
  rangeLoop fuel (Fin (2 ^ 53 * SCALE)) (Fin (2 ^ 53 * SCALE)) out = None.
Proof.
  assert (E : add (Fin (2 ^ 53 * SCALE)) one = Fin (2 ^ 53 * SCALE))
    by (vm_compute; reflexivity).
  induction fuel as [|fuel IH]; intros out; cbn [rangeLoop Num.leb toZ];
    rewrite Z.leb_refl; [reflexivity|].
  rewrite E. apply IH.
Qed.

Theorem parseDropKeys_diverges fuel :
  parseDropKeys fuel (js "9007199254740992-9007199254740992") = None.
Proof.
  unfold parseDropKeys.
  change (splitOn isSeparator (js "9007199254740992-9007199254740992"))
    with [js "9007199254740992-9007199254740992"].
  cbn [parseChunks]. unfold parseChunk.
  replace (trim (js "9007199254740992-9007199254740992"))
    with (js "9007199254740992-9007199254740992") by (vm_compute; reflexivity).
  replace (matchRange (js "9007199254740992-9007199254740992"))
    with (Some (js "9007199254740992", js "9007199254740992")) by (vm_compute; reflexivity).
  cbn [nonEmpty negb js].
  assert (E : StringToNumber (js "9007199254740992") = Fin (2 ^ 53 * SCALE))
    by (vm_compute; reflexivity).
  change (negb (nonEmpty (js "9007199254740992-9007199254740992"))) with false.
  cbv iota. rewrite E. cbn [isFinite andb Num.leb toZ]. rewrite Z.leb_refl.
  rewrite rangeLoop_stuck. reflexivity.
Qed.

(** ** The random index stays inside the array *)

Lemma SCALE_GAP : SCALE = 2 ^ 53 * GAP.
Proof. unfold SCALE, SHIFT, GAP. rewrite <- Z.pow_add_r by lia. reflexivity. Qed.

Lemma GAP_pos : 0 < GAP.
Proof. unfold GAP. apply Z.pow_pos_nonneg; lia. Qed.

(** A double below 1 is at most [1 - 2^-53]. *)
Lemma below_one k :
  0 <= k < SCALE -> isDouble (Fin k) = true -> k + GAP <= SCALE.
Proof.
  intros Hk Hd. unfold isDouble in Hd. rewrite Z.abs_eq in Hd by lia.
  destruct (roundMag k 1) as [k'|] eqn:E; [|discriminate].
  apply Z.eqb_eq in Hd. subst k'.
  destruct (roundMag_shape k 1 k ltac:(lia) ltac:(lia) E) as (n & e & Hn & He & Hke & _).
  pose proof GAP_pos as HG. rewrite SCALE_GAP in *.
  destruct (Z.le_gt_cases 1021 e) as [Hge|Hlt].
  - assert (E2 : 2 ^ e = 2 ^ (e - 1021) * GAP).
    { unfold GAP. rewrite <- Z.pow_add_r by lia. f_equal. lia. }
    assert (0 < 2 ^ (e - 1021)) by (apply Z.pow_pos_nonneg; lia).
    rewrite E2 in Hke.
    assert (n * 2 ^ (e - 1021) < 2 ^ 53) by nia.
    nia.
  - assert (E2 : GAP = 2 ^ e * 2 ^ (1021 - e)).
    { unfold GAP. rewrite <- Z.pow_add_r by lia. f_equal. lia. }
    assert (2 <= 2 ^ (1021 - e)).
    { change 2 with (2 ^ 1) at 1. apply Z.pow_le_mono_r; lia. }
    assert (0 < 2 ^ e) by (apply Z.pow_pos_nonneg; lia).
    assert (n * 2 ^ e * 2 <= 2 ^ 53 * GAP) by (rewrite E2; nia).
    assert (2 <= 2 ^ 53) by (change 2 with (2 ^ 1) at 1; apply Z.pow_le_mono_r; lia).
    nia.
Qed.

(** The rounded product of a double below 1 and an integer [len] below
    [2^53] is below [len]. *)
Lemma roundMag_product k len :
  0 <= k < SCALE -> isDouble (Fin k) = true -> 0 < len < 2 ^ 53 ->
  exists k', roundMag (k * len) 1 = Some k' /\ 0 <= k' < len * SCALE.
Proof.
  intros Hk Hd Hlen.
  pose proof (below_one k Hk Hd) as Hgap.
  pose proof GAP_pos as HG. pose proof SCALE_pos as HS. pose proof pow2_1127 as HO.
  assert (HP : 0 <= k * len) by nia.
  assert (HPT : k * len + len * GAP <= len * SCALE) by nia.
  unfold roundMag. rewrite Z.div_1_r, Z.mul_1_l.
  set (P := k * len) in *. set (sh := shiftOf P).
  assert (Hsh : 0 <= sh) by apply shiftOf_nonneg.
  assert (HA : 0 < 2 ^ sh) by (apply Z.pow_pos_nonneg; lia).
  assert (Hbound : 0 <= rnd_div P (2 ^ sh) * 2 ^ sh < len * SCALE).
  { split; [pose proof (rnd_div_nonneg P (2 ^ sh) HP HA); nia|].
    unfold sh, shiftOf in *.
    destruct (Z.max_spec 0 (Z.log2 P - 52)) as [[Hlt Hm]|[Hle Hm]]; rewrite Hm in *.
    2:{ rewrite Z.pow_0_r, Z.mul_1_r.
        replace P with (P * 1) at 1 by ring. rewrite rnd_div_exact by lia. lia. }
    assert (HP0 : 0 < P).
    { destruct (Z.eq_dec P 0) as [E0|]; [rewrite E0 in Hlt; cbn in Hlt; lia | lia]. }
    set (s := Z.log2 P - 52) in *.
    assert (Hlow : 2 ^ s * 2 ^ 52 <= P).
    { rewrite <- Z.pow_add_r by lia. replace (s + 52) with (Z.log2 P) by (unfold s; lia).
      apply Z.log2_spec. exact HP0. }
    assert (Hs : s <= 1074).
    { assert (2 ^ (s + 52) < 2 ^ 1127).
      { rewrite Z.pow_add_r by lia.
        replace (2 ^ 1127) with (2 ^ 53 * SCALE)
          by (unfold SCALE, SHIFT; rewrite <- Z.pow_add_r by lia; reflexivity).
        nia. }
      apply Z.pow_lt_mono_r_iff in H; lia. }
    assert (EC : SCALE = 2 ^ s * 2 ^ (1074 - s)).
    { unfold SCALE, SHIFT. rewrite <- Z.pow_add_r by lia. f_equal. lia. }
    assert (HC : 0 < 2 ^ (1074 - s)) by (apply Z.pow_pos_nonneg; lia).
    set (A := 2 ^ s) in *. set (C := 2 ^ (1074 - s)) in *.
    assert (E52 : 2 ^ 53 = 2 * 2 ^ 52) by reflexivity.
    assert (H52 : 0 < 2 ^ 52) by reflexivity.
    set (Q := 2 ^ 52) in *.
    (* the quotient and the remainder of the division by the spacing *)
    pose proof (Z.div_mod P A ltac:(lia)) as Hdm.
    pose proof (Z.mod_pos_bound P A HA) as Hrem.
    assert (Hq : P / A < len * C).
    { apply Z.div_lt_upper_bound; [exact HA|]. rewrite EC in HPT. nia. }
    assert (Hr : rnd_div P A <= len * C - 1).
    { unfold rnd_div.
      destruct (Z.compare_spec (2 * (P mod A)) A) as [Hc|Hc|Hc]; [|lia|].
      - destruct (Z.even (P / A)); [lia|].
        destruct (Z.eq_dec (P / A + 1) (len * C)) as [Ht|]; [|lia].
        exfalso. rewrite SCALE_GAP in EC. rewrite E52 in EC.
        assert (P = A * (len * C) - A + P mod A) by nia.
        assert (len * (2 * Q * GAP) = A * (len * C)) by (rewrite EC; ring).
        rewrite SCALE_GAP, E52 in HPT. nia.
      - destruct (Z.eq_dec (P / A + 1) (len * C)) as [Ht|]; [|lia].
        exfalso. rewrite SCALE_GAP in EC. rewrite E52 in EC.
        assert (P = A * (len * C) - A + P mod A) by nia.
        assert (len * (2 * Q * GAP) = A * (len * C)) by (rewrite EC; ring).
        rewrite SCALE_GAP, E52 in HPT. nia. }
    rewrite EC. nia. }
  exists (rnd_div P (2 ^ sh) * 2 ^ sh). split; [|exact Hbound].
  destruct (Z.ltb_spec (rnd_div P (2 ^ sh) * 2 ^ sh) OVERFLOW); [reflexivity|].
  nia.
Qed.

Lemma mul_random_length k len :
  0 <= k < SCALE -> isDouble (Fin k) = true -> 0 < len < 2 ^ 53 ->
  exists k', mul (Fin k) (ofZ len) = Fin k' /\ 0 <= k' < len * SCALE.
Proof.
  intros Hk Hd Hlen. pose proof SCALE_pos as HS.
  rewrite ofZ_small by lia.
  unfold mul. cbn [isNeg toZ].
  destruct (Z.ltb_spec k 0); [lia|]. destruct (Z.ltb_spec (len * SCALE) 0); [nia|].
  cbn [xorb]. rewrite !Z.abs_eq by nia.
  replace (k * (len * SCALE)) with (SCALE * (k * len)) by ring.
  pose proof (round_scale false SCALE (k * len) 1 HS ltac:(lia)) as R.
  rewrite Z.mul_1_r in R. rewrite R.
  destruct (roundMag_product k len Hk Hd Hlen) as (k' & E & Hk').
  unfold round. rewrite E. exists k'. split; [|exact Hk'].
  destruct k'; reflexivity.
Qed.

Lemma element_floor arr k :
  0 <= k < Z.of_nat (List.length arr) * SCALE ->
  exists x, In x arr /\ element arr (floor (Fin k)) = VNum x.
Proof.
  intros Hk. pose proof SCALE_pos as HS.
  unfold element, floor, toIndex.
  assert (Hq : 0 <= k / SCALE < Z.of_nat (List.length arr)).
  { split; [apply Z.div_pos; lia | apply Z.div_lt_upper_bound; nia]. }
  destruct (Z.leb_spec 0 (k / SCALE * SCALE)); [|nia].
  rewrite Z.mod_mul by lia. cbn [Z.eqb andb]. rewrite Z.div_mul by lia.
  destruct (nth_error arr (Z.to_nat (k / SCALE))) as [x|] eqn:E.
  - exists x. split; [eapply nth_error_In; exact E | reflexivity].
  - apply nth_error_None in E. lia.
Qed.

(** [pickRandom] returns an element of a non-empty array. *)
Theorem pickRandom_member r arr :
  isRandom r -> arr <> [] -> Z.of_nat (List.length arr) < 2 ^ 32 ->
  exists x, In x arr /\ pickRandom r arr = VNum x.
Proof.
  intros (k & -> & Hk & Hd) Hne Hlen. unfold pickRandom.
  assert (Hl : 0 < Z.of_nat (List.length arr) < 2 ^ 53).
  { split; [destruct arr; [contradiction | cbn [List.length]; lia]|].
    assert (2 ^ 32 < 2 ^ 53) by (apply Z.pow_lt_mono_r; lia). lia. }
  destruct (mul_random_length k _ Hk Hd Hl) as (k' & -> & Hk').
  apply element_floor. exact Hk'.
Qed.

(** ** Upstream calls, step by step *)

Lemma Str_eqb_eq s t : Str.eqb s t = true <-> s = t.
Proof.
  revert t. induction s as [|c s IH]; intros [|d t]; cbn [Str.eqb]; split;
    try discriminate; try reflexivity.
  - intros H. apply andb_true_iff in H. destruct H as [H1 H2].
    apply Z.eqb_eq in H1. apply IH in H2. subst. reflexivity.
  - intros [= -> ->]. rewrite Z.eqb_refl. apply IH. reflexivity.
Qed.

Section UpstreamCalls.

Variables (w : world) (cfg : config).

Lemma verifyTicket_resolved appid ticket steamid data tr :
  http w (verifyCall cfg appid ticket) = Return data ->
  verifyTicket w cfg appid ticket steamid tr
  = (Return (if serviceOk data && identityAgrees steamid data
             then VObj [(js "ok", VBool true); (js "steamid", authSteamId data)]
             else VObj [(js "ok", VBool false);
                        (js "reason", VStr (if serviceOk data then js "steamid_mismatch"
                                            else js "auth_failed"));
                        (js "raw", data)]),
     tr ++ [verifyCall cfg appid ticket]).
Proof.
  intros H. unfold verifyTicket, bind, axios, ret.
  fold (verifyCall cfg appid ticket). rewrite H. reflexivity.
Qed.

Lemma verifyTicket_rejected appid ticket steamid e tr :
  http w (verifyCall cfg appid ticket) = Throw e ->
  verifyTicket w cfg appid ticket steamid tr = (Throw e, tr ++ [verifyCall cfg appid ticket]).
Proof.
  intros H. unfold verifyTicket, bind, axios, ret.
  fold (verifyCall cfg appid ticket). rewrite H. reflexivity.
Qed.

Lemma grantItem_resolved appid steamid itemdefid quantity data tr :
  http w (grantCall cfg appid steamid itemdefid quantity) = Return data ->
  grantItem w cfg appid steamid itemdefid quantity tr
  = (match grantItems data with
     | VUndefined | VNull =>
         Throw (TypeError (js "Cannot read properties of null or undefined"))
     | items =>
         Return (VObj [(js "ok",
                        VBool (flagsOk data
                               || isString (getProp (grantResp data) (js "item_json"))
                                  && gtZero (getProp items (js "length"))));
                       (js "items", items); (js "raw", data)])
     end,
     tr ++ [grantCall cfg appid steamid itemdefid quantity]).
Proof.
  intros H. unfold grantItem, bind, axios, ret, lift.
  fold (grantCall cfg appid steamid itemdefid quantity). rewrite H.
  fold (grantResp data). unfold grantItems, flagsOk.
  destruct (getProp (grantResp data) (js "item_json")) as [| | | |j| | |];
    try (cbn [isString andb]; rewrite orb_false_r; reflexivity).
  cbn [isString andb].
  destruct (JSON_parse j) as [v|].
  - destruct v; cbn [getMember]; try reflexivity;
      match goal with
      | |- context [gtZero ?l] => destruct (gtZero l);
          rewrite ?orb_true_r, ?orb_false_r; reflexivity
      end.
  - cbn [getMember].
    destruct (gtZero (getProp (VArr []) (js "length")));
      rewrite ?orb_true_r, ?orb_false_r; reflexivity.
Qed.

Lemma grantItem_rejected appid steamid itemdefid quantity e tr :
  http w (grantCall cfg appid steamid itemdefid quantity) = Throw e ->
  grantItem w cfg appid steamid itemdefid quantity tr
  = (Throw e, tr ++ [grantCall cfg appid steamid itemdefid quantity]).
Proof.
  intros H. unfold grantItem, bind, axios.
  fold (grantCall cfg appid steamid itemdefid quantity). rewrite H. reflexivity.
Qed.

End UpstreamCalls.

Lemma destructure_object v name :
  truthy (getProp v name) = true -> destructure v = ret v.
Proof. destruct v; cbn; try discriminate; reflexivity. Qed.

(** ** Routes *)

(** What open-chest does once the request and the configuration have passed
    the checks, by the replies of the two services. *)
Lemma openChestBody_checked w cfg reqBody :
  fieldsPresent reqBody = true ->
  truthy (keyVal cfg) = true ->
  DROP_KEYS cfg <> [] ->
  openChestBody w cfg reqBody []
  = match http w (chestVerifyCall cfg reqBody) with
    | Throw e => (Throw e, [chestVerifyCall cfg reqBody])
    | Return data =>
        if serviceOk data && identityAgrees (getProp reqBody (js "steamid")) data
        then
          match http w (chestGrantCall w cfg reqBody) with
          | Throw e => (Throw e, [chestVerifyCall cfg reqBody; chestGrantCall w cfg reqBody])
          | Return gdata =>
              (match grantItems gdata with
               | VUndefined | VNull =>
                   Throw (TypeError (js "Cannot read properties of null or undefined"))
               | items =>
                   Return
                     (if flagsOk gdata
                         || isString (getProp (grantResp gdata) (js "item_json"))
                            && gtZero (getProp items (js "length"))
                      then json 200 (VObj [(js "ok", VBool true);
                                           (js "itemdefid",
                                            pickRandom (random w) (DROP_KEYS cfg));
                                           (js "grant", gdata)])
                      else json 502 (VObj [(js "error", VStr (js "grant_failed"));
                                           (js "raw", gdata)]))
               end,
               [chestVerifyCall cfg reqBody; chestGrantCall w cfg reqBody])
          end
        else
          (Return (json 401
                     (VObj [(js "error",
                             VStr (if serviceOk data then js "steamid_mismatch"
                                   else js "auth_failed"));
                            (js "raw", data)])),
           [chestVerifyCall cfg reqBody])
    end.
Proof.
  intros Hf Hk Hp. unfold fieldsPresent in Hf.
  apply andb_true_iff in Hf. destruct Hf as [Hf Ht].
  apply andb_true_iff in Hf. destruct Hf as [Ha Hs].
  unfold openChestBody. rewrite (destructure_object _ _ Ha).
  unfold bind at 1. unfold ret at 1.
  rewrite Ha, Hs, Ht, Hk. cbn [negb orb].
  destruct (DROP_KEYS cfg) as [|x0 pool] eqn:Epool; [contradiction|].
  cbn [List.length Nat.eqb]. rewrite <- Epool.
  unfold limiterConsume. unfold bind at 1. unfold ret at 1.
  unfold bind at 1. fold (chestVerifyCall cfg reqBody).
  destruct (http w (chestVerifyCall cfg reqBody)) as [data|e] eqn:Ev.
  - unfold chestVerifyCall in Ev.
    rewrite (verifyTicket_resolved _ _ _ _ _ _ _ Ev). cbn [app].
    fold (chestVerifyCall cfg reqBody).
    destruct (serviceOk data && identityAgrees (getProp reqBody (js "steamid")) data) eqn:Eok.
    + cbn [getProp lookup]. 
      change (Str.eqb (js "ok") (js "ok")) with true. cbv iota. cbn [truthy negb].
      unfold bind. fold (chestGrantCall w cfg reqBody).
      destruct (http w (chestGrantCall w cfg reqBody)) as [gdata|e] eqn:Eg.
      * unfold chestGrantCall in Eg.
        rewrite (grantItem_resolved _ _ _ _ _ _ _ _ Eg). cbn [app].
        fold (chestGrantCall w cfg reqBody).
        destruct (grantItems gdata) eqn:Ei; try reflexivity;
          cbn [getProp lookup];
          change (Str.eqb (js "ok") (js "ok")) with true; cbv iota; cbn [truthy negb];
          match goal with
          | |- context [flagsOk gdata || ?b] => destruct (flagsOk gdata || b)
          end; reflexivity.
      * unfold chestGrantCall in Eg.
        rewrite (grantItem_rejected _ _ _ _ _ _ _ _ Eg). reflexivity.
    + cbn [getProp lookup].
      change (Str.eqb (js "ok") (js "ok")) with true. cbv iota. cbn [truthy negb].
      unfold ret. do 3 f_equal.
      change (lookup (js "reason") ?l) with
        (VStr (if serviceOk data then js "steamid_mismatch" else js "auth_failed")).
      destruct (serviceOk data); reflexivity.
  - unfold chestVerifyCall in Ev.
    rewrite (verifyTicket_rejected _ _ _ _ _ _ _ Ev). reflexivity.
Qed.

Lemma openChest_unchecked w cfg reqBody :
  chestChecked cfg reqBody = false ->
  snd (openChest w cfg reqBody) = []
  /\ (status (fst (openChest w cfg reqBody)) = 400
      \/ status (fst (openChest w cfg reqBody)) = 500).
Proof.
  unfold chestChecked, fieldsPresent, openChest, tryCatch, openChestBody.
  intros H.
  assert (D : destructure reqBody = ret reqBody
              \/ exists e, destructure reqBody = throw e).
  { destruct reqBody; cbn [destructure]; try (left; reflexivity); right; eexists; reflexivity. }
  destruct D as [D|[e D]]; rewrite D; unfold bind, ret, throw; [|cbn; auto].
  destruct (truthy (getProp reqBody (js "appid"))); [|cbn; auto].
  destruct (truthy (getProp reqBody (js "steamid"))); [|cbn; auto].
  destruct (truthy (getProp reqBody (js "ticket"))); [|cbn; auto].
  cbn [negb orb andb] in *.
  destruct (truthy (keyVal cfg)); [|cbn; auto].
  cbn [negb andb] in *.
  destruct (List.length (DROP_KEYS cfg) =? 0)%nat; [cbn; auto | discriminate].
Qed.

Lemma chestChecked_spec cfg reqBody :
  chestChecked cfg reqBody = true ->
  fieldsPresent reqBody = true /\ truthy (keyVal cfg) = true /\ DROP_KEYS cfg <> [].
Proof.
  unfold chestChecked. intros H.
  apply andb_true_iff in H. destruct H as [H Hp].
  apply andb_true_iff in H. destruct H as [Hf Hk].
  repeat split; try assumption.
  intros E. rewrite E in Hp. discriminate.
Qed.

(** C1. When open-chest answers 200 (verification and grant both
    succeeded), the [itemdefid] of the response is an element of the
    configured pool [DROP_KEYS], for every draw [Math.random()] can return (a
    double in [[0, 1)]) and every pool a JavaScript array can hold. A
    successful answer implies the pool has at least one element. *)
Theorem openChest_item_in_pool w cfg reqBody resp tr :
  isRandom (random w) ->
  Z.of_nat (List.length (DROP_KEYS cfg)) < 2 ^ 32 ->
  openChest w cfg reqBody = (resp, tr) ->
  status resp = 200 ->
  exists x, In x (DROP_KEYS cfg)
            /\ getProp (body resp) (js "itemdefid") = VNum x.
Proof.
  intros Hr Hlen Hrun Hst.
  destruct (chestChecked cfg reqBody) eqn:Ec.
  2:{ destruct (openChest_unchecked w cfg reqBody Ec) as [_ Hs].
      rewrite Hrun in Hs. cbn [fst] in Hs. lia. }
  destruct (chestChecked_spec _ _ Ec) as (Hf & Hk & Hp).
  destruct (pickRandom_member (random w) (DROP_KEYS cfg) Hr Hp Hlen) as (x & Hin & Hx).
  exists x. split; [exact Hin|].
  unfold openChest, tryCatch in Hrun.
  rewrite (openChestBody_checked w cfg reqBody Hf Hk Hp) in Hrun.
  destruct (http w (chestVerifyCall cfg reqBody)) as [data|e].
  2:{ injection Hrun as <- _. discriminate Hst. }
  destruct (serviceOk data && identityAgrees _ data).
  2:{ injection Hrun as <- _. discriminate Hst. }
  destruct (http w (chestGrantCall w cfg reqBody)) as [gdata|e].
  2:{ injection Hrun as <- _. discriminate Hst. }
  destruct (grantItems gdata);
    try (injection Hrun as <- _; discriminate Hst);
    match type of Hrun with
    | context [flagsOk gdata || ?b] => destruct (flagsOk gdata || b)
    end;
    injection Hrun as <- _; try discriminate Hst; exact Hx.
Qed.

(** C6. With [appid], [steamid] and [ticket] present and the publisher key
    configured, an empty pool makes open-chest answer 500
    [server_not_configured] with no outbound request made, whatever the
    upstream services would have answered. *)
Theorem openChest_empty_pool w cfg reqBody :
  fieldsPresent reqBody = true ->
  truthy (keyVal cfg) = true ->
  DROP_KEYS cfg = [] ->
  openChest w cfg reqBody
  = (json 500 (errorBody (js "server_not_configured")), []).
Proof.
  intros Hf Hk Hp. unfold fieldsPresent in Hf.
  apply andb_true_iff in Hf. destruct Hf as [Hf Ht].
  apply andb_true_iff in Hf. destruct Hf as [Ha Hs].
  unfold openChest, tryCatch, openChestBody.
  rewrite (destructure_object _ _ Ha). unfold bind, ret.
  rewrite Ha, Hs, Ht, Hk, Hp. reflexivity.
Qed.

(** C10. Every request open-chest sends to the identity service carries the
    [appid] of the request body, converted with [Number]; every request it
    sends to the inventory service carries the configured [APPID]. A request
    that succeeds has made exactly these two requests, so a body [appid]
    other than the configured one is verified under one identifier and
    granted under the other. *)
Theorem openChest_appids w cfg reqBody resp tr :
  openChest w cfg reqBody = (resp, tr) ->
  (forall c, In c tr ->
     callAppid c = if isGet c
                   then VNum (ToNumber (getProp reqBody (js "appid")))
                   else VStr (ToString (VNum (APPID cfg))))
  /\ (status resp = 200 ->
      tr = [chestVerifyCall cfg reqBody; chestGrantCall w cfg reqBody]).
Proof.
  intros Hrun.
  assert (HV : callAppid (chestVerifyCall cfg reqBody)
               = VNum (ToNumber (getProp reqBody (js "appid")))) by reflexivity.
  assert (HG : callAppid (chestGrantCall w cfg reqBody)
               = VStr (ToString (VNum (APPID cfg)))) by reflexivity.
  destruct (chestChecked cfg reqBody) eqn:Ec.
  2:{ destruct (openChest_unchecked w cfg reqBody Ec) as [Htr Hs].
      rewrite Hrun in Htr, Hs. cbn [fst snd] in *. subst tr.
      split; [intros c []|]. intros. lia. }
  destruct (chestChecked_spec _ _ Ec) as (Hf & Hk & Hp).
  unfold openChest, tryCatch in Hrun.
  rewrite (openChestBody_checked w cfg reqBody Hf Hk Hp) in Hrun.
  assert (One : forall c, In c [chestVerifyCall cfg reqBody] ->
            callAppid c = if isGet c
                          then VNum (ToNumber (getProp reqBody (js "appid")))
                          else VStr (ToString (VNum (APPID cfg)))).
  { intros c [<-|[]]. exact HV. }
  assert (Two : forall c, In c [chestVerifyCall cfg reqBody; chestGrantCall w cfg reqBody] ->
            callAppid c = if isGet c
                          then VNum (ToNumber (getProp reqBody (js "appid")))
                          else VStr (ToString (VNum (APPID cfg)))).
  { intros c [<-|[<-|[]]]; [exact HV | exact HG]. }
  destruct (http w (chestVerifyCall cfg reqBody)) as [data|e].
  2:{ injection Hrun as <- <-. split; [exact One | discriminate]. }
  destruct (serviceOk data && identityAgrees _ data).
  2:{ injection Hrun as <- <-. split; [exact One | discriminate]. }
  destruct (http w (chestGrantCall w cfg reqBody)) as [gdata|e].
  2:{ injection Hrun as <- <-. split; [exact Two | discriminate]. }
  destruct (grantItems gdata); injection Hrun as <- <-; (split; [exact Two | reflexivity]).
Qed.

(** ** Errors *)

(** C7. In each of verify-only, grant-only and open-chest, an error [e] thrown
    anywhere in the handler (the destructuring of the body, an upstream call
    axios rejects, the reading of the reply) is caught: the route answers 500
    [server_error] with [details], which is the upstream status code
    [e.response.status] when there is one, and the error's message
    otherwise. A route always returns a response. *)
Theorem errors_become_500 r w cfg reqBody e tr :
  routeBody r w cfg reqBody [] = (Throw e, tr) ->
  exists details,
    runRoute r w cfg reqBody
    = (json 500 (VObj [(js "error", VStr (js "server_error"));
                       (js "details", details)]), tr)
    /\ (truthy (upstreamStatus e) = true -> details = upstreamStatus e)
    /\ (truthy (upstreamStatus e) = false ->
        truthy (optGet e (js "message")) = true ->
        details = optGet e (js "message")).
Proof.
  intros H.
  destruct r; cbn [routeBody runRoute] in *.
  - exists (errorDetails e). unfold verifyOnly, tryCatch. rewrite H.
    split; [reflexivity|]. unfold errorDetails, jsOr. fold (upstreamStatus e).
    split; intros ->; [reflexivity | intros _; reflexivity].
  - exists (errorDetails e). unfold grantOnly, tryCatch. rewrite H.
    split; [reflexivity|]. unfold errorDetails, jsOr. fold (upstreamStatus e).
    split; intros ->; [reflexivity | intros _; reflexivity].
  - exists (jsOr (errorDetails e) (VStr (ToString e))).
    unfold openChest, tryCatch. rewrite H.
    split; [reflexivity|]. unfold errorDetails, jsOr. fold (upstreamStatus e).
    destruct (truthy (upstreamStatus e)) eqn:Es.
    + rewrite Es. split; [reflexivity | discriminate].
    + split; [discriminate|]. intros _ ->. reflexivity.
Qed.

(** ** Health *)

Lemma health_key_set cfg key :
  PUBLISHER_KEY cfg = Some key -> key <> [] ->
  getProp (body (health cfg)) (js "has_key") = VBool true
  /\ getProp (body (health cfg)) (js "key_prefix") = VStr (firstn 6 key ++ [ELLIPSIS])
  /\ (isPrefix key (firstn 6 key ++ [ELLIPSIS]) = true
      <-> (List.length key <= 6)%nat \/ key = firstn 6 key ++ [ELLIPSIS]).
Proof.
  intros Hk Hne. unfold health, keyVal. rewrite Hk.
  destruct key as [|c key']; [contradiction|].
  split; [reflexivity|]. split; [reflexivity|].
  set (k := c :: key'). unfold isPrefix. rewrite Str_eqb_eq.
  destruct (Nat.le_gt_cases (List.length k) 6) as [Hle|Hgt].
  - split; [intros _; left; exact Hle|]. intros _.
    rewrite (firstn_all2 k Hle). rewrite firstn_app.
    rewrite Nat.sub_diag. cbn [firstn]. rewrite app_nil_r. apply firstn_all.
  - set (X := firstn 6 k ++ [ELLIPSIS]).
    assert (L : List.length X = 7%nat).
    { unfold X. rewrite length_app, length_firstn. cbn [List.length]. lia. }
    split.
    + intros H. right.
      assert (L2 : List.length (firstn (List.length k) X) = List.length k)
        by (rewrite H; reflexivity).
      rewrite length_firstn, L in L2.
      rewrite firstn_all2 in H by lia. symmetry. exact H.
    + intros [Hle|E]; [lia|].
      assert (EL : List.length k = List.length X) by (f_equal; exact E).
      rewrite EL, firstn_all. symmetry. exact E.
Qed.

(** C8, amended. With a publisher key set, the health endpoint reports
    [has_key: true] and [key_prefix] is the first 6 code units of the key
    followed by an ellipsis; the key is echoed in full exactly when it has at
    most 6 code units, or is 6 code units followed by an ellipsis, so never
    when it has more than 7. Without a key (unset or empty) [key_prefix] is
    [null] and [has_key] is [false]. *)
Theorem health_key_prefix cfg :
  (forall key,
     PUBLISHER_KEY cfg = Some key -> key <> [] ->
     getProp (body (health cfg)) (js "has_key") = VBool true
     /\ getProp (body (health cfg)) (js "key_prefix") = VStr (firstn 6 key ++ [ELLIPSIS])
     /\ (isPrefix key (firstn 6 key ++ [ELLIPSIS]) = true
         <-> (List.length key <= 6)%nat \/ key = firstn 6 key ++ [ELLIPSIS])
     /\ ((7 < List.length key)%nat -> isPrefix key (firstn 6 key ++ [ELLIPSIS]) = false))
  /\ (PUBLISHER_KEY cfg = None \/ PUBLISHER_KEY cfg = Some [] ->
      getProp (body (health cfg)) (js "has_key") = VBool false
      /\ getProp (body (health cfg)) (js "key_prefix") = VNull).
Proof.
  split.
  - intros key Hk Hne.
    destruct (health_key_set cfg key Hk Hne) as (H1 & H2 & H3).
    repeat split; try assumption; try apply H3.
    intros Hlen. apply not_true_is_false. intros E.
    apply H3 in E. destruct E as [E|E]; [lia|].
    apply (f_equal (@List.length Z)) in E.
    rewrite length_app, length_firstn in E. cbn [List.length] in E. lia.
  - intros [H|H]; unfold health, keyVal; rewrite H; split; reflexivity.
Qed.

(** ** verifyTicket *)

(** C3. On every reply [data] of the identity service, [verifyTicket] returns
    [ok: true] if and only if the service's result is the string ["OK"] and
    either no identity was claimed ([steamid] is falsy) or the claimed one
    is strictly equal to the one returned. Every other result has
    [ok: false], with reason [steamid_mismatch] when the service said ["OK"]
    and [auth_failed] otherwise. *)
Theorem verifyTicket_outcome w cfg appid ticket steamid data tr :
  http w (verifyCall cfg appid ticket) = Return data ->
  exists v,
    verifyTicket w cfg appid ticket steamid tr
    = (Return v, tr ++ [verifyCall cfg appid ticket])
    /\ (serviceOk data = true <-> authResult data = VStr (js "OK"))
    /\ (getProp v (js "ok") = VBool true
        <-> serviceOk data = true
            /\ (truthy steamid = false \/ strictEq steamid (authSteamId data) = true))
    /\ (getProp v (js "ok") <> VBool true ->
        getProp v (js "ok") = VBool false
        /\ getProp v (js "reason")
           = VStr (if serviceOk data then js "steamid_mismatch" else js "auth_failed")).
Proof.
  intros H. rewrite (verifyTicket_resolved _ _ _ _ steamid _ tr H).
  eexists. split; [reflexivity|]. split.
  { unfold serviceOk. destruct (authResult data); cbn [strictEq]; split;
      try discriminate. 
    - intros E. apply Str_eqb_eq in E. subst. reflexivity.
    - intros [= ->]. reflexivity. }
  unfold identityAgrees.
  destruct (serviceOk data) eqn:Es; destruct (truthy steamid) eqn:Et;
    destruct (strictEq steamid (authSteamId data)) eqn:Ee;
    cbn [andb negb orb getProp lookup];
    change (Str.eqb (js "ok") (js "ok")) with true;
    change (Str.eqb (js "ok") (js "reason")) with false;
    change (Str.eqb (js "reason") (js "reason")) with true;
    cbv iota;
    (split; [split; [intros E | intros [E1 [E2|E2]]] | intros E]);
    try discriminate; try reflexivity; try (split; reflexivity);
    try (split; [reflexivity | (left; reflexivity) || (right; reflexivity)]);
    try (exfalso; apply E; reflexivity).
Qed.

(** C5, amended. On every reply [data] of the identity service, a failed
    result of [verifyTicket] carries the reply as [raw]; a successful result
    is [{ ok: true, steamid }] and has no [raw]. *)
Theorem verifyTicket_raw w cfg appid ticket steamid data tr :
  http w (verifyCall cfg appid ticket) = Return data ->
  exists v,
    verifyTicket w cfg appid ticket steamid tr
    = (Return v, tr ++ [verifyCall cfg appid ticket])
    /\ (getProp v (js "ok") = VBool false -> getProp v (js "raw") = data)
    /\ (getProp v (js "ok") = VBool true ->
        v = VObj [(js "ok", VBool true); (js "steamid", authSteamId data)]
        /\ getProp v (js "raw") = VUndefined).
Proof.
  intros H. rewrite (verifyTicket_resolved _ _ _ _ steamid _ tr H).
  eexists. split; [reflexivity|].
  destruct (serviceOk data && identityAgrees steamid data); split.
  - intros E. discriminate E.
  - intros _. split; reflexivity.
  - intros _. reflexivity.
  - intros E. discriminate E.
Qed.

(** ** grantItem *)

(** Whenever [grantItem] returns, its result is the three-way disjunction over
    the reply, with the items parsed from [item_json] and the raw reply. *)
Theorem grantItem_returns w cfg appid steamid itemdefid quantity data tr g tr' :
  http w (grantCall cfg appid steamid itemdefid quantity) = Return data ->
  grantItem w cfg appid steamid itemdefid quantity tr = (Return g, tr') ->
  getProp g (js "ok")
  = VBool (flagsOk data
           || isString (getProp (grantResp data) (js "item_json"))
              && gtZero (getProp (grantItems data) (js "length")))
  /\ getProp g (js "items") = grantItems data
  /\ getProp g (js "raw") = data
  /\ (forall j, getProp (grantResp data) (js "item_json") = VStr j ->
                JSON_parse j = None ->
                grantItems data = VArr []
                /\ getProp g (js "ok") = VBool (flagsOk data)).
Proof.
  intros H Hrun. rewrite (grantItem_resolved _ _ _ _ _ _ _ tr H) in Hrun.
  assert (Hg : g = VObj [(js "ok",
                          VBool (flagsOk data
                                 || isString (getProp (grantResp data) (js "item_json"))
                                    && gtZero (getProp (grantItems data) (js "length"))));
                         (js "items", grantItems data); (js "raw", data)]).
  { destruct (grantItems data); try discriminate Hrun; injection Hrun as <- _; reflexivity. }
  subst g. split; [reflexivity|]. split; [reflexivity|]. split; [reflexivity|].
  intros j Hj Hp. split.
  - unfold grantItems. rewrite Hj, Hp. reflexivity.
  - unfold grantItems at 1. rewrite Hj, Hp. cbn [getProp lookup].
    change (Str.eqb (js "ok") (js "ok")) with true. cbv iota.
    replace (gtZero (getProp (VArr []) (js "length"))) with false by (vm_compute; reflexivity).
    rewrite andb_false_r, orb_false_r. reflexivity.
Qed.

(** ** The parser's output *)

(** C4, amended. Every element of what [parseDropKeys] returns is a finite
    Number, and a token contributes nothing (the set is left as it was, no
    error is raised) when it is neither a range [a-b] with [a <= b] nor a
    string that [Number] converts to a finite Number. Negative and
    fractional numbers are converted and kept. *)
Theorem parseDropKeys_output fuel s out :
  parseDropKeys fuel s = Some out ->
  Forall (fun x => isFinite x = true) out
  /\ forall acc chunk,
       isValidRange (trim chunk) = false ->
       isFiniteNumber (trim chunk) = false ->
       parseChunk fuel acc chunk = Some acc.
Proof.
  intros H. split.
  - destruct (parseDropKeys_keys fuel s out H) as (Hk & _ & _).
    eapply Forall_impl; [|exact Hk]. intros x Hx. apply isKey_finite. exact Hx.
  - intros acc chunk Hr Hn. unfold isValidRange, isFiniteNumber in *. unfold parseChunk.
    destruct (negb (nonEmpty (trim chunk))); [reflexivity|].
    destruct (matchRange (trim chunk)) as [[m1 m2]|].
    + rewrite Hr. reflexivity.
    + rewrite Hn. reflexivity.
Qed.

Lemma sampleKeys_parsed : parseDropKeys 10 sampleKeys = Some sampleOut.
Proof. vm_compute. reflexivity. Qed.

Lemma parseDropKeys_output_witness :
  parseDropKeys 10 sampleKeys = Some sampleOut
  /\ Forall (fun x => isFinite x = true) sampleOut
  /\ parseChunk 10 [ofZ 7] (js " abc ") = Some [ofZ 7]
  /\ parseChunk 10 [ofZ 7] (js "50-10") = Some [ofZ 7].
Proof.
  destruct (parseDropKeys_output 10 sampleKeys _ sampleKeys_parsed) as [HF HD].
  split; [exact sampleKeys_parsed|]. split; [exact HF|].
  split; apply HD; vm_compute; reflexivity.
Defined.

(** The claim as the spec states it fails on ["-5"] and ["1.5"]: neither
    token is a range or a bare non-negative integer, both are kept. *)
Lemma parseDropKeys_keeps_any_number :
  parseDropKeys 0 (js "-5") = Some [ofZ (-5)]
  /\ isNonNegInteger (ofZ (-5)) = false
  /\ parseDropKeys 0 (js "1.5") = Some [Fin (3 * 2 ^ 1073)]
  /\ isNonNegInteger (Fin (3 * 2 ^ 1073)) = false
  /\ isValidRange (js "-5") = false /\ isBareInteger (js "-5") = false
  /\ parseChunk 0 [] (js "-5") = Some [ofZ (-5)]
  /\ NumberToString (ofZ (-5)) = js "-5"
  /\ NumberToString (Fin (3 * 2 ^ 1073)) = js "1.5".
Proof. vm_compute. repeat split. Qed.

Lemma parseDropKeys_idempotent_witness :
  parseDropKeys 10 sampleKeys = Some sampleOut
  /\ forall fuel', parseDropKeys fuel' (joinKeys sampleOut) = Some sampleOut.
Proof.
  split; [exact sampleKeys_parsed|].
  exact (parseDropKeys_idempotent 10 sampleKeys _ sampleKeys_parsed).
Defined.

(** ** Worked requests *)

Lemma half_isRandom : isRandom half.
Proof.
  exists (2 ^ 1073). split; [reflexivity|]. split; [|vm_compute; reflexivity].
  split; [apply Z.leb_le | apply Z.ltb_lt]; vm_compute; reflexivity.
Qed.

Lemma openChest_item_in_pool_witness :
  openChest happyWorld sampleConfig sampleRequest
  = (json 200 (VObj [(js "ok", VBool true); (js "itemdefid", VNum (ofZ 10002));
                     (js "grant", grantReply [(js "item_json", VStr (js "[1]"))])]),
     [chestVerifyCall sampleConfig sampleRequest;
      chestGrantCall happyWorld sampleConfig sampleRequest])
  /\ exists x, In x (DROP_KEYS sampleConfig)
               /\ getProp (VObj [(js "ok", VBool true); (js "itemdefid", VNum (ofZ 10002));
                                 (js "grant", grantReply [(js "item_json", VStr (js "[1]"))])])
                    (js "itemdefid") = VNum x.
Proof.
  assert (E : openChest happyWorld sampleConfig sampleRequest
              = (json 200 (VObj [(js "ok", VBool true); (js "itemdefid", VNum (ofZ 10002));
                                 (js "grant", grantReply [(js "item_json", VStr (js "[1]"))])]),
                 [chestVerifyCall sampleConfig sampleRequest;
                  chestGrantCall happyWorld sampleConfig sampleRequest]))
    by (vm_compute; reflexivity).
  split; [exact E|].
  apply (openChest_item_in_pool happyWorld sampleConfig sampleRequest _ _
           half_isRandom ltac:(vm_compute; reflexivity) E eq_refl).
Defined.

(** C2. A reply whose numeric result is 1, whose success flag is true and
    whose [item_json] is the string ["null"]: the three-way disjunction
    holds, yet [grantItem] throws on [items.length] instead of reporting
    success, and grant-only answers 500 [server_error]. *)
Theorem grantItem_null_items :
  flagsOk (grantReply [(js "result", VNum one); (js "success", VBool true);
                       (js "item_json", VStr (js "null"))]) = true
  /\ grantItem nullItemsWorld sampleConfig (VNum (ofZ 480)) sampleSteamId
       (VNum (ofZ 10001)) (VNum one) []
     = (Throw (TypeError (js "Cannot read properties of null or undefined")),
        [grantCall sampleConfig (VNum (ofZ 480)) sampleSteamId (VNum (ofZ 10001)) (VNum one)])
  /\ fst (grantOnly nullItemsWorld sampleConfig grantRequest)
     = json 500 (VObj [(js "error", VStr (js "server_error"));
                       (js "details",
                        VStr (js "Cannot read properties of null or undefined"))]).
Proof. vm_compute. repeat split. Qed.

Lemma verifyTicket_outcome_witness :
  exists v,
    verifyTicket
      (sampleWorld (Return (authReply (js "OK") (VStr (js "76561198000000002"))))
         (Throw VUndefined) half)
      sampleConfig (VNum (ofZ 570)) (VStr (js "14000000A1B2C3")) sampleSteamId []
    = (Return v, [] ++ [verifyCall sampleConfig (VNum (ofZ 570)) (VStr (js "14000000A1B2C3"))])
    /\ getProp v (js "ok") = VBool false
    /\ getProp v (js "reason") = VStr (js "steamid_mismatch").
Proof.
  destruct (verifyTicket_outcome
              (sampleWorld (Return (authReply (js "OK") (VStr (js "76561198000000002"))))
                 (Throw VUndefined) half)
              sampleConfig (VNum (ofZ 570)) (VStr (js "14000000A1B2C3")) sampleSteamId
              (authReply (js "OK") (VStr (js "76561198000000002"))) [] eq_refl)
    as (v & Hrun & _ & Hok & Hfail).
  exists v. split; [exact Hrun|].
  apply Hfail. intros E. apply Hok in E. destruct E as [_ [E|E]]; discriminate E.
Defined.

Lemma verifyTicket_raw_witness :
  exists v,
    verifyTicket
      (sampleWorld (Return (authReply (js "FAIL") VUndefined)) (Throw VUndefined) half)
      sampleConfig (VNum (ofZ 570)) (VStr (js "14000000A1B2C3")) sampleSteamId []
    = (Return v, [] ++ [verifyCall sampleConfig (VNum (ofZ 570)) (VStr (js "14000000A1B2C3"))])
    /\ (getProp v (js "ok") = VBool false ->
        getProp v (js "raw") = authReply (js "FAIL") VUndefined)
    /\ (getProp v (js "ok") = VBool true ->
        v = VObj [(js "ok", VBool true);
                  (js "steamid", authSteamId (authReply (js "FAIL") VUndefined))]
        /\ getProp v (js "raw") = VUndefined).
Proof.
  exact (verifyTicket_raw
           (sampleWorld (Return (authReply (js "FAIL") VUndefined)) (Throw VUndefined) half)
           sampleConfig (VNum (ofZ 570)) (VStr (js "14000000A1B2C3")) sampleSteamId
           (authReply (js "FAIL") VUndefined) [] eq_refl).
Defined.

(** On success the result of [verifyTicket] has no [raw]. *)
Lemma verifyTicket_success_drops_raw :
  verifyTicket happyWorld sampleConfig (VNum (ofZ 570)) (VStr (js "14000000A1B2C3"))
    sampleSteamId []
  = (Return (VObj [(js "ok", VBool true); (js "steamid", sampleSteamId)]),
     [verifyCall sampleConfig (VNum (ofZ 570)) (VStr (js "14000000A1B2C3"))])
  /\ getProp (VObj [(js "ok", VBool true); (js "steamid", sampleSteamId)]) (js "raw")
     = VUndefined
  /\ authReply (js "OK") sampleSteamId <> VUndefined.
Proof. split; [reflexivity|]. split; [reflexivity | discriminate]. Qed.

Lemma openChest_empty_pool_witness :
  openChest happyWorld
    {| APPID := ofZ 480; PUBLISHER_KEY := Some (js "0123456789ABCDEF");
       DROP_KEYS := []; ENABLE_LIMITER := false |}
    sampleRequest
  = (json 500 (errorBody (js "server_not_configured")), []).
Proof.
  apply openChest_empty_pool; reflexivity.
Defined.

Lemma errors_become_500_witness :
  exists details,
    runRoute OpenChest (sampleWorld (Throw outage) (Throw outage) half)
      sampleConfig sampleRequest
    = (json 500 (VObj [(js "error", VStr (js "server_error")); (js "details", details)]),
       [chestVerifyCall sampleConfig sampleRequest])
    /\ details = VNum (ofZ 503).
Proof.
  destruct (errors_become_500 OpenChest (sampleWorld (Throw outage) (Throw outage) half)
              sampleConfig sampleRequest outage
              [chestVerifyCall sampleConfig sampleRequest]
              ltac:(vm_compute; reflexivity))
    as (details & Hrun & Hstatus & _).
  exists details. split; [exact Hrun|].
  rewrite Hstatus by (vm_compute; reflexivity). reflexivity.
Defined.

Lemma openChest_appids_witness :
  callAppid (chestVerifyCall sampleConfig sampleRequest) = VNum (ofZ 570)
  /\ callAppid (chestGrantCall happyWorld sampleConfig sampleRequest) = VStr (js "480")
  /\ snd (openChest happyWorld sampleConfig sampleRequest)
     = [chestVerifyCall sampleConfig sampleRequest;
        chestGrantCall happyWorld sampleConfig sampleRequest].
Proof.
  destruct (openChest_appids happyWorld sampleConfig sampleRequest
              (fst (openChest happyWorld sampleConfig sampleRequest))
              (snd (openChest happyWorld sampleConfig sampleRequest))
              (surjective_pairing _)) as [Hc Htr].
  assert (T : snd (openChest happyWorld sampleConfig sampleRequest)
              = [chestVerifyCall sampleConfig sampleRequest;
                 chestGrantCall happyWorld sampleConfig sampleRequest])
    by (apply Htr; vm_compute; reflexivity).
  rewrite T in Hc.
  split; [|split; [|exact T]].
  - rewrite (Hc _ (or_introl eq_refl)). vm_compute. reflexivity.
  - rewrite (Hc _ (or_intror (or_introl eq_refl))). vm_compute. reflexivity.
Defined.

(** A key of three characters is echoed in full; a key of six characters and
    an ellipsis is the echoed field itself. *)
Lemma health_echoes_short_key :
  getProp (body (health (keyConfig (Some (js "abc"))))) (js "key_prefix")
  = VStr (js "abc" ++ [ELLIPSIS])
  /\ isPrefix (js "abc") (js "abc" ++ [ELLIPSIS]) = true
  /\ getProp (body (health (keyConfig (Some (js "abcdef" ++ [ELLIPSIS]))))) (js "key_prefix")
     = VStr (js "abcdef" ++ [ELLIPSIS]).
Proof. vm_compute. repeat split. Qed.

(** ** The output is ascending *)

Lemma round_positive p : 0 < p -> Num.ltb zero (round false p 1) = true.
Proof.
  intros Hp. unfold round, roundMag. rewrite Z.div_1_r, Z.mul_1_l.
  set (sh := shiftOf p).
  assert (Hsh : 0 <= sh <= Z.log2 p).
  { unfold sh, shiftOf. pose proof (Z.log2_nonneg p). lia. }
  assert (HA : 0 < 2 ^ sh) by (apply Z.pow_pos_nonneg; lia).
  assert (Hle : 2 ^ sh <= p).
  { pose proof (Z.log2_spec p Hp) as [Hl _].
    assert (2 ^ sh <= 2 ^ Z.log2 p) by (apply Z.pow_le_mono_r; lia). lia. }
  assert (Hq : 1 <= p / 2 ^ sh) by (apply Z.div_le_lower_bound; lia).
  pose proof (rnd_div_floor p (2 ^ sh)) as Hr.
  assert (Hk : 0 < rnd_div p (2 ^ sh) * 2 ^ sh) by nia.
  destruct (rnd_div p (2 ^ sh) * 2 ^ sh <? OVERFLOW); [|reflexivity].
  destruct (rnd_div p (2 ^ sh) * 2 ^ sh) as [|k|k]; try lia. reflexivity.
Qed.

Lemma sub_nonpositive a b : Num.ltb zero (sub (Fin a) (Fin b)) = false -> a <= b.
Proof.
  rewrite sub_Fin. destruct (Z.eqb_spec (a - b) 0); [lia|].
  destruct (Z.ltb_spec (a - b) 0); [lia|].
  rewrite round_positive by lia. discriminate.
Qed.

Lemma sortedBy_ascending l :
  Forall isKey l -> NoDup l -> sortedBy sub l -> Sorted below l.
Proof.
  induction l as [|x l IH]; intros Hk Hn Hs; [constructor|].
  inversion Hk as [|? ? Hx Hk']; subst. inversion Hn as [|? ? Hnx Hn']; subst.
  destruct l as [|y l]; [repeat constructor|].
  destruct Hs as [Hxy Hs].
  constructor; [apply IH; assumption|]. constructor.
  inversion Hk' as [|? ? Hy _]; subst.
  destruct Hx as (a & -> & _), Hy as (b & -> & _).
  apply sub_nonpositive in Hxy. unfold below. cbn [toZ].
  assert (a <> b) by (intros ->; apply Hnx; left; reflexivity). lia.
Qed.

(** The parser's output is ascending, hence free of duplicates. *)
Theorem parseDropKeys_ascending fuel s out :
  parseDropKeys fuel s = Some out -> Sorted below out /\ NoDup out.
Proof.
  intros H. destruct (parseDropKeys_keys fuel s out H) as (Hk & Hn & Hs).
  split; [apply sortedBy_ascending; assumption | exact Hn].
Qed.

Lemma parseDropKeys_ascending_witness :
  Sorted below (map ofZ [3; 4; 5; 7; 10]) /\ NoDup (map ofZ [3; 4; 5; 7; 10]).
Proof.
  apply (parseDropKeys_ascending 10 (js " 7 ;; 3 - 5 ,7,, 1e1")).
  vm_compute. reflexivity.
Defined.


Lemma number_string_roundtrip_witness :
  StringToNumber (NumberToString (Fin (3 * 2 ^ 1073))) = Fin (3 * 2 ^ 1073)
  /\ NumberToString (Fin (3 * 2 ^ 1073)) = js "1.5".
Proof.
  split; [|vm_compute; reflexivity].
  apply (number_string_roundtrip (Fin (3 * 2 ^ 1073))).
  - reflexivity.
  - vm_compute. reflexivity.
  - discriminate.
Defined.

Lemma grantItem_returns_witness :
  getProp (VObj [(js "ok", VBool true); (js "items", VArr [VNum one]);
                 (js "raw", grantReply [(js "item_json", VStr (js "[1]"))])]) (js "ok")
  = VBool (flagsOk (grantReply [(js "item_json", VStr (js "[1]"))])
           || isString (getProp (grantResp (grantReply [(js "item_json", VStr (js "[1]"))]))
                          (js "item_json"))
              && gtZero (getProp (grantItems (grantReply [(js "item_json", VStr (js "[1]"))]))
                           (js "length")))
  /\ flagsOk (grantReply [(js "item_json", VStr (js "[1]"))]) = false.
Proof.
  split; [|vm_compute; reflexivity].
  apply (grantItem_returns happyWorld sampleConfig (VNum (ofZ 480)) sampleSteamId
           (VNum (ofZ 10002)) (VNum one)
           (grantReply [(js "item_json", VStr (js "[1]"))]) []
           _ [grantCall sampleConfig (VNum (ofZ 480)) sampleSteamId (VNum (ofZ 10002)) (VNum one)]
           eq_refl).
  vm_compute. reflexivity.
Defined.

(** ** verify-only *)



Lemma pickRandom_member_witness :
  exists x, In x (map ofZ [10001; 10002; 10003])
            /\ pickRandom half (map ofZ [10001; 10002; 10003]) = VNum x.
Proof.
  apply (pickRandom_member half (map ofZ [10001; 10002; 10003]) half_isRandom).
  - discriminate.
  - vm_compute. reflexivity.
Defined.

Lemma health_key_prefix_witness :
  getProp (body (health sampleConfig)) (js "has_key") = VBool true
  /\ getProp (body (health sampleConfig)) (js "key_prefix")
     = VStr (js "012345" ++ [ELLIPSIS])
  /\ isPrefix (js "0123456789ABCDEF0123456789ABCDEF") (js "012345" ++ [ELLIPSIS]) = false
  /\ getProp (body (health (keyConfig None))) (js "key_prefix") = VNull.
Proof.
  destruct (health_key_prefix sampleConfig) as [Hset _].
  destruct (Hset (js "0123456789ABCDEF0123456789ABCDEF") eq_refl ltac:(discriminate))
    as (H1 & H2 & _ & H4).
  destruct (health_key_prefix (keyConfig None)) as [_ Hnone].
  destruct (Hnone (or_introl eq_refl)) as [_ H5].
  split; [exact H1|]. split; [exact H2|]. split; [|exact H5].
  apply H4. cbn. lia.
Defined.

(** ** The routes, reply by reply *)

Lemma fieldsPresent_steamid reqBody :
  fieldsPresent reqBody = true -> truthy (getProp reqBody (js "steamid")) = true.
Proof.
  unfold fieldsPresent. intros H.
  apply andb_true_iff in H. destruct H as [H _].
  apply andb_true_iff in H. destruct H as [_ H]. exact H.
Qed.

Lemma destructure_cases v :
  (destructure v = ret v /\ isNullish v = false)
  \/ (exists e, destructure v = throw e /\ isNullish v = true).
Proof.
  destruct v; cbn [destructure isNullish];
    try (left; split; reflexivity); right; eexists; split; reflexivity.
Qed.

Lemma getProp_nullish v name : isNullish v = true -> getProp v name = VUndefined.
Proof. destruct v; try discriminate; reflexivity. Qed.

(** open-chest on a request that passes the checks, by the replies of the two
    services. *)
Lemma openChest_checked w cfg reqBody :
  chestChecked cfg reqBody = true ->
  openChest w cfg reqBody
  = match http w (chestVerifyCall cfg reqBody) with
    | Throw e => (chestServerError e, [chestVerifyCall cfg reqBody])
    | Return data =>
        if serviceOk data
           && strictEq (getProp reqBody (js "steamid")) (authSteamId data)
        then
          match http w (chestGrantCall w cfg reqBody) with
          | Throw e =>
              (chestServerError e,
               [chestVerifyCall cfg reqBody; chestGrantCall w cfg reqBody])
          | Return gdata =>
              (if isNullish (grantItems gdata) then chestServerError lengthOfNull
               else if grantOk gdata
               then json 200 (VObj [(js "ok", VBool true);
                                    (js "itemdefid",
                                     pickRandom (random w) (DROP_KEYS cfg));
                                    (js "grant", gdata)])
               else json 502 (VObj [(js "error", VStr (js "grant_failed"));
                                    (js "raw", gdata)]),
               [chestVerifyCall cfg reqBody; chestGrantCall w cfg reqBody])
          end
        else
          (json 401
             (VObj [(js "error",
                     VStr (if serviceOk data then js "steamid_mismatch"
                           else js "auth_failed"));
                    (js "raw", data)]),
           [chestVerifyCall cfg reqBody])
    end.
Proof.
  intros Hc. destruct (chestChecked_spec _ _ Hc) as (Hf & Hk & Hp).
  pose proof (fieldsPresent_steamid _ Hf) as Hs.
  unfold openChest, tryCatch.
  rewrite (openChestBody_checked w cfg reqBody Hf Hk Hp).
  unfold identityAgrees. rewrite Hs. cbn [negb orb].
  destruct (http w (chestVerifyCall cfg reqBody)) as [data|e]; [|reflexivity].
  destruct (serviceOk data
            && strictEq (getProp reqBody (js "steamid")) (authSteamId data));
    [|reflexivity].
  destruct (http w (chestGrantCall w cfg reqBody)) as [gdata|e]; [|reflexivity].
  unfold grantOk.
  destruct (grantItems gdata); cbn [isNullish]; try reflexivity;
    match goal with
    | |- context [flagsOk gdata || ?b] => destruct (flagsOk gdata || b)
    end; reflexivity.
Qed.

(** open-chest sends a grant request only after the identity service has
    answered ["OK"] for the [steamid] of the request; the grant is then the
    second and last request it sends. *)
Theorem openChest_grants_verified w cfg reqBody c :
  In c (snd (openChest w cfg reqBody)) ->
  isGet c = false ->
  exists data,
    http w (chestVerifyCall cfg reqBody) = Return data
    /\ serviceOk data = true
    /\ strictEq (getProp reqBody (js "steamid")) (authSteamId data) = true
    /\ snd (openChest w cfg reqBody)
       = [chestVerifyCall cfg reqBody; chestGrantCall w cfg reqBody].
Proof.
  intros Hin Hg.
  destruct (chestChecked cfg reqBody) eqn:Ec.
  2:{ rewrite (proj1 (openChest_unchecked w cfg reqBody Ec)) in Hin. destruct Hin. }
  rewrite (openChest_checked _ _ _ Ec) in *.
  destruct (http w (chestVerifyCall cfg reqBody)) as [data|e].
  2:{ destruct Hin as [<-|[]]. discriminate Hg. }
  destruct (serviceOk data
            && strictEq (getProp reqBody (js "steamid")) (authSteamId data)) eqn:Eok.
  2:{ destruct Hin as [<-|[]]. discriminate Hg. }
  apply andb_true_iff in Eok. destruct Eok as [Eok Eid].
  exists data. split; [reflexivity|]. split; [exact Eok|]. split; [exact Eid|].
  destruct (http w (chestGrantCall w cfg reqBody)); reflexivity.
Qed.



(** The checks of open-chest come in a fixed order: a request with a missing
    field is answered 400 [missing_fields] whatever the configuration, and a
    complete request is answered 500 [missing_publisher_key] when no key is
    configured, whether or not the pool is empty. Neither sends a request. *)
Theorem openChest_check_order w cfg reqBody :
  isNullish reqBody = false ->
  (fieldsPresent reqBody = false ->
   openChest w cfg reqBody = (json 400 (errorBody (js "missing_fields")), []))
  /\ (fieldsPresent reqBody = true ->
      truthy (keyVal cfg) = false ->
      openChest w cfg reqBody
      = (json 500 (errorBody (js "missing_publisher_key")), [])).
Proof.
  intros Hb.
  destruct (destructure_cases reqBody) as [[D _]|(e & _ & N)]; [|congruence].
  unfold fieldsPresent, openChest, tryCatch, openChestBody.
  rewrite D. unfold bind, ret.
  split.
  - intros Hf.
    destruct (truthy (getProp reqBody (js "appid")));
      destruct (truthy (getProp reqBody (js "steamid")));
      destruct (truthy (getProp reqBody (js "ticket")));
      try discriminate Hf; reflexivity.
  - intros Hf Hk.
    apply andb_true_iff in Hf. destruct Hf as [Hf Ht].
    apply andb_true_iff in Hf. destruct Hf as [Ha Hs].
    rewrite Ha, Hs, Ht, Hk. reflexivity.
Qed.

(** ** grant-only *)

Lemma grantOnly_unready w cfg reqBody :
  grantOnlyReady cfg reqBody = false ->
  snd (grantOnly w cfg reqBody) = []
  /\ (status (fst (grantOnly w cfg reqBody)) = 400
      \/ status (fst (grantOnly w cfg reqBody)) = 500).
Proof.
  unfold grantOnlyReady, grantOnly, tryCatch, grantOnlyBody. intros H.
  destruct (destructure_cases reqBody) as [[D _]|(e & D & _)]; rewrite D;
    unfold bind, ret, throw; [|cbn; auto].
  destruct (truthy (getProp reqBody (js "steamid"))); [|cbn; auto].
  destruct (truthy (getProp reqBody (js "itemdefid"))); [|cbn; auto].
  cbn [negb orb andb] in *. rewrite H. cbn; auto.
Qed.

Lemma grantOnly_ready w cfg reqBody :
  grantOnlyReady cfg reqBody = true ->
  grantOnly w cfg reqBody
  = (match http w (grantOnlyCall cfg reqBody) with
     | Throw e => serverError (errorDetails e)
     | Return gdata =>
         if isNullish (grantItems gdata) then serverError (errorDetails lengthOfNull)
         else if grantOk gdata
         then json 200 (VObj [(js "ok", VBool true);
                              (js "granted", grantItems gdata);
                              (js "raw", gdata)])
         else json 502 (VObj [(js "ok", VBool false);
                              (js "reason", VStr (js "grant_failed"));
                              (js "raw", gdata)])
     end,
     [grantOnlyCall cfg reqBody]).
Proof.
  unfold grantOnlyReady. intros H.
  apply andb_true_iff in H. destruct H as [H Hk].
  apply andb_true_iff in H. destruct H as [Hs Hi].
  unfold grantOnly, tryCatch, grantOnlyBody.
  rewrite (destructure_object _ _ Hs). unfold bind at 1. unfold ret at 1.
  rewrite Hs, Hi, Hk. cbn [negb orb]. unfold bind.
  fold (grantOnlyCall cfg reqBody).
  destruct (http w (grantOnlyCall cfg reqBody)) as [gdata|e] eqn:Eg.
  - unfold grantOnlyCall in Eg.
    rewrite (grantItem_resolved _ _ _ _ _ _ _ _ Eg). cbn [app].
    fold (grantOnlyCall cfg reqBody). unfold grantOk.
    destruct (grantItems gdata) eqn:Ei; cbn [isNullish]; try reflexivity;
      cbn [getProp lookup];
      change (Str.eqb (js "ok") (js "ok")) with true; cbv iota; cbn [truthy negb];
      match goal with
      | |- context [flagsOk gdata || ?b] => destruct (flagsOk gdata || b)
      end; reflexivity.
  - unfold grantOnlyCall in Eg.
    rewrite (grantItem_rejected _ _ _ _ _ _ _ _ Eg). reflexivity.
Qed.



(** ** verify-only *)

Lemma verifyOnly_unready w cfg reqBody :
  verifyOnlyReady cfg reqBody = false ->
  isNullish reqBody = false ->
  verifyOnly w cfg reqBody = (json 400 (errorBody (js "missing_fields")), []).
Proof.
  unfold verifyOnlyReady, verifyOnly, tryCatch, verifyOnlyBody. intros H Hb.
  destruct (destructure_cases reqBody) as [[D _]|(e & _ & N)]; [|congruence].
  rewrite D. unfold bind at 1. unfold ret at 1.
  fold (verifyOnlyAppid cfg reqBody).
  destruct (truthy (verifyOnlyAppid cfg reqBody));
    destruct (truthy (getProp reqBody (js "steamid")));
    destruct (truthy (getProp reqBody (js "ticket")));
    try discriminate H; reflexivity.
Qed.

Lemma verifyOnly_ready w cfg reqBody :
  verifyOnlyReady cfg reqBody = true ->
  verifyOnly w cfg reqBody
  = (match http w (verifyOnlyCall cfg reqBody) with
     | Throw e => serverError (errorDetails e)
     | Return data =>
         if serviceOk data
            && strictEq (getProp reqBody (js "steamid")) (authSteamId data)
         then json 200 (VObj [(js "ok", VBool true);
                              (js "steamid", authSteamId data)])
         else json 401 (VObj [(js "ok", VBool false);
                              (js "reason",
                               VStr (if serviceOk data then js "steamid_mismatch"
                                     else js "auth_failed"));
                              (js "raw", data)])
     end,
     [verifyOnlyCall cfg reqBody]).
Proof.
  unfold verifyOnlyReady. intros H.
  apply andb_true_iff in H. destruct H as [H Ht].
  apply andb_true_iff in H. destruct H as [Ha Hs].
  unfold verifyOnly, tryCatch, verifyOnlyBody.
  rewrite (destructure_object _ _ Hs). unfold bind at 1. unfold ret at 1.
  fold (verifyOnlyAppid cfg reqBody). rewrite Ha, Hs, Ht. cbn [negb orb].
  unfold bind. fold (verifyOnlyCall cfg reqBody).
  destruct (http w (verifyOnlyCall cfg reqBody)) as [data|e] eqn:Ev.
  - unfold verifyOnlyCall in Ev.
    rewrite (verifyTicket_resolved _ _ _ _ _ _ _ Ev). cbn [app].
    fold (verifyOnlyCall cfg reqBody).
    unfold identityAgrees. rewrite Hs. cbn [negb orb].
    destruct (serviceOk data
              && strictEq (getProp reqBody (js "steamid")) (authSteamId data)).
    + reflexivity.
    + cbn [getProp lookup].
      change (Str.eqb (js "ok") (js "ok")) with true. cbv iota. cbn [truthy negb].
      unfold ret. do 4 f_equal.
  - unfold verifyOnlyCall in Ev.
    rewrite (verifyTicket_rejected _ _ _ _ _ _ _ Ev). reflexivity.
Qed.



(** A verify-only request without [appid] is checked against the configured
    [APPID]. When that is [NaN] (the variable is not set or is no number) or
    0, the request is answered 400 [missing_fields] and nothing is sent. *)
Theorem verifyOnly_default_appid w cfg reqBody :
  getProp reqBody (js "appid") = VUndefined ->
  truthy (getProp reqBody (js "steamid")) = true ->
  truthy (getProp reqBody (js "ticket")) = true ->
  (truthy (VNum (APPID cfg)) = true ->
   snd (verifyOnly w cfg reqBody)
   = [verifyCall cfg (VNum (APPID cfg)) (getProp reqBody (js "ticket"))])
  /\ (truthy (VNum (APPID cfg)) = false ->
      verifyOnly w cfg reqBody = (json 400 (errorBody (js "missing_fields")), [])).
Proof.
  intros Ha Hs Ht.
  assert (E : verifyOnlyAppid cfg reqBody = VNum (APPID cfg)).
  { unfold verifyOnlyAppid. rewrite Ha. reflexivity. }
  split; intros H.
  - rewrite verifyOnly_ready.
    + unfold verifyOnlyCall. rewrite E. reflexivity.
    + unfold verifyOnlyReady. rewrite E, H, Hs, Ht. reflexivity.
  - apply verifyOnly_unready.
    + unfold verifyOnlyReady. rewrite E, H. reflexivity.
    + destruct reqBody; try reflexivity; discriminate Hs.
Qed.

(** ** grantItem *)

Lemma parseJsonElements_array fuel : forall s acc v r,
  parseJsonElements fuel s acc = Some (v, r) -> exists l, v = VArr l.
Proof.
  induction fuel as [|f IH]; intros s acc v r; cbn [parseJsonElements]; [discriminate|].
  destruct (parseJsonValue f s) as [[v0 r0]|]; [|discriminate].
  destruct (dropWhile isJsonWs r0) as [|c r']; [discriminate|].
  destruct (c =? 44); [apply IH|].
  destruct (c =? 93); [|discriminate].
  intros [= <- _]. eexists. reflexivity.
Qed.

Lemma parseJsonMembers_object fuel : forall s acc v r,
  parseJsonMembers fuel s acc = Some (v, r) -> exists l, v = VObj l.
Proof.
  induction fuel as [|f IH]; intros s acc v r; cbn [parseJsonMembers]; [discriminate|].
  destruct (dropWhile isJsonWs s) as [|q r0]; [discriminate|].
  destruct (q =? 34); [|discriminate].
  destruct (parseJsonString r0 []) as [[k r1]|]; [|discriminate].
  destruct (dropWhile isJsonWs r1) as [|c r2]; [discriminate|].
  destruct (c =? 58); [|discriminate].
  destruct (parseJsonValue f r2) as [[v0 r3]|]; [|discriminate].
  destruct (dropWhile isJsonWs r3) as [|d r4]; [discriminate|].
  destruct (d =? 44); [apply IH|].
  destruct (d =? 125); [|discriminate].
  intros [= <- _]. eexists. reflexivity.
Qed.

(** [JSON.parse] never returns [undefined]. *)
Lemma JSON_parse_defined s : JSON_parse s <> Some VUndefined.
Proof.
  unfold JSON_parse.
  destruct (parseJsonValue (2 * List.length s + 2) s) as [[v r]|] eqn:E; [|discriminate].
  destruct (dropWhile isJsonWs r); [|discriminate].
  intros [= ->].
  destruct (2 * List.length s + 2)%nat as [|f]; cbn [parseJsonValue] in E; [discriminate E|].
  destruct (dropWhile isJsonWs s) as [|c r0]; [discriminate E|].
  destruct (c =? 91).
  { destruct (dropWhile isJsonWs r0) as [|d r']; [discriminate E|].
    destruct (d =? 93); [discriminate E|].
    apply parseJsonElements_array in E. destruct E as [l E]. discriminate E. }
  destruct (c =? 123).
  { destruct (dropWhile isJsonWs r0) as [|d r']; [discriminate E|].
    destruct (d =? 125); [discriminate E|].
    apply parseJsonMembers_object in E. destruct E as [l E]. discriminate E. }
  destruct (c =? 34).
  { destruct (parseJsonString r0 []) as [[str r']|]; discriminate E. }
  destruct ((c =? 45) || isDigit c).
  { destruct (parseJsonNumber (c :: r0)) as [[x r']|]; discriminate E. }
  destruct (startsWith (js "null") (c :: r0)); [discriminate E|].
  destruct (startsWith (js "true") (c :: r0)); [discriminate E|].
  destruct (startsWith (js "false") (c :: r0)); discriminate E.
Qed.


(** ** The limiter *)


(** ** The pool as the union of its tokens *)

Lemma stored_key x : isValue x -> isKey (stored x).
Proof.
  intros [Hf Hd]. destruct x as [| | | |k]; try discriminate Hf; cbn [stored].
  - exists 0. split; reflexivity.
  - exists k. split; [reflexivity | exact Hd].
Qed.

Lemma setAdd_In x out y :
  Forall isKey out -> isFinite x = true ->
  In y (setAdd x out) <-> In y out \/ y = stored x.
Proof.
  intros Ho Hf. unfold setAdd.
  change (match x with NegZero => Fin 0 | _ => x end) with (stored x).
  destruct (existsb (sameValueZero x) out) eqn:E.
  - apply existsb_exists in E. destruct E as (z & Hz & Hs).
    assert (Ez : z = stored x).
    { rewrite Forall_forall in Ho. destruct (Ho z Hz) as (k & -> & _).
      destruct x as [| | | |j]; try discriminate Hf; cbn [stored].
      - unfold sameValueZero, Num.eqb in Hs. cbn [toZ] in Hs.
        apply Z.eqb_eq in Hs. subst k. reflexivity.
      - rewrite sameValueZero_Fin in Hs. apply Z.eqb_eq in Hs. subst k. reflexivity. }
    subst z. split; [intros H; left; exact H | intros [H| ->]; assumption].
  - rewrite in_app_iff. cbn [In]. split.
    + intros [H|[H|[]]]; [left; exact H | right; symmetry; exact H].
    + intros [H|H]; [left; exact H | right; left; symmetry; exact H].
Qed.

Lemma addAll_keys vs : forall out,
  Forall isKey out -> NoDup out -> Forall isValue vs ->
  Forall isKey (addAll out vs) /\ NoDup (addAll out vs)
  /\ forall y, In y (addAll out vs) <-> In y out \/ In y (map stored vs).
Proof.
  induction vs as [|v vs IH]; intros out Ho Hn Hv; cbn [addAll fold_left map In].
  - split; [exact Ho|]. split; [exact Hn|]. intros y. tauto.
  - inversion Hv as [|? ? [Hf Hd] Hvs]; subst.
    destruct (setAdd_keys v out Hf Hd Ho Hn) as [Ho' Hn'].
    destruct (IH (setAdd v out) Ho' Hn' Hvs) as (K & N & M).
    split; [exact K|]. split; [exact N|].
    intros y. fold (addAll (setAdd v out) vs). rewrite M, (setAdd_In v out y Ho Hf).
    split.
    + intros [[H|H]|H]; [left; exact H | right; left; symmetry; exact H | right; right; exact H].
    + intros [H|[H|H]]; [left; left; exact H | left; right; symmetry; exact H | right; exact H].
Qed.

Lemma rangeLoop_values fuel : forall x b out,
  rangeLoop fuel x b out = option_map (addAll out) (rangeValues fuel x b).
Proof.
  induction fuel as [|fuel IH]; intros x b out; cbn [rangeLoop rangeValues];
    destruct (Num.leb x b); try reflexivity.
  rewrite IH. destruct (rangeValues fuel (add x one) b); reflexivity.
Qed.

Lemma counter_finite x b :
  isCounter x -> isFinite b = true -> Num.leb x b = true -> isFinite x = true.
Proof.
  intros [_ Hs] Hb E.
  destruct x; try reflexivity; try contradiction; try discriminate Hs;
    destruct b; try discriminate Hb; discriminate E.
Qed.

Lemma counter_next x :
  isCounter x -> isFinite x = true -> isCounter (add x one).
Proof.
  intros [_ Hs] Hfin. split; [apply add_double|].
  destruct x as [| | | |k]; try discriminate Hfin; cbn [hasSign] in Hs;
    [discriminate Hs|].
  unfold add, one. cbn [toZ]. pose proof SCALE_pos.
  destruct (Z.eqb_spec (k + SCALE) 0); [lia|].
  destruct (Z.ltb_spec (k + SCALE) 0); [lia|].
  apply round_sign; lia.
Qed.

Lemma rangeValues_values fuel : forall x b vs,
  isCounter x -> isFinite b = true ->
  rangeValues fuel x b = Some vs -> Forall isValue vs.
Proof.
  induction fuel as [|fuel IH]; intros x b vs Hx Hb; cbn [rangeValues].
  - destruct (Num.leb x b); [discriminate|]. intros [= <-]. constructor.
  - destruct (Num.leb x b) eqn:E; [|intros [= <-]; constructor].
    pose proof (counter_finite x b Hx Hb E) as Hfin.
    destruct (rangeValues fuel (add x one) b) as [r|] eqn:Er; [|discriminate].
    cbn [option_map]. intros [= <-]. constructor.
    + split; [exact Hfin | exact (proj1 Hx)].
    + apply (IH (add x one) b r); [apply counter_next; assumption | exact Hb | exact Er].
Qed.

Lemma chunkValues_values fuel chunk vs :
  chunkValues fuel chunk = Some vs -> Forall isValue vs.
Proof.
  unfold chunkValues.
  destruct (negb (nonEmpty (trim chunk))); [intros [= <-]; constructor|].
  destruct (matchRange (trim chunk)) as [[m1 m2]|] eqn:E.
  - destruct (matchRange_groups _ _ _ E) as (H1 & N1 & H2 & N2 & _).
    destruct (isFinite (StringToNumber m1) && isFinite (StringToNumber m2)
              && Num.leb (StringToNumber m1) (StringToNumber m2)) eqn:C;
      [|intros [= <-]; constructor].
    apply andb_true_iff in C. destruct C as [C _].
    apply andb_true_iff in C. destruct C as [_ Cb].
    apply rangeValues_values; [|exact Cb].
    rewrite (StringToNumber_digits m1 H1 N1).
    apply decValue_props. apply valueOf_radix_nonneg. lia.
  - destruct (isFinite (StringToNumber (trim chunk))) eqn:F;
      intros [= <-]; constructor; [|constructor].
    split; [exact F | apply StringToNumber_double].
Qed.

Lemma parseChunk_values fuel out chunk :
  parseChunk fuel out chunk = option_map (addAll out) (chunkValues fuel chunk).
Proof.
  unfold parseChunk, chunkValues.
  destruct (negb (nonEmpty (trim chunk))); [reflexivity|].
  destruct (matchRange (trim chunk)) as [[m1 m2]|].
  - destruct (isFinite (StringToNumber m1) && isFinite (StringToNumber m2)
              && Num.leb (StringToNumber m1) (StringToNumber m2));
      [apply rangeLoop_values | reflexivity].
  - destruct (isFinite (StringToNumber (trim chunk))); reflexivity.
Qed.

Lemma parseChunks_values fuel chunks : forall out,
  parseChunks fuel out chunks = option_map (addAll out) (allValues fuel chunks).
Proof.
  induction chunks as [|c cs IH]; intros out; cbn [parseChunks allValues]; [reflexivity|].
  rewrite parseChunk_values.
  destruct (chunkValues fuel c) as [v|]; cbn [option_map]; [|reflexivity].
  rewrite IH. destruct (allValues fuel cs) as [vs|]; cbn [option_map]; [|reflexivity].
  unfold addAll. rewrite fold_left_app. reflexivity.
Qed.

Lemma allValues_Some fuel chunks : forall vs,
  allValues fuel chunks = Some vs ->
  Forall isValue vs
  /\ (forall c, In c chunks -> exists v, chunkValues fuel c = Some v)
  /\ forall y, In y vs <->
               exists c v, In c chunks /\ chunkValues fuel c = Some v /\ In y v.
Proof.
  induction chunks as [|c cs IH]; intros vs; cbn [allValues].
  - intros [= <-]. split; [constructor|]. split; [intros c []|].
    intros y. split; [intros [] | intros (c & v & [] & _)].
  - destruct (chunkValues fuel c) as [v|] eqn:Ec; [|discriminate].
    destruct (allValues fuel cs) as [r|] eqn:Er; [|discriminate].
    cbn [option_map]. intros [= <-].
    destruct (IH r eq_refl) as (V & A & M).
    split; [apply Forall_app; split; [exact (chunkValues_values _ _ _ Ec) | exact V]|].
    split.
    + intros c' [<-|Hc]; [exists v; exact Ec | apply A; exact Hc].
    + intros y. rewrite in_app_iff, M. split.
      * intros [H|(c' & v' & Hc & Ev & Hy)].
        -- exists c, v. split; [left; reflexivity|]. split; assumption.
        -- exists c', v'. split; [right; exact Hc|]. split; assumption.
      * intros (c' & v' & [<-|Hc] & Ev & Hy).
        -- left. rewrite Ec in Ev. injection Ev as <-. exact Hy.
        -- right. exists c', v'. split; [exact Hc|]. split; assumption.
Qed.

Lemma allValues_None fuel chunks :
  allValues fuel chunks = None ->
  exists c, In c chunks /\ chunkValues fuel c = None.
Proof.
  induction chunks as [|c cs IH]; cbn [allValues]; [discriminate|].
  destruct (chunkValues fuel c) as [v|] eqn:Ec.
  - destruct (allValues fuel cs) as [r|]; [discriminate|].
    intros _. destruct (IH eq_refl) as (c' & Hc & E).
    exists c'. split; [right; exact Hc | exact E].
  - intros _. exists c. split; [left; reflexivity | exact Ec].
Qed.

(** What [parseDropKeys] returns is the set of the values of its chunks,
    sorted. *)
Lemma parseDropKeys_values fuel s :
  parseDropKeys fuel s
  = option_map (fun vs => sortBy sub (addAll [] vs))
      (allValues fuel (splitOn isSeparator s)).
Proof.
  unfold parseDropKeys. rewrite parseChunks_values.
  destruct (allValues fuel (splitOn isSeparator s)); reflexivity.
Qed.

Lemma sorted_values vs :
  Forall isValue vs ->
  StronglySorted below (sortBy sub (addAll [] vs))
  /\ forall y, In y (sortBy sub (addAll [] vs)) <-> In y (map stored vs).
Proof.
  intros Hv.
  destruct (addAll_keys vs [] (Forall_nil _) (NoDup_nil _) Hv) as (K & N & M).
  split.
  - apply Sorted_StronglySorted.
    + intros x y z. unfold below. lia.
    + apply sortedBy_ascending.
      * eapply Permutation_Forall; [apply sortBy_perm | exact K].
      * eapply Permutation_NoDup; [apply sortBy_perm | exact N].
      * apply sortBy_sorted. exact K.
  - intros y. split.
    + intros H.
      apply (Permutation_in _ (Permutation_sym (sortBy_perm sub (addAll [] vs)))) in H.
      apply M in H. destruct H as [[]|H]. exact H.
    + intros H. eapply Permutation_in; [apply sortBy_perm|]. apply M. right. exact H.
Qed.

(** The pool is the union of what each token of the input yields on its
    own. *)
Theorem parseDropKeys_members fuel s out :
  parseDropKeys fuel s = Some out ->
  forall y, In y out <->
            exists chunk o, In chunk (splitOn isSeparator s)
                            /\ parseChunk fuel [] chunk = Some o /\ In y o.
Proof.
  rewrite parseDropKeys_values.
  destruct (allValues fuel (splitOn isSeparator s)) as [vs|] eqn:E; [|discriminate].
  cbn [option_map]. intros [= <-] y.
  destruct (allValues_Some _ _ _ E) as (V & A & M).
  destruct (sorted_values vs V) as [_ S]. rewrite S, in_map_iff.
  assert (One : forall c v, chunkValues fuel c = Some v ->
            forall z, In z (addAll [] v) <-> In z (map stored v)).
  { intros c v Ev z.
    destruct (addAll_keys v [] (Forall_nil _) (NoDup_nil _)
                (chunkValues_values _ _ _ Ev)) as (_ & _ & Mv).
    rewrite Mv. cbn [In]. tauto. }
  split.
  - intros (x & <- & Hx). apply M in Hx. destruct Hx as (c & v & Hc & Ev & Hv).
    exists c, (addAll [] v). split; [exact Hc|].
    split; [rewrite parseChunk_values, Ev; reflexivity|].
    apply (One c v Ev). apply in_map. exact Hv.
  - intros (c & o & Hc & Eo & Ho).
    rewrite parseChunk_values in Eo.
    destruct (chunkValues fuel c) as [v|] eqn:Ev; [|discriminate].
    cbn [option_map] in Eo. injection Eo as <-.
    apply (One c v Ev) in Ho. apply in_map_iff in Ho. destruct Ho as (x & <- & Hx).
    exists x. split; [reflexivity|]. apply M. exists c, v.
    split; [exact Hc|]. split; [exact Ev | exact Hx].
Qed.

Lemma ascending_unique l1 : forall l2,
  StronglySorted below l1 -> StronglySorted below l2 ->
  (forall y, In y l1 <-> In y l2) -> l1 = l2.
Proof.
  induction l1 as [|x l1 IH]; intros [|y l2] S1 S2 H.
  - reflexivity.
  - destruct (proj2 (H y) (or_introl eq_refl)).
  - destruct (proj1 (H x) (or_introl eq_refl)).
  - inversion S1 as [|? ? S1' F1]; subst. inversion S2 as [|? ? S2' F2]; subst.
    rewrite Forall_forall in F1, F2.
    assert (E : x = y).
    { destruct (proj1 (H x) (or_introl eq_refl)) as [E|Hx]; [symmetry; exact E|].
      destruct (proj2 (H y) (or_introl eq_refl)) as [E|Hy]; [exact E|].
      pose proof (F1 y Hy). pose proof (F2 x Hx). unfold below in *. lia. }
    subst y. f_equal. apply IH; try assumption.
    intros z. split; intros Hz.
    + destruct (proj1 (H z) (or_intror Hz)) as [E|Hz']; [|exact Hz'].
      subst z. pose proof (F1 x Hz). unfold below in *. lia.
    + destruct (proj2 (H z) (or_intror Hz)) as [E|Hz']; [|exact Hz'].
      subst z. pose proof (F2 x Hz). unfold below in *. lia.
Qed.

(** The pool depends on the set of the tokens only: two inputs with the same
    tokens, in any order and with any repetition, give the same pool, and the
    parser returns on one exactly when it returns on the other. *)
Theorem parseDropKeys_order fuel s1 s2 :
  (forall chunk, In chunk (splitOn isSeparator s1)
                 <-> In chunk (splitOn isSeparator s2)) ->
  parseDropKeys fuel s1 = parseDropKeys fuel s2.
Proof.
  intros H. rewrite !parseDropKeys_values.
  destruct (allValues fuel (splitOn isSeparator s1)) as [v1|] eqn:E1;
    destruct (allValues fuel (splitOn isSeparator s2)) as [v2|] eqn:E2;
    cbn [option_map].
  - destruct (allValues_Some _ _ _ E1) as (V1 & _ & M1).
    destruct (allValues_Some _ _ _ E2) as (V2 & _ & M2).
    destruct (sorted_values v1 V1) as [S1 I1], (sorted_values v2 V2) as [S2 I2].
    f_equal. apply ascending_unique; try assumption.
    assert (Sub : forall a b, (forall c, In c a -> In c b) ->
              forall va vb,
                (forall y, In y va <-> exists c v, In c a /\ chunkValues fuel c = Some v /\ In y v) ->
                (forall y, In y vb <-> exists c v, In c b /\ chunkValues fuel c = Some v /\ In y v) ->
                forall y, In y (map stored va) -> In y (map stored vb)).
    { intros a b Hab va vb Ma Mb y Hy. apply in_map_iff in Hy.
      destruct Hy as (x & <- & Hx). apply in_map. apply Mb.
      apply Ma in Hx. destruct Hx as (c & v & Hc & Ev & Hv).
      exists c, v. split; [apply Hab; exact Hc|]. split; assumption. }
    intros y. rewrite I1, I2. split.
    + apply (Sub _ _ (fun c => proj1 (H c)) v1 v2 M1 M2).
    + apply (Sub _ _ (fun c => proj2 (H c)) v2 v1 M2 M1).
  - exfalso. destruct (allValues_None _ _ E2) as (c & Hc & En).
    destruct (allValues_Some _ _ _ E1) as (_ & A & _).
    destruct (A c (proj2 (H c) Hc)) as [v Ev]. congruence.
  - exfalso. destruct (allValues_None _ _ E1) as (c & Hc & En).
    destruct (allValues_Some _ _ _ E2) as (_ & A & _).
    destruct (A c (proj1 (H c) Hc)) as [v Ev]. congruence.
  - reflexivity.
Qed.

(** ** Ranges *)

Lemma digit_cases c :
  isDigit c = true ->
  isWhiteSpace c = false /\ isSeparator c = false /\ (c =? 45) = false.
Proof.
  intros H. apply isDigit_spec in H.
  assert (E : c = 48 \/ c = 49 \/ c = 50 \/ c = 51 \/ c = 52 \/ c = 53
              \/ c = 54 \/ c = 55 \/ c = 56 \/ c = 57) by lia.
  repeat (destruct E as [->|E]; [repeat split; reflexivity|]).
  subst c. repeat split; reflexivity.
Qed.

Lemma ws_cases c :
  isWhiteSpace c = true -> isDigit c = false /\ isSeparator c = false.
Proof.
  intros H. split.
  - destruct (isDigit c) eqn:D; [|reflexivity].
    destruct (digit_cases c D) as [W _]. congruence.
  - unfold isSeparator. destruct (Z.eqb_spec c 59) as [->|_]; [discriminate H|].
    destruct (Z.eqb_spec c 44) as [->|_]; [discriminate H | reflexivity].
Qed.

Lemma head_digit (m : jsstring) :
  allDigits m -> match m with [] => True | c :: _ => isWhiteSpace c = false end.
Proof.
  intros H. destruct H as [|c m Hc _]; [exact I|]. apply (digit_cases c Hc).
Qed.

(** The pattern of a range on digits, white space, a dash, white space and
    digits. *)
Lemma matchRange_range m1 ws1 ws2 m2 :
  allDigits m1 -> m1 <> [] -> allDigits m2 -> m2 <> [] ->
  Forall (fun c => isWhiteSpace c = true) ws1 ->
  Forall (fun c => isWhiteSpace c = true) ws2 ->
  matchRange (m1 ++ ws1 ++ 45 :: ws2 ++ m2) = Some (m1, m2).
Proof.
  intros H1 N1 H2 N2 W1 W2. unfold matchRange.
  assert (Hhead : match ws1 ++ 45 :: ws2 ++ m2 with
                  | [] => True
                  | c :: _ => isDigit c = false
                  end).
  { destruct W1 as [|c ws1 Hc _]; [reflexivity | apply (ws_cases c Hc)]. }
  destruct (takeWhile_app isDigit m1 _ H1 Hhead) as [T D]. rewrite T, D.
  destruct (takeWhile_app isWhiteSpace ws1 (45 :: ws2 ++ m2) W1 eq_refl) as [_ D2].
  rewrite D2. change (45 =? 45) with true. cbv iota.
  assert (Hm2 : match m2 with [] => True | c :: _ => isWhiteSpace c = false end)
    by (apply head_digit; exact H2).
  destruct (takeWhile_app isWhiteSpace ws2 m2 W2 Hm2) as [_ D3]. rewrite D3.
  destruct (takeWhile_app isDigit m2 [] H2 I) as [T4 D4].
  rewrite app_nil_r in T4, D4. rewrite T4, D4.
  destruct m1; [contradiction|]. destruct m2; [contradiction|]. reflexivity.
Qed.

Lemma range_fixed m1 ws1 ws2 m2 :
  allDigits m1 -> m1 <> [] -> allDigits m2 -> m2 <> [] ->
  Forall (fun c => isWhiteSpace c = true) ws1 ->
  Forall (fun c => isWhiteSpace c = true) ws2 ->
  trim (m1 ++ ws1 ++ 45 :: ws2 ++ m2) = m1 ++ ws1 ++ 45 :: ws2 ++ m2
  /\ splitOn isSeparator (m1 ++ ws1 ++ 45 :: ws2 ++ m2)
     = [m1 ++ ws1 ++ 45 :: ws2 ++ m2].
Proof.
  intros H1 N1 H2 N2 W1 W2. split.
  - apply trim_fixed.
    + destruct m1 as [|c m1]; [contradiction|]. cbn [app].
      inversion H1; subst. apply (digit_cases c). assumption.
    + replace (m1 ++ ws1 ++ 45 :: ws2 ++ m2) with ((m1 ++ ws1 ++ 45 :: ws2) ++ m2)
        by (rewrite <- !app_assoc; reflexivity).
      rewrite rev_app_distr.
      assert (R : allDigits (rev m2)) by (apply Forall_rev; exact H2).
      destruct (rev m2) as [|c r] eqn:E.
      * apply (f_equal (@rev Z)) in E. rewrite rev_involutive in E. contradiction.
      * cbn [app]. inversion R; subst. apply (digit_cases c). assumption.
  - apply splitOn_nosep. repeat (apply Forall_app; split).
    + eapply Forall_impl; [|exact H1]. intros c Hc. apply (digit_cases c Hc).
    + eapply Forall_impl; [|exact W1]. intros c Hc. apply (ws_cases c Hc).
    + constructor; [reflexivity|]. apply Forall_app; split.
      * eapply Forall_impl; [|exact W2]. intros c Hc. apply (ws_cases c Hc).
      * eapply Forall_impl; [|exact H2]. intros c Hc. apply (digit_cases c Hc).
Qed.

Lemma countFrom_S a n : countFrom a (S n) = ofZ a :: countFrom (a + 1) n.
Proof.
  unfold countFrom. cbn [seq map]. rewrite <- seq_shift, map_map.
  change (Z.of_nat 0) with 0. rewrite Z.add_0_r. f_equal.
  apply map_ext. intros i. f_equal. lia.
Qed.

Lemma integer_key n : 0 <= n <= 2 ^ 53 -> isKey (Fin (n * SCALE)).
Proof.
  intros Hn. exists (n * SCALE). split; [reflexivity|].
  rewrite <- (round_small n Hn). apply round_isDouble; [|lia].
  pose proof SCALE_pos. nia.
Qed.

(** A range loop over integers up to [2^53] adds them in order. *)
Lemma rangeLoop_count fuel : forall a n out,
  0 <= a -> a + Z.of_nat n <= 2 ^ 53 -> (n <= fuel)%nat ->
  Forall isKey out -> Forall (fun y => below y (Fin (a * SCALE))) out ->
  rangeLoop fuel (Fin (a * SCALE)) (Fin ((a + Z.of_nat n - 1) * SCALE)) out
  = Some (out ++ countFrom a n).
Proof.
  pose proof SCALE_pos as HS.
  induction fuel as [|fuel IH]; intros a n out Ha Hn Hf Ho Hb;
    cbn [rangeLoop Num.leb toZ].
  - assert (n = 0)%nat by lia. subst n.
    destruct (Z.leb_spec (a * SCALE) ((a + Z.of_nat 0 - 1) * SCALE)); [nia|].
    unfold countFrom. cbn [seq map]. rewrite app_nil_r. reflexivity.
  - destruct n as [|n].
    + destruct (Z.leb_spec (a * SCALE) ((a + Z.of_nat 0 - 1) * SCALE)); [nia|].
      unfold countFrom. cbn [seq map]. rewrite app_nil_r. reflexivity.
    + destruct (Z.leb_spec (a * SCALE) ((a + Z.of_nat (S n) - 1) * SCALE)); [|nia].
      rewrite add_one_small by lia.
      rewrite setAdd_new.
      * replace (a + Z.of_nat (S n) - 1) with (a + 1 + Z.of_nat n - 1) by lia.
        rewrite IH; try lia.
        -- rewrite countFrom_S, ofZ_small by lia. rewrite <- app_assoc. reflexivity.
        -- apply Forall_app. split; [exact Ho|].
           constructor; [apply integer_key; lia | constructor].
        -- apply Forall_app. split.
           ++ eapply Forall_impl; [|exact Hb]. intros y. unfold below. cbn [toZ]. nia.
           ++ constructor; [unfold below; cbn [toZ]; nia | constructor].
      * exact Ho.
      * intros Hin. rewrite Forall_forall in Hb. specialize (Hb _ Hin).
        unfold below in Hb. cbn [toZ] in Hb. lia.
Qed.

Lemma countFrom_sorted n : forall a,
  0 <= a -> a + Z.of_nat n <= 2 ^ 53 -> sortedBy sub (countFrom a n).
Proof.
  pose proof SCALE_pos as HS.
  induction n as [|n IH]; intros a Ha Hn; [exact I|].
  rewrite countFrom_S. destruct n as [|n]; [exact I|].
  specialize (IH (a + 1) ltac:(lia) ltac:(lia)).
  rewrite countFrom_S in *. cbn [sortedBy]. split; [|exact IH].
  rewrite !ofZ_small by lia.
  destruct (Num.ltb zero (sub (Fin (a * SCALE)) (Fin ((a + 1) * SCALE)))) eqn:E;
    [|reflexivity].
  apply sub_positive in E. nia.
Qed.


(** ** Blank input *)

Lemma splitOn_blank s :
  Forall (fun c => isBlank c = true) s ->
  Forall (Forall (fun c => isWhiteSpace c = true)) (splitOn isSeparator s).
Proof.
  induction 1 as [|c s Hc Hs IH]; cbn [splitOn]; [repeat constructor|].
  unfold isBlank in Hc. destruct (isSeparator c); [constructor; [constructor | exact IH]|].
  cbn [orb] in Hc.
  destruct (splitOn isSeparator s) as [|h t]; [repeat constructor; exact Hc|].
  inversion IH; subst. constructor; [constructor; assumption | assumption].
Qed.

Lemma trim_blank l :
  Forall (fun c => isWhiteSpace c = true) l -> trim l = [].
Proof.
  intros H. unfold trim.
  assert (E : dropWhile isWhiteSpace l = []).
  { induction H as [|c l Hc _ IH]; [reflexivity|]. cbn [dropWhile]. rewrite Hc. exact IH. }
  rewrite E. reflexivity.
Qed.

Lemma blank_chunks fuel chunks : forall out,
  Forall (Forall (fun c => isWhiteSpace c = true)) chunks ->
  parseChunks fuel out chunks = Some out.
Proof.
  induction chunks as [|c cs IH]; intros out Hc; cbn [parseChunks]; [reflexivity|].
  inversion Hc; subst. unfold parseChunk. rewrite trim_blank by assumption.
  cbn [nonEmpty negb]. apply IH. assumption.
Qed.

(** An input of separators and white space only, the empty string included,
    gives the empty pool, and the parser returns on it whatever the fuel. *)
Theorem parseDropKeys_blank fuel s :
  Forall (fun c => isBlank c = true) s -> parseDropKeys fuel s = Some [].
Proof.
  intros H. unfold parseDropKeys.
  rewrite blank_chunks by (apply splitOn_blank; exact H). reflexivity.
Qed.

(** ** Ranges that reach 2^53 *)

Lemma rangeLoop_hangs fuel : forall n kb out,
  0 <= n <= 2 ^ 53 -> 2 ^ 53 * SCALE <= kb ->
  rangeLoop fuel (Fin (n * SCALE)) (Fin kb) out = None.
Proof.
  pose proof SCALE_pos as HS.
  assert (Stuck : add (Fin (2 ^ 53 * SCALE)) one = Fin (2 ^ 53 * SCALE))
    by (vm_compute; reflexivity).
  induction fuel as [|fuel IH]; intros n kb out Hn Hk; cbn [rangeLoop Num.leb toZ];
    (destruct (Z.leb_spec (n * SCALE) kb); [|nia]); [reflexivity|].
  destruct (Z.eq_dec n (2 ^ 53)) as [->|Hne].
  - rewrite Stuck. apply IH; lia.
  - rewrite add_one_small by lia. apply IH; lia.
Qed.

Lemma hanging_range fuel s chunk m1 m2 :
  In chunk (splitOn isSeparator s) ->
  matchRange (trim chunk) = Some (m1, m2) ->
  valueOf 10 m1 <= 2 ^ 53 ->
  isFinite (StringToNumber m2) = true ->
  Num.leb (ofZ (2 ^ 53)) (StringToNumber m2) = true ->
  parseDropKeys fuel s = None.
Proof.
  intros Hin Hm Ha Hfin Hb. pose proof SCALE_pos as HS.
  destruct (matchRange_groups _ _ _ Hm) as (H1 & N1 & H2 & N2 & _).
  assert (Hc : chunkValues fuel chunk = None).
  { assert (P : parseChunk fuel [] chunk = None).
    { unfold parseChunk. rewrite Hm.
      replace (nonEmpty (trim chunk)) with true
        by (destruct (trim chunk); [discriminate Hm | reflexivity]).
      cbn [negb]. rewrite (StringToNumber_integer m1 H1 N1 Ha).
      rewrite ofZ_small in Hb by lia.
      destruct (StringToNumber m2) as [| | | |kb]; try discriminate Hfin.
      - cbn [Num.leb toZ] in Hb. apply Z.leb_le in Hb. lia.
      - cbn [Num.leb toZ] in Hb. apply Z.leb_le in Hb.
        cbn [isFinite andb Num.leb toZ].
        assert (0 <= valueOf 10 m1) by (apply valueOf_radix_nonneg; lia).
        destruct (Z.leb_spec (valueOf 10 m1 * SCALE) kb); [|nia].
        apply rangeLoop_hangs; lia. }
    rewrite parseChunk_values in P.
    destruct (chunkValues fuel chunk); [discriminate P | reflexivity]. }
  rewrite parseDropKeys_values.
  destruct (allValues fuel (splitOn isSeparator s)) as [vs|] eqn:E; [|reflexivity].
  destruct (allValues_Some _ _ _ E) as (_ & A & _).
  destruct (A chunk Hin) as [v Ev]. congruence.
Qed.


(** ** Every key of the pool can be drawn *)

(** Rounding is monotone: between two doubles it stays between them. *)
Lemma roundMag_between p lo hi :
  0 <= lo <= p -> p <= hi ->
  roundMag lo 1 = Some lo -> roundMag hi 1 = Some hi ->
  exists r, roundMag p 1 = Some r /\ lo <= r <= hi.
Proof.
  intros Hlo Hhi Rlo Rhi.
  assert (Dlo : exists l, lo = l * 2 ^ shiftOf lo).
  { unfold roundMag in Rlo. rewrite Z.div_1_r, Z.mul_1_l in Rlo.
    destruct (_ <? OVERFLOW); [|discriminate].
    injection Rlo as E. eexists. symmetry. exact E. }
  assert (Dhi : (exists h, hi = h * 2 ^ shiftOf hi) /\ hi < OVERFLOW).
  { unfold roundMag in Rhi. rewrite Z.div_1_r, Z.mul_1_l in Rhi.
    destruct (Z.ltb_spec (rnd_div hi (2 ^ shiftOf hi) * 2 ^ shiftOf hi) OVERFLOW) as [Ho|];
      [|discriminate].
    injection Rhi as E. split; [eexists; symmetry; exact E | rewrite E in Ho; exact Ho]. }
  destruct Dlo as [l El], Dhi as [[h Eh] Hov].
  unfold roundMag. rewrite Z.div_1_r, Z.mul_1_l.
  set (sh := shiftOf p).
  assert (Hsh : 0 <= sh) by apply shiftOf_nonneg.
  assert (HA : 0 < 2 ^ sh) by (apply Z.pow_pos_nonneg; lia).
  assert (Mlo : shiftOf lo <= sh).
  { unfold sh, shiftOf. pose proof (Z.log2_le_mono lo p ltac:(lia)). lia. }
  assert (Mhi : sh <= shiftOf hi).
  { unfold sh, shiftOf. pose proof (Z.log2_le_mono p hi ltac:(lia)). lia. }
  pose proof (shiftOf_nonneg lo) as Nlo.
  pose proof (rnd_div_floor p (2 ^ sh)) as Hr.
  pose proof (Z.div_mod p (2 ^ sh) ltac:(lia)) as Hdm.
  pose proof (Z.mod_pos_bound p (2 ^ sh) HA) as Hrem.
  pose proof (Z.div_pos p (2 ^ sh) ltac:(lia) HA) as Hq0.
  (* the upper double is a multiple of the spacing at [p] *)
  assert (Ehi : hi = (h * 2 ^ (shiftOf hi - sh)) * 2 ^ sh).
  { rewrite <- Z.mul_assoc, <- Z.pow_add_r by lia.
    replace (shiftOf hi - sh + sh) with (shiftOf hi) by lia. exact Eh. }
  set (h' := h * 2 ^ (shiftOf hi - sh)) in *.
  assert (Up : rnd_div p (2 ^ sh) <= h').
  { destruct (Z.eq_dec (p / 2 ^ sh) h') as [E|Ne].
    - assert (E0 : p mod 2 ^ sh = 0).
      { rewrite E, (Z.mul_comm (2 ^ sh) h') in Hdm. lia. }
      unfold rnd_div. rewrite E0. change (2 * 0) with 0.
      destruct (Z.compare_spec 0 (2 ^ sh)); lia.
    - assert (p / 2 ^ sh < h') by nia. lia. }
  assert (Low : lo <= rnd_div p (2 ^ sh) * 2 ^ sh).
  { destruct (Z.eq_dec (shiftOf lo) sh) as [E|Ne].
    - rewrite E in El. assert (l <= p / 2 ^ sh) by nia. nia.
    - assert (Hs : sh = Z.log2 p - 52) by (unfold sh, shiftOf in *; lia).
      assert (Hp : 0 < p).
      { destruct (Z.eq_dec p 0) as [E0|]; [|lia].
        rewrite E0 in Hs. cbn in Hs. lia. }
      assert (Hl2 : Z.log2 lo < Z.log2 p) by (unfold shiftOf in *; lia).
      destruct (Z.eq_dec lo 0) as [E0|N0]; [nia|].
      pose proof (Z.log2_spec lo ltac:(lia)) as [_ L1].
      pose proof (Z.log2_spec p Hp) as [L2 _].
      assert (L3 : 2 ^ Z.succ (Z.log2 lo) <= 2 ^ Z.log2 p)
        by (apply Z.pow_le_mono_r; lia).
      assert (L4 : 2 ^ Z.log2 p = 2 ^ 52 * 2 ^ sh).
      { rewrite <- Z.pow_add_r by lia. f_equal. lia. }
      assert (2 ^ 52 <= p / 2 ^ sh).
      { apply Z.div_le_lower_bound; [exact HA|]. rewrite L4 in L2. lia. }
      nia. }
  exists (rnd_div p (2 ^ sh) * 2 ^ sh). split; [|nia].
  destruct (Z.ltb_spec (rnd_div p (2 ^ sh) * 2 ^ sh) OVERFLOW); [reflexivity | nia].
Qed.

Lemma element_at arr i x k :
  nth_error arr i = Some x ->
  Z.of_nat i * SCALE <= k < (Z.of_nat i + 1) * SCALE ->
  element arr (floor (Fin k)) = VNum x.
Proof.
  intros Hx Hk. pose proof SCALE_pos as HS.
  assert (E : k / SCALE = Z.of_nat i).
  { symmetry. apply Z.div_unique with (r := k - Z.of_nat i * SCALE); lia. }
  unfold element, floor, toIndex. rewrite E.
  destruct (Z.leb_spec 0 (Z.of_nat i * SCALE)); [|nia].
  rewrite Z.mod_mul by lia. cbn [Z.eqb andb]. rewrite Z.div_mul by lia.
  rewrite Nat2Z.id, Hx. reflexivity.
Qed.

Lemma integer_double j :
  0 <= j <= 2 ^ 53 -> roundMag (j * SCALE) 1 = Some (j * SCALE).
Proof.
  intros Hj. unfold SCALE. apply roundMag_dyadic; [lia | unfold SHIFT; lia |].
  fold SCALE. pose proof pow2_1127. pose proof SCALE_pos. nia.
Qed.

(** The arithmetic of the draw, with [Q] for [2^52], [G] for the gap, [T] for
    [2^32] and [O] for the overflow threshold. *)
Lemma half_step_below j Q G O :
  0 <= j < Q -> 2 * Q * (2 * Q * G) < O -> 0 < G -> j * (2 * Q * G) + Q * G < O.
Proof.
  intros Hj HO HG.
  assert (A1 : 0 < Q * G) by nia.
  assert (A2 : j * (Q * G) <= (Q - 1) * (Q * G)) by (apply Z.mul_le_mono_nonneg_r; lia).
  assert (A3 : 0 < Q * (Q * G)) by nia.
  nia.
Qed.

Lemma draw_below m Q G O :
  0 <= m < 2 * Q -> 2 * Q * (2 * Q * G) < O -> 0 < G -> m * G < O.
Proof.
  intros Hm HO HG.
  assert (A1 : m * G <= 2 * Q * G) by nia.
  assert (A2 : 0 < Q * G) by nia.
  assert (A3 : 1 <= 2 * Q) by lia.
  assert (A4 : 2 * Q * G <= 2 * Q * (2 * Q * G)) by nia.
  nia.
Qed.

Lemma draw_numerator m len j Q T :
  j * (2 * Q) <= m * len <= j * (2 * Q) + len - 1 ->
  0 <= j < len -> len < T -> T < Q -> 0 <= m < 2 * Q.
Proof.
  intros Hm Hj Hlen H32. split; [nia|].
  assert (m * len < 2 * Q * len) by nia. nia.
Qed.

Lemma product_bounds m len j Q T G :
  j * (2 * Q) <= m * len <= j * (2 * Q) + len - 1 ->
  0 <= j < len -> len < T -> T < Q -> 0 < G ->
  j * (2 * Q * G) <= m * G * len <= j * (2 * Q * G) + Q * G.
Proof.
  intros Hm Hj Hlen H32 HG.
  assert (A1 : m * G * len = (m * len) * G) by ring.
  assert (A2 : j * (2 * Q * G) = (j * (2 * Q)) * G) by ring.
  rewrite A1, A2. split.
  - apply Z.mul_le_mono_nonneg_r; lia.
  - replace (j * (2 * Q) * G + Q * G) with ((j * (2 * Q) + Q) * G) by ring.
    apply Z.mul_le_mono_nonneg_r; lia.
Qed.

Lemma floor_bounds j r Q G :
  j * (2 * Q * G) <= r <= j * (2 * Q * G) + Q * G -> 0 < G -> 0 < Q ->
  j * (2 * Q * G) <= r < (j + 1) * (2 * Q * G).
Proof. intros Hr HG HQ. assert (0 < Q * G) by nia. nia. Qed.

Lemma SCALE_half : SCALE = 2 * 2 ^ 52 * GAP.
Proof. exact SCALE_GAP. Qed.

(** [j + 1/2] is a double. *)
Lemma half_step_double j :
  0 <= j < 2 ^ 52 ->
  roundMag (j * SCALE + 2 ^ 52 * GAP) 1 = Some (j * SCALE + 2 ^ 52 * GAP).
Proof.
  intros Hj. pose proof GAP_pos as HG.
  assert (E : j * SCALE + 2 ^ 52 * GAP = (2 * j + 1) * 2 ^ 1073).
  { rewrite SCALE_half.
    replace (2 ^ 1073) with (2 ^ 52 * GAP)
      by (unfold GAP; rewrite <- Z.pow_add_r by lia; reflexivity).
    generalize (2 ^ 52). intros Q. ring. }
  rewrite E. apply roundMag_dyadic; [|lia|].
  - change (2 ^ 53) with (2 * 2 ^ 52). lia.
  - rewrite <- E, SCALE_half. apply half_step_below; [exact Hj | | exact HG].
    rewrite <- SCALE_half. exact pow2_1127.
Qed.

(** The draw for an index is a double in [[0, 1)], and its product with the
    length lies between the index and the index plus one half. *)
Lemma drawFor_bounds len j :
  0 <= j < len -> len < 2 ^ 32 ->
  exists m, drawFor len j = Fin (m * GAP)
            /\ 0 <= m * GAP < SCALE
            /\ isDouble (Fin (m * GAP)) = true
            /\ j * SCALE <= m * GAP * len <= j * SCALE + 2 ^ 52 * GAP.
Proof.
  intros Hj Hlen. pose proof GAP_pos as HG.
  assert (H32 : 2 ^ 32 < 2 ^ 52) by reflexivity.
  unfold drawFor. change (2 ^ 53) with (2 * 2 ^ 52).
  set (m := (j * (2 * 2 ^ 52) + len - 1) / len).
  pose proof (Z.div_mod (j * (2 * 2 ^ 52) + len - 1) len ltac:(lia)) as Hdm.
  pose proof (Z.mod_pos_bound (j * (2 * 2 ^ 52) + len - 1) len ltac:(lia)) as Hrem.
  fold m in Hdm.
  assert (Hm : j * (2 * 2 ^ 52) <= m * len <= j * (2 * 2 ^ 52) + len - 1).
  { revert Hdm Hrem. generalize ((j * (2 * 2 ^ 52) + len - 1) mod len).
    intros r Hdm Hrem. nia. }
  pose proof (draw_numerator m len j (2 ^ 52) (2 ^ 32) Hm Hj Hlen H32) as Hm53.
  exists m. split; [reflexivity|].
  split; [rewrite SCALE_half; nia|].
  split.
  - unfold isDouble. rewrite Z.abs_eq by nia. unfold GAP.
    rewrite roundMag_dyadic; [apply Z.eqb_refl | change (2 ^ 53) with (2 * 2 ^ 52); lia
                              | lia |].
    fold GAP. apply (draw_below m (2 ^ 52)); [exact Hm53 | | exact HG].
    rewrite <- SCALE_half. exact pow2_1127.
  - rewrite SCALE_half.
    exact (product_bounds m len j (2 ^ 52) (2 ^ 32) GAP Hm Hj Hlen H32 HG).
Qed.

(** Every element of the array is what [pickRandom] returns for some draw of
    [Math.random()]: no key of the pool is out of reach. *)
Theorem pickRandom_reaches arr i x :
  nth_error arr i = Some x ->
  Z.of_nat (List.length arr) < 2 ^ 32 ->
  isRandom (drawFor (Z.of_nat (List.length arr)) (Z.of_nat i))
  /\ pickRandom (drawFor (Z.of_nat (List.length arr)) (Z.of_nat i)) arr = VNum x.
Proof.
  intros Hx Hlen.
  pose proof SCALE_pos as HS. pose proof GAP_pos as HG.
  assert (Hi : (i < List.length arr)%nat) by (apply nth_error_Some; congruence).
  set (len := Z.of_nat (List.length arr)) in *. set (j := Z.of_nat i).
  assert (Hj : 0 <= j < len) by (unfold j, len; lia).
  assert (H32 : 2 ^ 32 < 2 ^ 52) by reflexivity.
  assert (H53 : 2 ^ 52 < 2 ^ 53) by reflexivity.
  destruct (drawFor_bounds len j Hj Hlen) as (m & -> & Hk & Hd & Hp).
  split; [exists (m * GAP); split; [reflexivity | split; assumption]|].
  unfold pickRandom. fold len.
  rewrite (ofZ_small len) by lia.
  unfold mul. cbn [isNeg toZ].
  destruct (Z.ltb_spec (m * GAP) 0); [lia|]. destruct (Z.ltb_spec (len * SCALE) 0); [nia|].
  cbn [xorb]. rewrite !Z.abs_eq by nia.
  replace (m * GAP * (len * SCALE)) with (SCALE * (m * GAP * len)) by ring.
  pose proof (round_scale false SCALE (m * GAP * len) 1 HS ltac:(lia)) as R.
  rewrite Z.mul_1_r in R. rewrite R.
  destruct (roundMag_between (m * GAP * len) (j * SCALE) (j * SCALE + 2 ^ 52 * GAP))
    as (r & Er & Hr).
  { split; [nia | apply Hp]. }
  { apply Hp. }
  { apply integer_double. lia. }
  { apply half_step_double. lia. }
  unfold round. rewrite Er.
  assert (Hr' : j * SCALE <= r < (j + 1) * SCALE).
  { rewrite SCALE_half in *. apply (floor_bounds j r (2 ^ 52) GAP Hr HG). reflexivity. }
  destruct r as [|r|r]; [|apply (element_at arr i x); [exact Hx | exact Hr']|lia].
  apply (element_at arr i x 0); [exact Hx | exact Hr'].
Qed.

(** ** Configuration *)

(** When [DROP_KEYS] is not set, or holds separators and white space only,
    the server starts with an empty pool, and every complete open-chest
    request is answered 500 [server_not_configured], with no request sent. *)
Theorem loadConfig_blank_pool fuel e :
  Forall (fun c => isBlank c = true) (dropKeysInput e) ->
  exists cfg,
    loadConfig fuel e = Some cfg
    /\ DROP_KEYS cfg = []
    /\ PUBLISHER_KEY cfg = env_PUBLISHER_KEY e
    /\ forall w reqBody,
         fieldsPresent reqBody = true ->
         truthy (keyVal cfg) = true ->
         openChest w cfg reqBody
         = (json 500 (errorBody (js "server_not_configured")), []).
Proof.
  intros H. unfold loadConfig. fold (dropKeysInput e).
  unfold parseDropKeys. rewrite blank_chunks by (apply splitOn_blank; exact H).
  cbn [sortBy fold_right].
  eexists. split; [reflexivity|]. split; [reflexivity|]. split; [reflexivity|].
  intros w reqBody Hf Hk. unfold fieldsPresent in Hf.
  apply andb_true_iff in Hf. destruct Hf as [Hf Ht].
  apply andb_true_iff in Hf. destruct Hf as [Ha Hs].
  unfold openChest, tryCatch, openChestBody.
  rewrite (destructure_object _ _ Ha). unfold bind, ret.
  rewrite Ha, Hs, Ht, Hk. reflexivity.
Qed.

(** ** The key granted is the key reported *)

(** With the configuration the server loads at startup, a successful
    open-chest has asked the inventory service for the very key its answer
    reports: the [itemdefid[0]] field of the grant request is a string that
    [Number] reads back as the [itemdefid] of the response, a key of the
    pool. *)
Theorem openChest_grants_reported_key fuel e w cfg reqBody resp tr :
  loadConfig fuel e = Some cfg ->
  isRandom (random w) ->
  Z.of_nat (List.length (DROP_KEYS cfg)) < 2 ^ 32 ->
  openChest w cfg reqBody = (resp, tr) ->
  status resp = 200 ->
  exists x form s,
    In x (DROP_KEYS cfg)
    /\ getProp (body resp) (js "itemdefid") = VNum x
    /\ nth_error tr 1 = Some (HttpPost GRANT_URL form)
    /\ formField (js "itemdefid[0]") form = Some s
    /\ StringToNumber s = x.
Proof.
  intros Hload (k & Er & Hk & Hd) Hlen Hrun Hst.
  assert (Keys : Forall isKey (DROP_KEYS cfg)).
  { unfold loadConfig in Hload.
    destruct (parseDropKeys fuel _) as [keys|] eqn:Ep; [|discriminate Hload].
    injection Hload as <-. cbn [DROP_KEYS].
    apply (parseDropKeys_keys _ _ _ Ep). }
  destruct (chestChecked cfg reqBody) eqn:Ec.
  2:{ destruct (openChest_unchecked w cfg reqBody Ec) as [_ Hs].
      rewrite Hrun in Hs. cbn [fst] in Hs. lia. }
  destruct (chestChecked_spec _ _ Ec) as (_ & _ & Hp).
  assert (Hl : 0 < Z.of_nat (List.length (DROP_KEYS cfg)) < 2 ^ 53).
  { split; [destruct (DROP_KEYS cfg); [contradiction | cbn [List.length]; lia]|].
    assert (2 ^ 32 < 2 ^ 53) by (apply Z.pow_lt_mono_r; lia). lia. }
  destruct (mul_random_length k _ Hk Hd Hl) as (k' & Em & Hk').
  destruct (element_floor (DROP_KEYS cfg) k' Hk') as (x & Hin & Hx).
  assert (Pick : pickRandom (random w) (DROP_KEYS cfg) = VNum x).
  { unfold pickRandom. rewrite Er, Em. exact Hx. }
  rewrite Forall_forall in Keys.
  destruct (key_roundtrip x (Keys x Hin)) as (Hrt & _).
  exists x. eexists. exists (NumberToString x).
  split; [exact Hin|].
  rewrite (openChest_checked _ _ _ Ec) in Hrun.
  destruct (http w (chestVerifyCall cfg reqBody)) as [data|e0].
  2:{ injection Hrun as <- _. discriminate Hst. }
  destruct (serviceOk data && strictEq _ (authSteamId data)).
  2:{ injection Hrun as <- _. discriminate Hst. }
  unfold chestGrantCall in Hrun. rewrite Pick in Hrun.
  destruct (http w _) as [gdata|e0].
  2:{ injection Hrun as <- _. discriminate Hst. }
  destruct (isNullish (grantItems gdata)).
  { injection Hrun as <- _. discriminate Hst. }
  destruct (grantOk gdata).
  2:{ injection Hrun as <- _. discriminate Hst. }
  injection Hrun as <- <-.
  split; [reflexivity|]. split; [reflexivity|]. split; [reflexivity | exact Hrt].
Qed.

(** ** What a route can answer *)

(** Whatever the request and the services' replies, a route answers with one
    of its few statuses and sends at most one request (verify-only,
    grant-only) or two (open-chest). *)
Theorem route_answers r w cfg reqBody :
  In (status (fst (runRoute r w cfg reqBody))) (routeStatuses r)
  /\ (List.length (snd (runRoute r w cfg reqBody)) <= routeCalls r)%nat.
Proof.
  destruct r; cbn [runRoute routeStatuses routeCalls].
  - destruct (verifyOnlyReady cfg reqBody) eqn:E.
    + rewrite (verifyOnly_ready _ _ _ E). cbn [fst snd List.length].
      split; [|lia].
      destruct (http w (verifyOnlyCall cfg reqBody)) as [data|e].
      * destruct (serviceOk data && strictEq _ (authSteamId data)); cbn; auto.
      * cbn; auto.
    + destruct (isNullish reqBody) eqn:N.
      * unfold verifyOnly, tryCatch, verifyOnlyBody.
        destruct (destructure_cases reqBody) as [[_ N']|(e & D & _)]; [congruence|].
        rewrite D. cbn. split; [auto | lia].
      * rewrite (verifyOnly_unready _ _ _ E N). cbn. split; [auto | lia].
  - destruct (grantOnlyReady cfg reqBody) eqn:E.
    + rewrite (grantOnly_ready _ _ _ E). cbn [fst snd List.length].
      split; [|lia].
      destruct (http w (grantOnlyCall cfg reqBody)) as [gdata|e]; [|cbn; auto].
      destruct (isNullish (grantItems gdata)); [cbn; auto|].
      destruct (grantOk gdata); cbn; auto.
    + destruct (grantOnly_unready w cfg reqBody E) as [T S].
      rewrite T. cbn [List.length]. split; [|lia].
      destruct S as [-> | ->]; cbn; auto.
  - destruct (chestChecked cfg reqBody) eqn:E.
    + rewrite (openChest_checked _ _ _ E).
      destruct (http w (chestVerifyCall cfg reqBody)) as [data|e];
        [|cbn; split; [auto | lia]].
      destruct (serviceOk data && strictEq _ (authSteamId data));
        [|cbn; split; [auto | lia]].
      destruct (http w (chestGrantCall w cfg reqBody)) as [gdata|e];
        [|cbn; split; [auto | lia]].
      cbn [fst snd List.length]. split; [|lia].
      destruct (isNullish (grantItems gdata)); [cbn; auto|].
      destruct (grantOk gdata); cbn; auto 6.
    + destruct (openChest_unchecked w cfg reqBody E) as [T S].
      rewrite T. cbn [List.length]. split; [|lia].
      destruct S as [-> | ->]; cbn; auto.
Qed.

(** ** The routes on worked requests *)

Lemma openChest_grants_verified_witness :
  exists data,
    http happyWorld (chestVerifyCall sampleConfig sampleRequest) = Return data
    /\ serviceOk data = true
    /\ strictEq (getProp sampleRequest (js "steamid")) (authSteamId data) = true
    /\ snd (openChest happyWorld sampleConfig sampleRequest)
       = [chestVerifyCall sampleConfig sampleRequest;
          chestGrantCall happyWorld sampleConfig sampleRequest].
Proof.
  apply (openChest_grants_verified happyWorld sampleConfig sampleRequest
           (chestGrantCall happyWorld sampleConfig sampleRequest)).
  - rewrite openChest_checked by reflexivity. right. left. reflexivity.
  - reflexivity.
Defined.



Lemma openChest_check_order_witness :
  openChest happyWorld (keyConfig None) bareRequest
  = (json 400 (errorBody (js "missing_fields")), [])
  /\ openChest happyWorld (keyConfig None) sampleRequest
     = (json 500 (errorBody (js "missing_publisher_key")), []).
Proof.
  split.
  - apply (proj1 (openChest_check_order happyWorld (keyConfig None) bareRequest eq_refl)).
    reflexivity.
  - apply (proj2 (openChest_check_order happyWorld (keyConfig None) sampleRequest eq_refl));
      reflexivity.
Defined.



Lemma verifyOnly_default_appid_witness :
  snd (verifyOnly happyWorld sampleConfig bareRequest)
  = [verifyCall sampleConfig (VNum (APPID sampleConfig))
       (getProp bareRequest (js "ticket"))]
  /\ verifyOnly happyWorld unsetAppidConfig bareRequest
     = (json 400 (errorBody (js "missing_fields")), []).
Proof.
  split.
  - apply (proj1 (verifyOnly_default_appid happyWorld sampleConfig bareRequest
                    eq_refl eq_refl eq_refl)).
    reflexivity.
  - apply (proj2 (verifyOnly_default_appid happyWorld unsetAppidConfig bareRequest
                    eq_refl eq_refl eq_refl)).
    reflexivity.
Defined.

(** ** The parser on worked inputs *)

Lemma parseDropKeys_members_witness :
  In (ofZ 10005) sampleOut
  <-> exists chunk o, In chunk (splitOn isSeparator sampleKeys)
                      /\ parseChunk 10 [] chunk = Some o /\ In (ofZ 10005) o.
Proof.
  apply (parseDropKeys_members 10 sampleKeys sampleOut sampleKeys_parsed).
Defined.

Lemma parseDropKeys_order_witness :
  parseDropKeys 5 (js "3-5,7") = parseDropKeys 5 (js "7;3-5;7").
Proof.
  apply parseDropKeys_order. intros chunk.
  change (splitOn isSeparator (js "3-5,7")) with [js "3-5"; js "7"].
  change (splitOn isSeparator (js "7;3-5;7")) with [js "7"; js "3-5"; js "7"].
  cbn [In]. tauto.
Defined.


Lemma parseDropKeys_blank_witness : parseDropKeys 0 (js " ,; ") = Some [].
Proof. apply parseDropKeys_blank. repeat constructor. Defined.


(** ** Draws and configurations *)

Lemma pickRandom_reaches_witness :
  isRandom (drawFor (Z.of_nat (List.length (DROP_KEYS sampleConfig))) (Z.of_nat 1))
  /\ pickRandom (drawFor (Z.of_nat (List.length (DROP_KEYS sampleConfig))) (Z.of_nat 1))
       (DROP_KEYS sampleConfig)
     = VNum (ofZ 10002).
Proof.
  apply (pickRandom_reaches (DROP_KEYS sampleConfig) 1 (ofZ 10002)); reflexivity.
Defined.

Lemma loadConfig_blank_pool_witness :
  exists cfg,
    loadConfig 0 noKeysEnv = Some cfg
    /\ DROP_KEYS cfg = []
    /\ PUBLISHER_KEY cfg = env_PUBLISHER_KEY noKeysEnv
    /\ forall w reqBody,
         fieldsPresent reqBody = true ->
         truthy (keyVal cfg) = true ->
         openChest w cfg reqBody
         = (json 500 (errorBody (js "server_not_configured")), []).
Proof.
  apply (loadConfig_blank_pool 0 noKeysEnv). constructor.
Defined.

Lemma openChest_grants_reported_key_witness :
  exists x form s,
    In x (DROP_KEYS smallConfig)
    /\ getProp (body (fst (openChest happyWorld smallConfig sampleRequest)))
         (js "itemdefid") = VNum x
    /\ nth_error (snd (openChest happyWorld smallConfig sampleRequest)) 1
       = Some (HttpPost GRANT_URL form)
    /\ formField (js "itemdefid[0]") form = Some s
    /\ StringToNumber s = x.
Proof.
  apply (openChest_grants_reported_key 0 smallEnv happyWorld smallConfig sampleRequest).
  - reflexivity.
  - exact half_isRandom.
  - reflexivity.
  - apply surjective_pairing.
  - reflexivity.
Defined.

(** ** The startup log *)

Lemma trim_space s : trim (32 :: s) = trim s.
Proof. reflexivity. Qed.

Lemma parseChunk_trim fuel acc chunk :
  parseChunk fuel acc chunk = parseChunk fuel acc (trim chunk).
Proof. unfold parseChunk. rewrite trim_idem. reflexivity. Qed.

Lemma splitOn_keeps sep c s :
  sep c = false ->
  splitOn sep (c :: s)
  = match splitOn sep s with h :: t => (c :: h) :: t | [] => [[c]] end.
Proof. intros H. cbn [splitOn]. rewrite H. reflexivity. Qed.

Lemma splitOn_loggedKeys p parts :
  Forall (Forall (fun c => isSeparator c = false)) (p :: parts) ->
  splitOn isSeparator (join (js ", ") (p :: parts)) = p :: map (cons 32) parts.
Proof.
  revert p. induction parts as [|q rest IH]; intros p H.
  - cbn [join map]. apply splitOn_nosep. inversion H; assumption.
  - inversion H as [|? ? Hp Hrest]; subst.
    change (join (js ", ") (p :: q :: rest))
      with (p ++ 44 :: 32 :: join (js ", ") (q :: rest)).
    rewrite splitOn_app by (assumption || reflexivity).
    rewrite splitOn_keeps by reflexivity.
    rewrite (IH q Hrest). reflexivity.
Qed.

Lemma parseChunks_logged fuel l : forall acc,
  Forall isKey acc -> Forall isKey l -> NoDup (acc ++ l) ->
  parseChunks fuel acc (map (cons 32) (map NumberToString l)) = Some (acc ++ l).
Proof.
  induction l as [|x l IH]; intros acc Hacc Hl Hn.
  - rewrite app_nil_r. reflexivity.
  - inversion Hl as [|? ? Hx Hl']; subst. cbn [map parseChunks].
    assert (Hin : ~ In x acc).
    { intros Hi. apply NoDup_remove_2 in Hn. apply Hn. apply in_or_app. left. exact Hi. }
    rewrite parseChunk_trim, trim_space, <- parseChunk_trim.
    rewrite (parseChunk_key fuel acc x Hx Hacc Hin).
    replace (acc ++ x :: l) with ((acc ++ [x]) ++ l) in * by (rewrite <- app_assoc; reflexivity).
    apply IH; try assumption.
    apply Forall_app. split; [assumption | constructor; [assumption | constructor]].
Qed.

(** The pool the startup log prints can be given back as [DROP_KEYS]: when
    the pool is what the parser returned, the text between the brackets of
    the [DROP_KEYS=[...]] line parses to the same pool, with any fuel. *)
Theorem startupLog_pool fuel s port cfg :
  parseDropKeys fuel s = Some (DROP_KEYS cfg) ->
  nth_error (startupLog port cfg) 2
  = Some (js "DROP_KEYS=[" ++ loggedKeys (DROP_KEYS cfg) ++ js "]")
  /\ forall fuel', parseDropKeys fuel' (loggedKeys (DROP_KEYS cfg)) = Some (DROP_KEYS cfg).
Proof.
  intros H. split; [reflexivity|]. intros fuel'.
  destruct (parseDropKeys_keys fuel s _ H) as (Hk & Hn & Hs).
  unfold parseDropKeys, loggedKeys.
  destruct (DROP_KEYS cfg) as [|x out]; [reflexivity|].
  cbn [map]. rewrite splitOn_loggedKeys.
  - inversion Hk as [|? ? Hx Hout]; subst. inversion Hn as [|? ? Hnx Hn']; subst.
    cbn [parseChunks].
    rewrite (parseChunk_key fuel' [] x Hx (Forall_nil _) (fun F => F)). cbn [app].
    rewrite (parseChunks_logged fuel' out [x]); try assumption.
    + cbn [app]. rewrite (sortBy_fixed sub _ Hs). reflexivity.
    + constructor; [exact Hx | constructor].
  - apply Forall_forall. intros p Hp.
    change (NumberToString x :: map NumberToString out)
      with (map NumberToString (x :: out)) in Hp.
    apply in_map_iff in Hp. destruct Hp as (y & <- & Hy).
    apply key_roundtrip. eapply Forall_forall; [exact Hk | exact Hy].
Qed.

(** The startup log does not depend on the publisher key beyond whether one
    is set: two servers that differ in their key only log the same lines. *)
Theorem startupLog_hides_key port cfg key1 key2 :
  key1 <> [] -> key2 <> [] ->
  startupLog port (withKey (Some key1) cfg) = startupLog port (withKey (Some key2) cfg).
Proof.
  intros H1 H2. unfold startupLog, withKey, keyVal. cbn [PUBLISHER_KEY envVal truthy
    APPID DROP_KEYS ENABLE_LIMITER].
  destruct key1; [contradiction|]. destruct key2; [contradiction|]. reflexivity.
Qed.

Lemma startupLog_pool_witness :
  nth_error (startupLog None smallConfig) 2
  = Some (js "DROP_KEYS=[" ++ loggedKeys (DROP_KEYS smallConfig) ++ js "]")
  /\ forall fuel', parseDropKeys fuel' (loggedKeys (DROP_KEYS smallConfig))
                   = Some (DROP_KEYS smallConfig).
Proof.
  apply (startupLog_pool 0 (js "7") None smallConfig). reflexivity.
Defined.

Lemma startupLog_hides_key_witness :
  startupLog None (withKey (Some (js "0123456789ABCDEF")) sampleConfig)
  = startupLog None (withKey (Some (js "FEDCBA9876543210")) sampleConfig).
Proof.
  apply startupLog_hides_key; discriminate.
Defined.

(* ------------------------------------------------------------------------- *)
(** ** The model on the spec's examples *)

Example round_examples :
  add (ofZ 1) (ofZ 2) = ofZ 3
  /\ add (ofZ 9007199254740992) one = ofZ 9007199254740992
  /\ add (ofZ 9007199254740994) one = ofZ 9007199254740996
  /\ mul (ofZ 3) (ofZ 5) = ofZ 15
  /\ sub (ofZ 3) (ofZ 5) = ofZ (-2)
  /\ floor (round true (5 * SCALE) 2) = ofZ (-3).
Proof. vm_compute. repeat split. Qed.

Example conversion_examples :
  StringToNumber (js " -5 ") = ofZ (-5)
  /\ StringToNumber (js "0x1F") = ofZ 31
  /\ StringToNumber (js "") = Fin 0
  /\ StringToNumber (js "abc") = NaN
  /\ StringToNumber (js "1e400") = PosInf
  /\ StringToNumber (js "-0") = NegZero
  /\ StringToNumber (js "12-34") = NaN
  /\ NumberToString (StringToNumber (js "1.50")) = js "1.5"
  /\ NumberToString (StringToNumber (js "0.1")) = js "0.1"
  /\ NumberToString (StringToNumber (js "1e21")) = js "1e+21"
  /\ NumberToString (StringToNumber (js "0.0000001")) = js "1e-7".
Proof. vm_compute. repeat split. Qed.

Example json_examples :
  JSON_parse (js "null") = Some VNull
  /\ JSON_parse (js "[]") = Some (VArr [])
  /\ JSON_parse (js " [ 1 , true,null ] ") = Some (VArr [VNum one; VBool true; VNull])
  /\ JSON_parse (js "{ }") = Some (VObj [])
  /\ JSON_parse (js "[{,}]") = None
  /\ JSON_parse (js "01") = None
  /\ JSON_parse (js "not json") = None
  /\ JSON_parse (js "") = None
  /\ JSON_parse [34; 97; 92; 110; 34] = Some (VStr [97; 10])
  /\ JSON_parse [123; 34; 97; 34; 58; 91; 50; 93; 125]
     = Some (VObj [([97], VArr [VNum (ofZ 2)])])
  /\ ToString (VArr [VNum (ofZ 1); VNull; VArr [VStr (js "a"); VBool true]]) = js "1,,a,true"
  /\ ToNumber (VArr [VNum (ofZ 5)]) = ofZ 5
  /\ ToNumber (VArr []) = Fin 0
  /\ ToNumber (VObj []) = NaN.
Proof. vm_compute. repeat split. Qed.

Example parse_examples :
  parseDropKeys 10 (js "50-10") = Some []
  /\ parseDropKeys 10 (js "abc") = Some []
  /\ parseDropKeys 10 (js " 7 ;; 3 - 5 ,7,, 1e1") = Some (map ofZ [3; 4; 5; 7; 10])
  /\ parseDropKeys 2 (js "1-9") = None
  /\ joinKeys (map ofZ [3; 10]) = js "3,10".
Proof. vm_compute. repeat split. Qed.
